(** * SplitPe: ledger and settlement engine

    A shallow embedding of the computational core of the SplitPe
    application:

    - [src/utils/calculations.ts]: [calculateEqualSplit],
      [calculateCustomSplit], [calculatePercentageSplit],
      [optimizeSettlements], [validateExpenseParticipants],
      [roundToTwoDecimals], [calculateGroupSummary],
      [calculateUserExpenseSummary];
    - [src/stores/useAppStore.ts]: [calculateUserBalances],
      [getGroupExpenses], and the actions that write the users, the
      groups, the expenses and the settlements of the store;
    - the settlements that the group details screen suggests.

    Numbers.  A TypeScript [number] is modelled as an exact rational
    ([Q]); every arithmetic operation returns its result in lowest terms,
    so that a value has one representation and concrete runs can be
    compared with [=].  Thresholds ([0.01], [0.009]), [Math.round],
    [Math.abs] and [Math.min] are kept where the source has them.
    At run time a [number] is a binary64 value.  The two agree except
    where a rounding of the last bit decides a test or a cent: a tie
    between two cents, a sum at the 0.01 boundary of a check, a balance
    of one cent, NaN.  The general theorems are stated for inputs away
    from these (amounts inside margins around a boundary, balances in
    units above one cent, whole amounts for stored totals); the module
    [Binary64] embeds the calculations a second time over machine
    floats and runs them on the inputs where the two part.

    Effects.  [optimizeSettlements] reads the wall clock ([Date.now()],
    [new Date()]): the clock is an explicit argument.  Its [while] loop is
    a step function iterated under a fuel bound; running out of fuel is
    [None].  [calculateUserBalances] reads the store through [get()]: it
    is a computation in a small state monad over the store.  An action
    of the store is a function from the state to the state that
    zustand's [set] installs; an action that reads the clock takes its
    successive readings as an argument. *)

From Stdlib Require Import ZArith QArith Qround Qabs Qminmax Lqa Lia List Sorted Permutation.
From stdpp Require Import base list strings pretty.
From Stdlib Require PrimFloat FloatOps SpecFloat.

Open Scope Z_scope.
Open Scope Q_scope.

(* ================================================================== *)
(** ** Numbers *)
(* ================================================================== *)

Module Num.

Definition number : Type := Q.

Definition add (x y : number) : number := Qred (x + y).
Definition sub (x y : number) : number := Qred (x - y).
Definition mul (x y : number) : number := Qred (x * y).
Definition div (x y : number) : number := Qred (x / y).

Definition ltb (x y : number) : bool :=
  match x ?= y with Lt => true | _ => false end.
Definition leb (x y : number) : bool :=
  match x ?= y with Gt => false | _ => true end.
Definition gtb (x y : number) : bool := ltb y x.
Definition geb (x y : number) : bool := leb y x.

(** [Math.abs], [Math.min], and [Math.round] (nearest integer, a tie
    goes towards plus infinity). *)
Definition Math_abs (x : number) : number := Qred (Qabs x).
Definition Math_min (x y : number) : number := if leb x y then x else y.
Definition Math_round (x : number) : number :=
  inject_Z (Qfloor (x + (1 # 2))).

(** [array.length] as a number. *)
Definition of_nat (n : nat) : number := inject_Z (Z.of_nat n).

(** [x.toFixed(2)], for magnitudes below 1e21. *)
Definition two_digits (z : Z) : string :=
  if (z <? 10)%Z then "0" +:+ pretty z else pretty z.
Definition toFixed2 (x : number) : string :=
  let n := Qfloor (Qabs x * 100 + (1 # 2)) in
  (if ltb x 0 then "-" else "")
    +:+ pretty (n / 100)%Z +:+ "." +:+ two_digits (n mod 100)%Z.

End Num.

Import Num.

Declare Scope num_scope.
Delimit Scope num_scope with num.
Infix "+!" := add (at level 50, left associativity) : num_scope.
Infix "-!" := sub (at level 50, left associativity) : num_scope.
Infix "*!" := mul (at level 40, left associativity) : num_scope.
Infix "/!" := div (at level 40, left associativity) : num_scope.
Infix "<!" := ltb (at level 70, no associativity) : num_scope.
Infix "<=!" := leb (at level 70, no associativity) : num_scope.
Infix ">!" := gtb (at level 70, no associativity) : num_scope.
Infix ">=!" := geb (at level 70, no associativity) : num_scope.
Open Scope num_scope.

(* ================================================================== *)
(** ** Data model ([src/types]) *)
(* ================================================================== *)

(** Only the fields that the functions under study read or write are
    kept; optional fields that they never set ([paidAt],
    [upiTransactionId]) are left out. *)

Module User.
Record t : Type := mk { id : string }.
End User.

Module Group.
Record t : Type := mk { id : string; members : list User.t }.
End Group.

Module ExpenseParticipant.
Record t : Type := mk { userId : string; amount : number; isPaid : bool }.
End ExpenseParticipant.

Module Expense.
Record t : Type := mk {
  id : string;
  groupId : string;
  totalAmount : number;
  paidBy : string;
  participants : list ExpenseParticipant.t }.
End Expense.

Module UserBalance.
Record t : Type := mk {
  userId : string;
  groupId : string;
  totalOwed : number;
  totalLent : number;
  netBalance : number }.
End UserBalance.

Module Settlement.
Record t : Type := mk {
  id : string;
  fromUserId : string;
  toUserId : string;
  amount : number;
  groupId : string;
  expenseIds : list string;
  isPaid : bool;
  createdAt : Z }.
End Settlement.

(** A call either returns or throws [new Error(message)]. *)
Inductive result (A : Type) : Type :=
| Ok (value : A)
| Throw (message : string).
Arguments Ok {A} value.
Arguments Throw {A} message.

(** Reading a property of [array[i]] when [i] is out of range. *)
Definition TypeError : string := "TypeError: cannot read properties of undefined".

(** [array[i]] for a JavaScript index. *)
Definition at_index {A : Type} (l : list A) (i : Z) : option A :=
  if (i <? 0)%Z then None else l !! Z.to_nat i.

(* ================================================================== *)
(** ** [src/utils/calculations.ts] *)
(* ================================================================== *)

(** [participants.reduce((acc, p) => acc + p.amount, 0)] *)
Definition sum_amounts (participants : list ExpenseParticipant.t) : number :=
  fold_left (fun acc p => acc +! ExpenseParticipant.amount p) participants 0.

(** The [while (Math.abs(diff) > 0.009 && i < n)] loop of
    [calculateEqualSplit].  [i] grows by one in every iteration, so the
    loop is structural in [remaining = n - i]. *)
Fixpoint equalSplit_while (remaining : nat) (i : nat) (totalAmount : number)
    (participants : list ExpenseParticipant.t) (diff : number)
    : result (list ExpenseParticipant.t) :=
  match remaining with
  | O => Ok participants
  | S remaining' =>
      if Math_abs diff >! 0.009 then
        match participants !! i with
        | None => Throw TypeError
        | Some p =>
            let p' := ExpenseParticipant.mk
                        (ExpenseParticipant.userId p)
                        (Math_round ((ExpenseParticipant.amount p +! diff) *! 100) /! 100)
                        (ExpenseParticipant.isPaid p) in
            let participants' := <[i := p']> participants in
            let sum := sum_amounts participants' in
            let diff' := Math_round ((totalAmount -! sum) *! 100) /! 100 in
            equalSplit_while remaining' (S i) totalAmount participants' diff'
        end
      else Ok participants
  end.

Definition calculateEqualSplit (totalAmount : number) (participantIds : list string)
    : result (list ExpenseParticipant.t) :=
  let n := length participantIds in
  if (n =? 0)%nat then Ok [] else
  let rawPerPerson := totalAmount /! of_nat n in
  let roundedPerPerson := Math_round (rawPerPerson *! 100) /! 100 in
  let participants :=
    map (fun userId => ExpenseParticipant.mk userId roundedPerPerson false)
        participantIds in
  let sum := sum_amounts participants in
  let diff := Math_round ((totalAmount -! sum) *! 100) /! 100 in
  equalSplit_while n 0 totalAmount participants diff.

Definition calculateCustomSplit (totalAmount : number)
    (customAmounts : list (string * number))
    : result (list ExpenseParticipant.t) :=
  let totalCustomAmount :=
    fold_left (fun sum item => sum +! snd item) customAmounts 0 in
  if Math_abs (totalCustomAmount -! totalAmount) >! 0.01 then
    Throw "Custom split amounts do not match total amount"
  else
    Ok (map (fun item => ExpenseParticipant.mk (fst item) (snd item) false)
            customAmounts).

Definition calculatePercentageSplit (totalAmount : number)
    (percentages : list (string * number))
    : result (list ExpenseParticipant.t) :=
  let totalPercentage :=
    fold_left (fun sum item => sum +! snd item) percentages 0 in
  if Math_abs (totalPercentage -! 100) >! 0.01 then
    Throw "Percentages do not add up to 100%"
  else
    Ok (map (fun item =>
               ExpenseParticipant.mk (fst item)
                 (Math_round ((totalAmount *! snd item /! 100) *! 100) /! 100)
                 false)
            percentages).

(** [Array.prototype.sort(compareFn)]: a stable sort; an element moves
    behind a later one only when [compareFn] is positive on the pair. *)
Fixpoint sort_insert {A : Type} (compareFn : A -> A -> number) (x : A) (l : list A)
    : list A :=
  match l with
  | [] => [x]
  | y :: l' =>
      if compareFn x y >! 0 then y :: sort_insert compareFn x l' else x :: l
  end.

Definition Array_sort {A : Type} (compareFn : A -> A -> number) (l : list A) : list A :=
  fold_right (sort_insert compareFn) [] l.

Definition set_netBalance (b : UserBalance.t) (v : number) : UserBalance.t :=
  UserBalance.mk (UserBalance.userId b) (UserBalance.groupId b)
                 (UserBalance.totalOwed b) (UserBalance.totalLent b) v.

(** The variables of [optimizeSettlements] that its loop changes;
    [ticks] counts the clock readings made so far. *)
Record LoopState : Type := mkLoop {
  leftIndex : Z;
  rightIndex : Z;
  workingBalances : list UserBalance.t;
  settlements : list Settlement.t;
  ticks : nat }.

(** One pass through the body of [while (leftIndex < rightIndex)].
    [lender] and [debtor] are references into [workingBalances], so the
    two assignments to [netBalance] write the array elements, and the
    tests after them read the new values.  An element out of range is
    [undefined]; the call throws where it first reads [netBalance] of
    it. *)
Definition loop_body (clock : nat -> Z) (st : LoopState) : result LoopState :=
  let left := leftIndex st in
  let right := rightIndex st in
  let wb := workingBalances st in
  match at_index wb left with
  | None => Throw TypeError
  | Some lender =>
  if Math_abs (UserBalance.netBalance lender) <! 0.01 then
    Ok (mkLoop (left + 1) right wb (settlements st) (ticks st))
  else
  match at_index wb right with
  | None => Throw TypeError
  | Some debtor =>
  if Math_abs (UserBalance.netBalance debtor) <! 0.01 then
    Ok (mkLoop left (right - 1) wb (settlements st) (ticks st))
  else if UserBalance.netBalance lender <=! 0 then
    Ok (mkLoop (left + 1) right wb (settlements st) (ticks st))
  else if UserBalance.netBalance debtor >=! 0 then
    Ok (mkLoop left (right - 1) wb (settlements st) (ticks st))
  else
    let settlementAmount :=
      Math_min (UserBalance.netBalance lender)
               (Math_abs (UserBalance.netBalance debtor)) in
    let emit := settlementAmount >! 0.01 in
    let settlements' :=
      if emit then
        settlements st ++
          [Settlement.mk
             (pretty (clock (ticks st)) +:+ "_" +:+ pretty left
                +:+ "_" +:+ pretty right)
             (UserBalance.userId debtor)
             (UserBalance.userId lender)
             (Math_round (settlementAmount *! 100) /! 100)
             (UserBalance.groupId lender)
             []
             false
             (clock (S (ticks st)))]
      else settlements st in
    let lender' :=
      if emit then
        set_netBalance lender (UserBalance.netBalance lender -! settlementAmount)
      else lender in
    let debtor' :=
      if emit then
        set_netBalance debtor (UserBalance.netBalance debtor +! settlementAmount)
      else debtor in
    let wb' :=
      if emit then
        <[Z.to_nat right := debtor']> (<[Z.to_nat left := lender']> wb)
      else wb in
    let ticks' := if emit then S (S (ticks st)) else ticks st in
    let left' :=
      if Math_abs (UserBalance.netBalance lender') <! 0.01
      then (left + 1)%Z else left in
    let right' :=
      if Math_abs (UserBalance.netBalance debtor') <! 0.01
      then (right - 1)%Z else right in
    Ok (mkLoop left' right' wb' settlements' ticks')
  end
  end.

(** The loop, for at most [fuel] evaluations of its condition. *)
Fixpoint while_loop (clock : nat -> Z) (fuel : nat) (st : LoopState)
    : option (result (list Settlement.t)) :=
  match fuel with
  | O => None
  | S fuel' =>
      if (leftIndex st <? rightIndex st)%Z then
        match loop_body clock st with
        | Ok st' => while_loop clock fuel' st'
        | Throw message => Some (Throw message)
        end
      else Some (Ok (settlements st))
  end.

(** [{ ...b }]: a new object with the fields of [b]. *)
Definition copy_balance (b : UserBalance.t) : UserBalance.t :=
  UserBalance.mk (UserBalance.userId b) (UserBalance.groupId b)
                 (UserBalance.totalOwed b) (UserBalance.totalLent b)
                 (UserBalance.netBalance b).

(** The state in which the loop is entered: a copy of the balances,
    sorted by descending net balance. *)
Definition initial_state (balances : list UserBalance.t) : LoopState :=
  let workingBalances := map copy_balance balances in
  let sorted :=
    Array_sort (fun a b => UserBalance.netBalance b -! UserBalance.netBalance a)
               workingBalances in
  mkLoop 0 (Z.of_nat (length sorted) - 1) sorted [] 0.

Definition optimizeSettlements (clock : nat -> Z) (fuel : nat)
    (balances : list UserBalance.t) : option (result (list Settlement.t)) :=
  while_loop clock fuel (initial_state balances).

Module Validation.
Record t : Type := mk { isValid : bool; error : option string }.
End Validation.

Definition validateExpenseParticipants (totalAmount : number)
    (participants : list ExpenseParticipant.t) : Validation.t :=
  if (length participants =? 0)%nat then
    Validation.mk false (Some "At least one participant is required")
  else
    let totalParticipantAmount := sum_amounts participants in
    let difference := Math_abs (totalAmount -! totalParticipantAmount) in
    if difference >! 0.01 then
      Validation.mk false
        (Some ("Participant amounts (₹" +:+ toFixed2 totalParticipantAmount
               +:+ ") do not match total amount (₹" +:+ toFixed2 totalAmount
               +:+ ")"))
    else
      let negativeAmounts :=
        List.filter (fun p => ExpenseParticipant.amount p <! 0) participants in
      if (0 <? length negativeAmounts)%nat then
        Validation.mk false (Some "Participant amounts cannot be negative")
      else Validation.mk true None.

Definition roundToTwoDecimals (num : number) : number :=
  Math_round (num *! 100) /! 100.

(* ================================================================== *)
(** ** [src/stores/useAppStore.ts] *)
(* ================================================================== *)

(** The part of the store that [calculateUserBalances] reads. *)
Module AppState.
Record t : Type := mk { groups : list Group.t; expenses : list Expense.t }.
End AppState.

(** Store actions: a state monad over the store; [get] is zustand's
    [get()]. *)
Definition Store (A : Type) : Type := AppState.t -> A * AppState.t.
Definition ret {A : Type} (a : A) : Store A := fun s => (a, s).
Definition bind {A B : Type} (m : Store A) (k : A -> Store B) : Store B :=
  fun s => let (a, s') := m s in k a s'.
Definition get : Store AppState.t := fun s => (s, s).

Notation "'let*' x ':=' m 'in' k" := (bind m (fun x => k))
  (at level 10, x name, m at level 100, k at level 200).

(** A JavaScript [Map] with string keys: the entries in insertion order.
    [Map_set] replaces the value of a key that is present and keeps its
    position; [Map_alter] is a write through the reference that [get]
    returned. *)
Definition JSMap (V : Type) : Type := list (string * V).

Fixpoint Map_set {V : Type} (k : string) (v : V) (m : JSMap V) : JSMap V :=
  match m with
  | [] => [(k, v)]
  | (k', v') :: m' =>
      if String.eqb k' k then (k', v) :: m' else (k', v') :: Map_set k v m'
  end.

Fixpoint Map_get {V : Type} (k : string) (m : JSMap V) : option V :=
  match m with
  | [] => None
  | (k', v') :: m' => if String.eqb k' k then Some v' else Map_get k m'
  end.

Fixpoint Map_alter {V : Type} (f : V -> V) (k : string) (m : JSMap V) : JSMap V :=
  match m with
  | [] => []
  | (k', v') :: m' =>
      if String.eqb k' k then (k', f v') :: m' else (k', v') :: Map_alter f k m'
  end.

Definition Map_values {V : Type} (m : JSMap V) : list V := map snd m.

Definition add_totalLent (x : number) (b : UserBalance.t) : UserBalance.t :=
  UserBalance.mk (UserBalance.userId b) (UserBalance.groupId b)
                 (UserBalance.totalOwed b) (UserBalance.totalLent b +! x)
                 (UserBalance.netBalance b).

Definition add_totalOwed (x : number) (b : UserBalance.t) : UserBalance.t :=
  UserBalance.mk (UserBalance.userId b) (UserBalance.groupId b)
                 (UserBalance.totalOwed b +! x) (UserBalance.totalLent b)
                 (UserBalance.netBalance b).

(** [group.members.forEach(member => balanceMap.set(member.id, {...}))] *)
Definition init_balances (groupId : string) (members : list User.t)
    : JSMap UserBalance.t :=
  fold_left
    (fun balanceMap member =>
       Map_set (User.id member)
               (UserBalance.mk (User.id member) groupId 0 0 0) balanceMap)
    members [].

(** The body of [expense.participants.forEach(participant => ...)] *)
Definition add_participant (balanceMap : JSMap UserBalance.t)
    (participant : ExpenseParticipant.t) : JSMap UserBalance.t :=
  match Map_get (ExpenseParticipant.userId participant) balanceMap with
  | Some _ =>
      if negb (ExpenseParticipant.isPaid participant) then
        Map_alter (add_totalOwed (ExpenseParticipant.amount participant))
                  (ExpenseParticipant.userId participant) balanceMap
      else balanceMap
  | None => balanceMap
  end.

(** The body of [groupExpenses.forEach(expense => ...)] *)
Definition add_expense (balanceMap : JSMap UserBalance.t) (expense : Expense.t)
    : JSMap UserBalance.t :=
  let balanceMap1 :=
    match Map_get (Expense.paidBy expense) balanceMap with
    | Some _ =>
        Map_alter (add_totalLent (Expense.totalAmount expense))
                  (Expense.paidBy expense) balanceMap
    | None => balanceMap
    end in
  fold_left add_participant (Expense.participants expense) balanceMap1.

(** [balance.netBalance = balance.totalLent - balance.totalOwed] *)
Definition close_balance (b : UserBalance.t) : UserBalance.t :=
  set_netBalance b (UserBalance.totalLent b -! UserBalance.totalOwed b).

Definition calculateUserBalances (groupId : string) : Store (list UserBalance.t) :=
  let* state := get in
  let groupExpenses :=
    List.filter (fun e => String.eqb (Expense.groupId e) groupId)
                (AppState.expenses state) in
  let group :=
    List.find (fun g => String.eqb (Group.id g) groupId) (AppState.groups state) in
  match group with
  | None => ret []
  | Some group =>
      let balanceMap := init_balances groupId (Group.members group) in
      let balanceMap := fold_left add_expense groupExpenses balanceMap in
      let balanceMap := map (fun kv => (fst kv, close_balance (snd kv))) balanceMap in
      ret (Map_values balanceMap)
  end.

(** [getGroupExpenses] *)
Definition getGroupExpenses (groupId : string) : Store (list Expense.t) :=
  let* state := get in
  ret (List.filter (fun e => String.eqb (Expense.groupId e) groupId)
                   (AppState.expenses state)).

(* ================================================================== *)
(** ** Specification vocabulary *)
(* ================================================================== *)

(** A decimal literal, in lowest terms. *)
Definition lit (q : Q) : number := Qred q.

(** Exact sum of [f] over a list. *)
Fixpoint total {A : Type} (f : A -> Q) (l : list A) : Q :=
  match l with
  | [] => 0
  | a :: l' => f a + total f l'
  end.

Definition positive_part (x : Q) : Q := if 0 <! x then x else 0.

(** Sum of the positive net balances, and of the magnitudes of the
    negative ones. *)
Definition sum_positive (balances : list UserBalance.t) : Q :=
  total (fun b => positive_part (UserBalance.netBalance b)) balances.
Definition sum_negative (balances : list UserBalance.t) : Q :=
  total (fun b => positive_part (- UserBalance.netBalance b)) balances.

(** A whole number of cents. *)
Definition is_cents (x : Q) : Prop := inject_Z (Qfloor (x * 100)) == x * 100.

(** The run of the loop of [optimizeSettlements] as a relation between
    loop states, with what is known in each branch of the body. *)
Section LoopStep.
Variable clock : nat -> Z.
Variable st : LoopState.

Let left := leftIndex st.
Let right := rightIndex st.
Let wb := workingBalances st.

Inductive loop_step : LoopState -> Prop :=
| step_skip_lender lender :
    at_index wb left = Some lender ->
    Qabs (UserBalance.netBalance lender) < 0.01
      \/ UserBalance.netBalance lender <= 0 ->
    loop_step (mkLoop (left + 1) right wb (settlements st) (ticks st))
| step_skip_debtor lender debtor :
    at_index wb left = Some lender ->
    at_index wb right = Some debtor ->
    Qabs (UserBalance.netBalance debtor) < 0.01
      \/ 0 <= UserBalance.netBalance debtor ->
    loop_step (mkLoop left (right - 1) wb (settlements st) (ticks st))
| step_idle lender debtor :
    at_index wb left = Some lender ->
    at_index wb right = Some debtor ->
    0.01 <= UserBalance.netBalance lender ->
    UserBalance.netBalance debtor <= - 0.01 ->
    UserBalance.netBalance lender == 0.01
      \/ UserBalance.netBalance debtor == - 0.01 ->
    loop_step (mkLoop left right wb (settlements st) (ticks st))
| step_emit lender debtor s :
    at_index wb left = Some lender ->
    at_index wb right = Some debtor ->
    0 < UserBalance.netBalance lender ->
    UserBalance.netBalance debtor < 0 ->
    0.01 < s ->
    (s == UserBalance.netBalance lender
       /\ UserBalance.netBalance lender <= - UserBalance.netBalance debtor)
      \/ (s == - UserBalance.netBalance debtor
            /\ - UserBalance.netBalance debtor <= UserBalance.netBalance lender) ->
    loop_step
      (mkLoop
         (if Math_abs (UserBalance.netBalance lender -! s) <! 0.01
          then (left + 1)%Z else left)
         (if Math_abs (UserBalance.netBalance debtor +! s) <! 0.01
          then (right - 1)%Z else right)
         (<[Z.to_nat right :=
              set_netBalance debtor (UserBalance.netBalance debtor +! s)]>
            (<[Z.to_nat left :=
                 set_netBalance lender (UserBalance.netBalance lender -! s)]> wb))
         (settlements st ++
            [Settlement.mk
               (pretty (clock (ticks st)) +:+ "_" +:+ pretty left
                  +:+ "_" +:+ pretty right)
               (UserBalance.userId debtor)
               (UserBalance.userId lender)
               (Math_round (s *! 100) /! 100)
               (UserBalance.groupId lender)
               []
               false
               (clock (S (ticks st)))])
         (S (S (ticks st)))).
End LoopStep.

(** States that the loop passes through, from a given state on. *)
Inductive reachable (clock : nat -> Z) (st0 : LoopState) : LoopState -> Prop :=
| reach_start : reachable clock st0 st0
| reach_next st st' :
    reachable clock st0 st ->
    (leftIndex st < rightIndex st)%Z ->
    loop_body clock st = Ok st' ->
    reachable clock st0 st'.

(** The pointers stay inside the array, whose length never changes. *)
Definition in_range (n : nat) (st : LoopState) : Prop :=
  (0 <= leftIndex st)%Z /\ (rightIndex st <= Z.of_nat n - 1)%Z
  /\ length (workingBalances st) = n.

(** What a settlement says once the two fields read from the clock
    ([id], [createdAt]) are set aside. *)
Definition clock_free (s : Settlement.t)
    : string * string * number * string * list string * bool :=
  (Settlement.fromUserId s, Settlement.toUserId s, Settlement.amount s,
   Settlement.groupId s, Settlement.expenseIds s, Settlement.isPaid s).

Definition map_result {A B : Type} (f : A -> B) (r : result A) : result B :=
  match r with
  | Ok a => Ok (f a)
  | Throw message => Throw message
  end.

(** Loop states that differ at most in the clock fields of the
    settlements emitted so far. *)
Definition same_up_to_clock (st1 st2 : LoopState) : Prop :=
  leftIndex st1 = leftIndex st2
  /\ rightIndex st1 = rightIndex st2
  /\ workingBalances st1 = workingBalances st2
  /\ map clock_free (settlements st1) = map clock_free (settlements st2).

(** [contains s t]: [t] occurs in [s]. *)
Fixpoint contains (s t : string) : bool :=
  String.prefix t s
  || match s with
     | EmptyString => false
     | String _ s' => contains s' t
     end.

(** An error message names a sum when it shows it the way the messages
    of [validateExpenseParticipants] do, with two decimals. *)
Definition names (message : string) (x : number) : bool :=
  contains message (toFixed2 x).

(** Largest and smallest share of a non-empty split. *)
Definition max_share (shares : list ExpenseParticipant.t) : Q :=
  match shares with
  | [] => 0
  | p :: rest =>
      fold_left (fun m q => if m <! ExpenseParticipant.amount q
                            then ExpenseParticipant.amount q else m)
                rest (ExpenseParticipant.amount p)
  end.
Definition min_share (shares : list ExpenseParticipant.t) : Q :=
  match shares with
  | [] => 0
  | p :: rest =>
      fold_left (fun m q => if ExpenseParticipant.amount q <! m
                            then ExpenseParticipant.amount q else m)
                rest (ExpenseParticipant.amount p)
  end.

(** No debtor stands before a creditor. *)
Definition no_inversion (wb : list UserBalance.t) : Prop :=
  forall i j a b,
    wb !! i = Some a -> wb !! j = Some b -> (i < j)%nat ->
    UserBalance.netBalance a < 0 -> 0 < UserBalance.netBalance b -> False.

(** The invariant of the loop of [optimizeSettlements] on balances in
    whole cents: nothing is owed to the members the left pointer has
    passed, nothing is owed by those the right pointer has passed, and
    what has been settled so far is what is missing from the positive
    balances, and from the negative ones. *)
Record settling (P0 N0 : Q) (st : LoopState) : Prop := mkSettling {
  settling_cents :
    Forall (fun b => is_cents (UserBalance.netBalance b)) (workingBalances st);
  settling_left :
    forall i b, workingBalances st !! i = Some b ->
                (Z.of_nat i < leftIndex st)%Z -> UserBalance.netBalance b <= 0;
  settling_right :
    forall i b, workingBalances st !! i = Some b ->
                (rightIndex st < Z.of_nat i)%Z -> 0 <= UserBalance.netBalance b;
  settling_order : no_inversion (workingBalances st);
  settling_positive :
    sum_positive (workingBalances st) + total Settlement.amount (settlements st) == P0;
  settling_negative :
    sum_negative (workingBalances st) + total Settlement.amount (settlements st) == N0 }.

Definition is_member (group : Group.t) (userId : string) : Prop :=
  In userId (map User.id (Group.members group)).

(** The payer and the participants of an expense belong to the group. *)
Definition members_only (group : Group.t) (expense : Expense.t) : Prop :=
  is_member group (Expense.paidBy expense)
  /\ Forall (fun p => is_member group (ExpenseParticipant.userId p))
            (Expense.participants expense).

(** A self-consistent expense: payer and participants are group
    members, no share is negative, and the shares sum to the total
    within 0.01. *)
Definition self_consistent (group : Group.t) (expense : Expense.t) : Prop :=
  members_only group expense
  /\ Forall (fun p => 0 <= ExpenseParticipant.amount p)
            (Expense.participants expense)
  /\ Qabs (total ExpenseParticipant.amount (Expense.participants expense)
           - Expense.totalAmount expense) <= 0.01.

(** What the participants of an expense still owe: the shares not
    marked paid. *)
Definition unpaid_amount (expense : Expense.t) : Q :=
  total (fun p => if ExpenseParticipant.isPaid p then 0
                  else ExpenseParticipant.amount p)
        (Expense.participants expense).

(** The store of the second scenario of the specification: A pays 300,
    split equally among A, B and C; A's own share is marked paid. *)
Definition scenario2_group : Group.t :=
  Group.mk "g" [User.mk "A"; User.mk "B"; User.mk "C"].
Definition scenario2_store : AppState.t :=
  AppState.mk [scenario2_group]
    [Expense.mk "e1" "g" 300 "A"
       [ExpenseParticipant.mk "A" 100 true;
        ExpenseParticipant.mk "B" 100 false;
        ExpenseParticipant.mk "C" 100 false]].

(** A store with one expense of 100, split three ways with the first
    participant absorbing the rounding cent; no share is paid yet. *)
Definition unpaid_store : AppState.t :=
  AppState.mk [scenario2_group]
    [Expense.mk "e1" "g" 100 "A"
       [ExpenseParticipant.mk "A" 33.34 false;
        ExpenseParticipant.mk "B" 33.33 false;
        ExpenseParticipant.mk "C" 33.33 false]].

(** A store with two expenses of 10 whose shares each fall one cent
    short of the total; no share is paid. *)
Definition one_cent_short_store : AppState.t :=
  AppState.mk [Group.mk "g" [User.mk "A"; User.mk "B"]]
    [Expense.mk "e1" "g" 10 "A"
       [ExpenseParticipant.mk "A" 5 false; ExpenseParticipant.mk "B" 4.99 false];
     Expense.mk "e2" "g" 10 "A"
       [ExpenseParticipant.mk "A" 5 false; ExpenseParticipant.mk "B" 4.99 false]].

(** Sums over the values of the balance map, and the maps that have an
    entry for every member of a group. *)
Definition lent_sum (m : JSMap UserBalance.t) : Q :=
  total (fun kv => UserBalance.totalLent (snd kv)) m.
Definition owed_sum (m : JSMap UserBalance.t) : Q :=
  total (fun kv => UserBalance.totalOwed (snd kv)) m.
Definition covers (group : Group.t) (m : JSMap UserBalance.t) : Prop :=
  forall k, is_member group k -> is_Some (Map_get k m).

(** A store with a single expense of one cent, paid by A for B. *)
Definition one_cent_store : AppState.t :=
  AppState.mk [Group.mk "g" [User.mk "A"; User.mk "B"]]
    [Expense.mk "e1" "g" 0.01 "A" [ExpenseParticipant.mk "B" 0.01 false]].

(* ================================================================== *)
(** ** [src/utils/calculations.ts]: summaries *)
(* ================================================================== *)

Module GroupSummary.
Record t : Type := mk {
  totalExpenses : number;
  totalSettled : number;
  totalPending : number;
  settlementRate : number }.
End GroupSummary.

Definition calculateGroupSummary (expenses : list Expense.t)
    (settlements : list Settlement.t) : GroupSummary.t :=
  let totalExpenses :=
    fold_left (fun sum expense => sum +! Expense.totalAmount expense) expenses 0 in
  let totalSettled :=
    fold_left (fun sum settlement => sum +! Settlement.amount settlement)
              (List.filter (fun s => Settlement.isPaid s) settlements) 0 in
  let totalPending :=
    fold_left (fun sum settlement => sum +! Settlement.amount settlement)
              (List.filter (fun s => negb (Settlement.isPaid s)) settlements) 0 in
  GroupSummary.mk totalExpenses totalSettled totalPending
    (if totalExpenses >! 0 then (totalSettled /! totalExpenses) *! 100 else 0).

Module UserExpenseSummary.
Record t : Type := mk {
  totalPaid : number;
  totalShare : number;
  netBalance : number;
  amountOwedToUser : number;
  amountUserOwes : number }.
End UserExpenseSummary.

(** [x || 0] for a number [x]: zero is falsy. *)
Definition or_zero (x : number) : number := if Qeq_bool x 0 then 0 else x.

Definition calculateUserExpenseSummary (userId : string)
    (expenses : list Expense.t) (settlements : list Settlement.t)
    : UserExpenseSummary.t :=
  let userExpenses :=
    List.filter (fun e => String.eqb (Expense.paidBy e) userId) expenses in
  let totalPaid :=
    fold_left (fun sum expense => sum +! Expense.totalAmount expense) userExpenses 0 in
  let userShareInExpenses :=
    fold_left
      (fun sum expense =>
         let userParticipation :=
           List.find (fun p => String.eqb (ExpenseParticipant.userId p) userId)
                     (Expense.participants expense) in
         sum +! match userParticipation with
                | Some p => or_zero (ExpenseParticipant.amount p)
                | None => 0
                end)
      expenses 0 in
  let amountOwedToUser :=
    fold_left (fun sum settlement => sum +! Settlement.amount settlement)
      (List.filter (fun s => String.eqb (Settlement.toUserId s) userId
                             && negb (Settlement.isPaid s)) settlements) 0 in
  let amountUserOwes :=
    fold_left (fun sum settlement => sum +! Settlement.amount settlement)
      (List.filter (fun s => String.eqb (Settlement.fromUserId s) userId
                             && negb (Settlement.isPaid s)) settlements) 0 in
  UserExpenseSummary.mk totalPaid userShareInExpenses
    (totalPaid -! userShareInExpenses) amountOwedToUser amountUserOwes.

(* ================================================================== *)
(** ** Specification vocabulary for balances and settlements *)
(* ================================================================== *)

(** What a member paid for the group, and what the member still owes:
    the shares in the member's name that are not marked paid. *)
Definition lent_of (userId : string) (expenses : list Expense.t) : Q :=
  total (fun e => if String.eqb (Expense.paidBy e) userId
                  then Expense.totalAmount e else 0) expenses.

Definition unpaid_share_of (userId : string) (participants : list ExpenseParticipant.t)
    : Q :=
  total (fun p => if String.eqb (ExpenseParticipant.userId p) userId
                     && negb (ExpenseParticipant.isPaid p)
                  then ExpenseParticipant.amount p else 0) participants.

Definition owed_of (userId : string) (expenses : list Expense.t) : Q :=
  total (fun e => unpaid_share_of userId (Expense.participants e)) expenses.

(** The effect of one participant entry, and of one expense, on the
    balance object stored under a key. *)
Definition participant_effect (k : string) (v : UserBalance.t)
    (p : ExpenseParticipant.t) : UserBalance.t :=
  if String.eqb (ExpenseParticipant.userId p) k && negb (ExpenseParticipant.isPaid p)
  then add_totalOwed (ExpenseParticipant.amount p) v else v.

Definition expense_effect (k : string) (v : UserBalance.t) (e : Expense.t)
    : UserBalance.t :=
  fold_left (participant_effect k) (Expense.participants e)
    (if String.eqb (Expense.paidBy e) k
     then add_totalLent (Expense.totalAmount e) v else v).

(** What the balance of a member has to be. *)
Definition balance_of (groupId : string) (expenses : list Expense.t)
    (member : User.t) (b : UserBalance.t) : Prop :=
  UserBalance.userId b = User.id member
  /\ UserBalance.groupId b = groupId
  /\ UserBalance.totalLent b == lent_of (User.id member) expenses
  /\ UserBalance.totalOwed b == owed_of (User.id member) expenses
  /\ UserBalance.netBalance b
     == lent_of (User.id member) expenses - owed_of (User.id member) expenses.

(** A working balance against the balance it started from: the same
    member, on the same side of zero and no further from it. *)
Definition same_side (b0 b : UserBalance.t) : Prop :=
  UserBalance.userId b = UserBalance.userId b0
  /\ UserBalance.groupId b = UserBalance.groupId b0
  /\ (0 < UserBalance.netBalance b ->
      UserBalance.netBalance b <= UserBalance.netBalance b0)
  /\ (UserBalance.netBalance b < 0 ->
      UserBalance.netBalance b0 <= UserBalance.netBalance b).

(** A settlement that goes from a member who owes to a member who is
    owed, for at least one cent and for no more than either balance
    (up to the half cent of rounding). *)
Definition well_directed (balances : list UserBalance.t) (s : Settlement.t) : Prop :=
  exists debtor creditor,
    In debtor balances /\ In creditor balances
    /\ Settlement.fromUserId s = UserBalance.userId debtor
    /\ Settlement.toUserId s = UserBalance.userId creditor
    /\ Settlement.groupId s = UserBalance.groupId creditor
    /\ UserBalance.netBalance debtor < 0
    /\ 0 < UserBalance.netBalance creditor
    /\ 0.01 <= Settlement.amount s
    /\ Settlement.amount s <= - UserBalance.netBalance debtor + 0.005
    /\ Settlement.amount s <= UserBalance.netBalance creditor + 0.005
    /\ Settlement.isPaid s = false
    /\ Settlement.expenseIds s = [].

Record directed (wb0 : list UserBalance.t) (st : LoopState) : Prop := mkDirected {
  directed_length : length (workingBalances st) = length wb0;
  directed_side :
    forall i b0 b, wb0 !! i = Some b0 -> workingBalances st !! i = Some b ->
                   same_side b0 b;
  directed_settlements : Forall (well_directed wb0) (settlements st) }.

(** What a list of settlements brings to a member, and takes from the
    member. *)
Definition inflow (userId : string) (settlements : list Settlement.t) : Q :=
  total (fun s => if String.eqb (Settlement.toUserId s) userId
                  then Settlement.amount s else 0) settlements.
Definition outflow (userId : string) (settlements : list Settlement.t) : Q :=
  total (fun s => if String.eqb (Settlement.fromUserId s) userId
                  then Settlement.amount s else 0) settlements.

(** Each working balance is the starting balance less what the
    settlements so far have brought the member, net. *)
Definition accounted (wb0 : list UserBalance.t) (st : LoopState) : Prop :=
  forall i b0 b,
    wb0 !! i = Some b0 -> workingBalances st !! i = Some b ->
    UserBalance.netBalance b0
    == UserBalance.netBalance b
       + inflow (UserBalance.userId b0) (settlements st)
       - outflow (UserBalance.userId b0) (settlements st).


(** A whole multiple of a unit of account. *)
Definition multiple_of (u x : Q) : Prop := exists k : Z, x == inject_Z k * u.

(* ================================================================== *)
(** ** The group details screen: the suggested settlements *)
(* ================================================================== *)

(** In [GroupDetailsScreen]:
    [memberBalances.length > 0 ? optimizeSettlements(memberBalances) : []]
    with [memberBalances = calculateUserBalances(groupId)]. *)
Definition suggestedSettlements (clock : nat -> Z) (fuel : nat) (groupId : string)
    : Store (option (result (list Settlement.t))) :=
  let* memberBalances := calculateUserBalances groupId in
  ret (if (0 <? length memberBalances)%nat
       then optimizeSettlements clock fuel memberBalances
       else Some (Ok [])).

(* ================================================================== *)
(** ** [src/stores/useAppStore.ts]: the actions that write the store *)
(* ================================================================== *)

(** The records of [src/types] with all their fields.  A [Date] is the
    clock reading it was made from; an optional field is an [option]. *)
Module Full.

Module User.
Record t : Type := mk {
  id : string;
  name : string;
  phone : string;
  email : option string;
  upiId : option string;
  avatar : option string }.
End User.

Inductive Purpose : Type := Trip | Rent | Party | OfficeSnacks | Dining | Others.

Module Group.
Record t : Type := mk {
  id : string;
  name : string;
  description : option string;
  purpose : Purpose;
  members : list User.t;
  createdBy : string;
  createdAt : Z;
  totalExpenses : number;
  currency : string;
  isActive : bool }.

Definition set_totalExpenses (group : t) (v : number) : t :=
  mk (id group) (name group) (description group) (purpose group) (members group)
     (createdBy group) (createdAt group) v (currency group) (isActive group).
End Group.

Module ExpenseItem.
Record t : Type := mk {
  id : string;
  description : string;
  amount : number;
  participants : list string }.
End ExpenseItem.

Module ExpenseParticipant.
Record t : Type := mk {
  userId : string;
  amount : number;
  isPaid : bool;
  paidAt : option Z }.
End ExpenseParticipant.

Inductive SplitType : Type := equal | custom | itemized.

Module Expense.
Record t : Type := mk {
  id : string;
  groupId : string;
  title : string;
  description : option string;
  totalAmount : number;
  paidBy : string;
  splitType : SplitType;
  participants : list ExpenseParticipant.t;
  items : option (list ExpenseItem.t);
  upiTransactionId : option string;
  receiptImage : option string;
  receiptPhoto : option string;
  createdAt : Z;
  updatedAt : Z;
  currency : string }.

(** [{ ...expense, participants, updatedAt }] *)
Definition set_participants (expense : t) (ps : list ExpenseParticipant.t)
    (now : Z) : t :=
  mk (id expense) (groupId expense) (title expense) (description expense)
     (totalAmount expense) (paidBy expense) (splitType expense) ps
     (items expense) (upiTransactionId expense) (receiptImage expense)
     (receiptPhoto expense) (createdAt expense) now (currency expense).
End Expense.

Module Settlement.
Record t : Type := mk {
  id : string;
  fromUserId : string;
  toUserId : string;
  amount : number;
  groupId : string;
  expenseIds : list string;
  isPaid : bool;
  paidAt : option Z;
  upiTransactionId : option string;
  createdAt : Z }.
End Settlement.

(** [Omit<Group, 'id' | 'createdAt'>] *)
Module GroupData.
Record t : Type := mk {
  name : string;
  description : option string;
  purpose : Purpose;
  members : list User.t;
  createdBy : string;
  totalExpenses : number;
  currency : string;
  isActive : bool }.
End GroupData.

(** [Omit<Expense, 'id' | 'createdAt' | 'updatedAt'>] *)
Module ExpenseData.
Record t : Type := mk {
  groupId : string;
  title : string;
  description : option string;
  totalAmount : number;
  paidBy : string;
  splitType : SplitType;
  participants : list ExpenseParticipant.t;
  items : option (list ExpenseItem.t);
  upiTransactionId : option string;
  receiptImage : option string;
  receiptPhoto : option string;
  currency : string }.
End ExpenseData.

(** [Omit<Settlement, 'id' | 'createdAt'>] *)
Module SettlementData.
Record t : Type := mk {
  fromUserId : string;
  toUserId : string;
  amount : number;
  groupId : string;
  expenseIds : list string;
  isPaid : bool;
  paidAt : option Z;
  upiTransactionId : option string }.
End SettlementData.

(** [Partial<Expense>]: a key is absent ([None]) or present with a
    value; for an optional field the value may be [undefined].  A
    required field given the value [undefined] is outside this model. *)
Module ExpenseUpdates.
Record t : Type := mk {
  id : option string;
  groupId : option string;
  title : option string;
  description : option (option string);
  totalAmount : option number;
  paidBy : option string;
  splitType : option SplitType;
  participants : option (list ExpenseParticipant.t);
  items : option (option (list ExpenseItem.t));
  upiTransactionId : option (option string);
  receiptImage : option (option string);
  receiptPhoto : option (option string);
  createdAt : option Z;
  updatedAt : option Z;
  currency : option string }.

(** The object with no key. *)
Definition none : t :=
  mk None None None None None None None None None None None None None None None.
End ExpenseUpdates.

(** The fields of the store that the actions below read or write.  The
    notification settings and the current user are only read to word
    the alerts that [createGroup] and [addExpense] schedule; the alerts
    are outside this model. *)
Module AppState.
Record t : Type := mk {
  users : list User.t;
  groups : list Group.t;
  activeGroupId : option string;
  expenses : list Expense.t;
  settlements : list Settlement.t }.
End AppState.

End Full.

(** [set({ users })], [set({ groups })], ...: zustand merges the object
    that an action returns into the state. *)
Definition set_users (state : Full.AppState.t) (users : list Full.User.t)
    : Full.AppState.t :=
  Full.AppState.mk users (Full.AppState.groups state)
    (Full.AppState.activeGroupId state) (Full.AppState.expenses state)
    (Full.AppState.settlements state).

Definition set_groups (state : Full.AppState.t) (groups : list Full.Group.t)
    : Full.AppState.t :=
  Full.AppState.mk (Full.AppState.users state) groups
    (Full.AppState.activeGroupId state) (Full.AppState.expenses state)
    (Full.AppState.settlements state).

Definition set_activeGroupId (state : Full.AppState.t) (activeGroupId : option string)
    : Full.AppState.t :=
  Full.AppState.mk (Full.AppState.users state) (Full.AppState.groups state)
    activeGroupId (Full.AppState.expenses state) (Full.AppState.settlements state).

Definition set_expenses (state : Full.AppState.t) (expenses : list Full.Expense.t)
    : Full.AppState.t :=
  Full.AppState.mk (Full.AppState.users state) (Full.AppState.groups state)
    (Full.AppState.activeGroupId state) expenses (Full.AppState.settlements state).

Definition set_settlements (state : Full.AppState.t)
    (settlements : list Full.Settlement.t) : Full.AppState.t :=
  Full.AppState.mk (Full.AppState.users state) (Full.AppState.groups state)
    (Full.AppState.activeGroupId state) (Full.AppState.expenses state) settlements.

(** The store when the application starts. *)
Definition initial_store : Full.AppState.t := Full.AppState.mk [] [] None [] [].

(** A string or [undefined] where JavaScript asks whether it is truthy:
    [undefined] and the empty string are not. *)
Definition truthy (s : option string) : bool :=
  match s with
  | Some s => negb (String.eqb s "")
  | None => false
  end.

(** [a === b] on values that are a string or [undefined]. *)
Definition strict_eq (a b : option string) : bool :=
  match a, b with
  | Some a, Some b => String.eqb a b
  | None, None => true
  | _, _ => false
  end.

(** [Array.prototype.map] with a callback that reads the clock: the
    number of readings made so far is passed along. *)
Fixpoint map_clocked {A B : Type} (f : A -> nat -> B * nat) (l : list A) (t : nat)
    : list B * nat :=
  match l with
  | [] => ([], t)
  | a :: l' =>
      let (b, t1) := f a t in
      let (bs, t2) := map_clocked f l' t1 in
      (b :: bs, t2)
  end.

(** In the actions below, [now k] is the [k]-th reading of the clock
    that the call makes ([Date.now()] or [new Date()]). *)

Definition addUser (user : Full.User.t) (state : Full.AppState.t) : Full.AppState.t :=
  set_users state
    (if existsb
          (fun u => String.eqb (Full.User.phone u) (Full.User.phone user)
                    || (truthy (Full.User.email user)
                        && strict_eq (Full.User.email u) (Full.User.email user)))
          (Full.AppState.users state)
     then Full.AppState.users state
     else Full.AppState.users state ++ [user]).

Definition createGroup (now : nat -> Z) (groupData : Full.GroupData.t)
    (state : Full.AppState.t) : Full.AppState.t :=
  let newGroup :=
    Full.Group.mk (pretty (now 0%nat))
      (Full.GroupData.name groupData) (Full.GroupData.description groupData)
      (Full.GroupData.purpose groupData) (Full.GroupData.members groupData)
      (Full.GroupData.createdBy groupData) (now 1%nat) 0 "INR" true in
  set_groups state (Full.AppState.groups state ++ [newGroup]).

Definition deleteGroup (groupId : string) (state : Full.AppState.t)
    : Full.AppState.t :=
  Full.AppState.mk (Full.AppState.users state)
    (List.filter (fun group => negb (String.eqb (Full.Group.id group) groupId))
                 (Full.AppState.groups state))
    (match Full.AppState.activeGroupId state with
     | Some active => if String.eqb active groupId then None else Some active
     | None => None
     end)
    (Full.AppState.expenses state) (Full.AppState.settlements state).

Definition setActiveGroup (groupId : option string) (state : Full.AppState.t)
    : Full.AppState.t :=
  set_activeGroupId state groupId.

Definition addExpense (now : nat -> Z) (expenseData : Full.ExpenseData.t)
    (state : Full.AppState.t) : Full.AppState.t :=
  let newExpense :=
    Full.Expense.mk (pretty (now 0%nat))
      (Full.ExpenseData.groupId expenseData) (Full.ExpenseData.title expenseData)
      (Full.ExpenseData.description expenseData)
      (Full.ExpenseData.totalAmount expenseData) (Full.ExpenseData.paidBy expenseData)
      (Full.ExpenseData.splitType expenseData)
      (Full.ExpenseData.participants expenseData) (Full.ExpenseData.items expenseData)
      (Full.ExpenseData.upiTransactionId expenseData)
      (Full.ExpenseData.receiptImage expenseData)
      (Full.ExpenseData.receiptPhoto expenseData)
      (now 1%nat) (now 2%nat) (Full.ExpenseData.currency expenseData) in
  let updatedGroups :=
    map (fun group =>
           if String.eqb (Full.Group.id group) (Full.ExpenseData.groupId expenseData)
           then Full.Group.set_totalExpenses group
                  (Full.Group.totalExpenses group
                   +! Full.ExpenseData.totalAmount expenseData)
           else group)
        (Full.AppState.groups state) in
  Full.AppState.mk (Full.AppState.users state) updatedGroups
    (Full.AppState.activeGroupId state)
    (Full.AppState.expenses state ++ [newExpense])
    (Full.AppState.settlements state).

(** [{ ...expense, ...updates, updatedAt: new Date() }] *)
Definition update_expense (now : nat -> Z) (expenseId : string)
    (updates : Full.ExpenseUpdates.t) (expense : Full.Expense.t) (t : nat)
    : Full.Expense.t * nat :=
  if String.eqb (Full.Expense.id expense) expenseId
  then (Full.Expense.mk
          (default (Full.Expense.id expense) (Full.ExpenseUpdates.id updates))
          (default (Full.Expense.groupId expense)
                   (Full.ExpenseUpdates.groupId updates))
          (default (Full.Expense.title expense) (Full.ExpenseUpdates.title updates))
          (default (Full.Expense.description expense)
                   (Full.ExpenseUpdates.description updates))
          (default (Full.Expense.totalAmount expense)
                   (Full.ExpenseUpdates.totalAmount updates))
          (default (Full.Expense.paidBy expense) (Full.ExpenseUpdates.paidBy updates))
          (default (Full.Expense.splitType expense)
                   (Full.ExpenseUpdates.splitType updates))
          (default (Full.Expense.participants expense)
                   (Full.ExpenseUpdates.participants updates))
          (default (Full.Expense.items expense) (Full.ExpenseUpdates.items updates))
          (default (Full.Expense.upiTransactionId expense)
                   (Full.ExpenseUpdates.upiTransactionId updates))
          (default (Full.Expense.receiptImage expense)
                   (Full.ExpenseUpdates.receiptImage updates))
          (default (Full.Expense.receiptPhoto expense)
                   (Full.ExpenseUpdates.receiptPhoto updates))
          (default (Full.Expense.createdAt expense)
                   (Full.ExpenseUpdates.createdAt updates))
          (now t)
          (default (Full.Expense.currency expense)
                   (Full.ExpenseUpdates.currency updates)),
        S t)
  else (expense, t).

Definition updateExpense (now : nat -> Z) (expenseId : string)
    (updates : Full.ExpenseUpdates.t) (state : Full.AppState.t) : Full.AppState.t :=
  set_expenses state
    (fst (map_clocked (update_expense now expenseId updates)
                      (Full.AppState.expenses state) 0%nat)).

Definition deleteExpense (expenseId : string) (state : Full.AppState.t)
    : Full.AppState.t :=
  match List.find (fun e => String.eqb (Full.Expense.id e) expenseId)
                  (Full.AppState.expenses state) with
  | None => state
  | Some expense =>
      let updatedGroups :=
        map (fun group =>
               if String.eqb (Full.Group.id group) (Full.Expense.groupId expense)
               then Full.Group.set_totalExpenses group
                      (Full.Group.totalExpenses group
                       -! Full.Expense.totalAmount expense)
               else group)
            (Full.AppState.groups state) in
      Full.AppState.mk (Full.AppState.users state) updatedGroups
        (Full.AppState.activeGroupId state)
        (List.filter (fun e => negb (String.eqb (Full.Expense.id e) expenseId))
                     (Full.AppState.expenses state))
        (Full.AppState.settlements state)
  end.

Definition clearAllExpenses (state : Full.AppState.t) : Full.AppState.t :=
  let updatedGroups :=
    map (fun group => Full.Group.set_totalExpenses group 0)
        (Full.AppState.groups state) in
  Full.AppState.mk (Full.AppState.users state) updatedGroups
    (Full.AppState.activeGroupId state) [] (Full.AppState.settlements state).

(** The callback of the inner [map] of [markExpensePaid]. *)
Definition mark_participant (now : nat -> Z) (participantUserId : string)
    (participant : Full.ExpenseParticipant.t) (t : nat)
    : Full.ExpenseParticipant.t * nat :=
  if String.eqb (Full.ExpenseParticipant.userId participant) participantUserId
  then (Full.ExpenseParticipant.mk (Full.ExpenseParticipant.userId participant)
          (Full.ExpenseParticipant.amount participant) true (Some (now t)),
        S t)
  else (participant, t).

(** The callback of its outer [map]. *)
Definition mark_expense (now : nat -> Z) (expenseId participantUserId : string)
    (expense : Full.Expense.t) (t : nat) : Full.Expense.t * nat :=
  if String.eqb (Full.Expense.id expense) expenseId
  then
    let (participants, t1) :=
      map_clocked (mark_participant now participantUserId)
                  (Full.Expense.participants expense) t in
    (Full.Expense.set_participants expense participants (now t1), S t1)
  else (expense, t).

Definition markExpensePaid (now : nat -> Z) (expenseId participantUserId : string)
    (state : Full.AppState.t) : Full.AppState.t :=
  set_expenses state
    (fst (map_clocked (mark_expense now expenseId participantUserId)
                      (Full.AppState.expenses state) 0%nat)).

Definition addSettlement (now : nat -> Z) (settlementData : Full.SettlementData.t)
    (state : Full.AppState.t) : Full.AppState.t :=
  let newSettlement :=
    Full.Settlement.mk (pretty (now 0%nat))
      (Full.SettlementData.fromUserId settlementData)
      (Full.SettlementData.toUserId settlementData)
      (Full.SettlementData.amount settlementData)
      (Full.SettlementData.groupId settlementData)
      (Full.SettlementData.expenseIds settlementData)
      (Full.SettlementData.isPaid settlementData)
      (Full.SettlementData.paidAt settlementData)
      (Full.SettlementData.upiTransactionId settlementData)
      (now 1%nat) in
  set_settlements state (Full.AppState.settlements state ++ [newSettlement]).

(** The callback of the [map] of [markSettlementPaid]. *)
Definition mark_settlement (now : nat -> Z) (settlementId : string)
    (upiTransactionId : option string) (settlement : Full.Settlement.t) (t : nat)
    : Full.Settlement.t * nat :=
  if String.eqb (Full.Settlement.id settlement) settlementId
  then (Full.Settlement.mk (Full.Settlement.id settlement)
          (Full.Settlement.fromUserId settlement)
          (Full.Settlement.toUserId settlement)
          (Full.Settlement.amount settlement)
          (Full.Settlement.groupId settlement)
          (Full.Settlement.expenseIds settlement)
          true (Some (now t)) upiTransactionId
          (Full.Settlement.createdAt settlement),
        S t)
  else (settlement, t).

Definition markSettlementPaid (now : nat -> Z) (settlementId : string)
    (upiTransactionId : option string) (state : Full.AppState.t) : Full.AppState.t :=
  set_settlements state
    (fst (map_clocked (mark_settlement now settlementId upiTransactionId)
                      (Full.AppState.settlements state) 0%nat)).

Definition getUserSettlements (userId : string) (groupId : option string)
    (state : Full.AppState.t) : list Full.Settlement.t :=
  List.filter
    (fun s => (String.eqb (Full.Settlement.fromUserId s) userId
               || String.eqb (Full.Settlement.toUserId s) userId)
              && (negb (truthy groupId)
                  || strict_eq (Some (Full.Settlement.groupId s)) groupId))
    (Full.AppState.settlements state).

(** The records that the calculations read, out of the full ones, and
    the part of the store that [calculateUserBalances] and
    [getGroupExpenses] read. *)
Definition to_User (u : Full.User.t) : User.t := User.mk (Full.User.id u).

Definition to_Group (g : Full.Group.t) : Group.t :=
  Group.mk (Full.Group.id g) (map to_User (Full.Group.members g)).

Definition to_Participant (p : Full.ExpenseParticipant.t) : ExpenseParticipant.t :=
  ExpenseParticipant.mk (Full.ExpenseParticipant.userId p)
    (Full.ExpenseParticipant.amount p) (Full.ExpenseParticipant.isPaid p).

Definition to_Expense (e : Full.Expense.t) : Expense.t :=
  Expense.mk (Full.Expense.id e) (Full.Expense.groupId e) (Full.Expense.totalAmount e)
    (Full.Expense.paidBy e) (map to_Participant (Full.Expense.participants e)).

Definition to_Settlement (s : Full.Settlement.t) : Settlement.t :=
  Settlement.mk (Full.Settlement.id s) (Full.Settlement.fromUserId s)
    (Full.Settlement.toUserId s) (Full.Settlement.amount s)
    (Full.Settlement.groupId s) (Full.Settlement.expenseIds s)
    (Full.Settlement.isPaid s) (Full.Settlement.createdAt s).

Definition ledger (state : Full.AppState.t) : AppState.t :=
  AppState.mk (map to_Group (Full.AppState.groups state))
              (map to_Expense (Full.AppState.expenses state)).

(* ================================================================== *)
(** ** Specification vocabulary for the store *)
(* ================================================================== *)

(** The sum of the expenses recorded for a group. *)
Definition group_total (groupId : string) (expenses : list Full.Expense.t) : Q :=
  total (fun e => if String.eqb (Full.Expense.groupId e) groupId
                  then Full.Expense.totalAmount e else 0) expenses.

(** Every group's [totalExpenses] is the sum of its expenses, and no
    two expenses share an id. *)
Definition booked (state : Full.AppState.t) : Prop :=
  Forall (fun g => Full.Group.totalExpenses g
                   == group_total (Full.Group.id g) (Full.AppState.expenses state))
         (Full.AppState.groups state)
  /\ List.NoDup (map Full.Expense.id (Full.AppState.expenses state)).

(** An amount that binary64 holds exactly and adds and subtracts
    without rounding: a whole number from 0 to 2^53. *)
Definition whole_amount (x : Q) : Prop :=
  multiple_of 1 x /\ 0 <= x /\ x <= 9007199254740992.

(** The calls of the store's actions, other than [updateGroup] and
    [updateExpense], at moments when the clock gives an id that is not
    in use, with expenses of whole amounts that keep the total of
    their group a whole amount. *)
Inductive store_step (state : Full.AppState.t) : Full.AppState.t -> Prop :=
| step_addUser user : store_step state (addUser user state)
| step_createGroup now groupData :
    Forall (fun e => Full.Expense.groupId e <> pretty (now 0%nat))
           (Full.AppState.expenses state) ->
    store_step state (createGroup now groupData state)
| step_deleteGroup groupId : store_step state (deleteGroup groupId state)
| step_setActiveGroup groupId : store_step state (setActiveGroup groupId state)
| step_addExpense now expenseData :
    ~ In (pretty (now 0%nat)) (map Full.Expense.id (Full.AppState.expenses state)) ->
    whole_amount (Full.ExpenseData.totalAmount expenseData) ->
    Forall (fun g => Full.Group.id g = Full.ExpenseData.groupId expenseData ->
                     whole_amount (Full.Group.totalExpenses g
                                   + Full.ExpenseData.totalAmount expenseData))
           (Full.AppState.groups state) ->
    store_step state (addExpense now expenseData state)
| step_deleteExpense expenseId : store_step state (deleteExpense expenseId state)
| step_clearAllExpenses : store_step state (clearAllExpenses state)
| step_markExpensePaid now expenseId participantUserId :
    store_step state (markExpensePaid now expenseId participantUserId state)
| step_addSettlement now settlementData :
    store_step state (addSettlement now settlementData state)
| step_markSettlementPaid now settlementId upiTransactionId :
    store_step state (markSettlementPaid now settlementId upiTransactionId state).

Inductive store_reachable : Full.AppState.t -> Prop :=
| store_start : store_reachable initial_store
| store_next state state' :
    store_reachable state -> store_step state state' -> store_reachable state'.

(** Two groups that differ at most in how [totalExpenses] is written. *)
Definition same_group (g g' : Full.Group.t) : Prop :=
  g' = Full.Group.set_totalExpenses g (Full.Group.totalExpenses g')
  /\ Full.Group.totalExpenses g' == Full.Group.totalExpenses g.

(** An expense of the ledger once the shares of a member are marked
    paid in the expenses with a given id. *)
Definition paid_by (expenseId participantUserId : string) (e : Expense.t) : Expense.t :=
  if String.eqb (Expense.id e) expenseId
  then Expense.mk (Expense.id e) (Expense.groupId e) (Expense.totalAmount e)
         (Expense.paidBy e)
         (map (fun p => if String.eqb (ExpenseParticipant.userId p) participantUserId
                        then ExpenseParticipant.mk (ExpenseParticipant.userId p)
                               (ExpenseParticipant.amount p) true
                        else p)
              (Expense.participants e))
  else e.

(** What the unpaid settlements with a given id amount to. *)
Definition pending_with_id (settlementId : string) (settlements : list Settlement.t)
    : Q :=
  total (fun s => if String.eqb (Settlement.id s) settlementId
                     && negb (Settlement.isPaid s)
                  then Settlement.amount s else 0) settlements.

(** Example data: two users, a group of both, and a dinner of 300 that
    the first paid, split equally. *)
Definition asha : Full.User.t := Full.User.mk "u1" "Asha" "9000000001" None None None.
Definition ravi : Full.User.t :=
  Full.User.mk "u2" "Ravi" "9000000002" (Some "ravi@example.org") None None.

Definition trip_data : Full.GroupData.t :=
  Full.GroupData.mk "Goa" None Full.Trip [asha; ravi] "u1" 0 "INR" true.

Definition dinner_data (groupId : string) : Full.ExpenseData.t :=
  Full.ExpenseData.mk groupId "Dinner" None 300 "u1" Full.equal
    [Full.ExpenseParticipant.mk "u1" 150 false None;
     Full.ExpenseParticipant.mk "u2" 150 false None]
    None None None None "INR".

Definition taxi_data (groupId : string) : Full.ExpenseData.t :=
  Full.ExpenseData.mk groupId "Taxi" None 80 "u2" Full.equal
    [Full.ExpenseParticipant.mk "u1" 40 false None;
     Full.ExpenseParticipant.mk "u2" 40 false None]
    None None None None "INR".

(** The clock of the examples: the [k]-th reading of a call made at
    [t] is [t + k]. *)
Definition at_time (t : Z) (k : nat) : Z := (t + Z.of_nat k)%Z.

(** The store after the group was created at 1000 and the dinner added
    at 2000. *)
Definition trip_store : Full.AppState.t :=
  addExpense (at_time 2000) (dinner_data "1000")
    (createGroup (at_time 1000) trip_data initial_store).

(** A settlement of the ledger once the settlements with a given id are
    marked paid. *)
Definition settled_by_id (settlementId : string) (s : Settlement.t) : Settlement.t :=
  if String.eqb (Settlement.id s) settlementId
  then Settlement.mk (Settlement.id s) (Settlement.fromUserId s) (Settlement.toUserId s)
         (Settlement.amount s) (Settlement.groupId s) (Settlement.expenseIds s) true
         (Settlement.createdAt s)
  else s.

(** A settlement in which a user takes part, as payer or as payee. *)
Definition involves (userId : string) (s : Full.Settlement.t) : Prop :=
  Full.Settlement.fromUserId s = userId \/ Full.Settlement.toUserId s = userId.

(** The update that the edit screen sends when only the amount of an
    expense was changed. *)
Definition new_amount (totalAmount : number) : Full.ExpenseUpdates.t :=
  Full.ExpenseUpdates.mk None None None None (Some totalAmount) None None None
    None None None None None None None.

(** An expense whose total and shares are whole multiples of a unit. *)
Definition whole_multiples (u : Q) (e : Expense.t) : Prop :=
  multiple_of u (Expense.totalAmount e)
  /\ Forall (fun p => multiple_of u (ExpenseParticipant.amount p))
            (Expense.participants e).

(** A store whose amounts are whole multiples of 0.05: A pays 90.15 for
    A, B and C; B pays 30.10 for B and C; no share is paid yet. *)
Definition shared_cab_store : AppState.t :=
  AppState.mk [scenario2_group]
    [Expense.mk "e1" "g" 90.15 "A"
       [ExpenseParticipant.mk "A" 30.05 false;
        ExpenseParticipant.mk "B" 30.05 false;
        ExpenseParticipant.mk "C" 30.05 false];
     Expense.mk "e2" "g" 30.10 "B"
       [ExpenseParticipant.mk "B" 15.05 false;
        ExpenseParticipant.mk "C" 15.05 false]].

(* ================================================================== *)
(** ** [src/utils/calculations.ts] over binary64 *)
(* ================================================================== *)

(** The calculations once more, with a [number] as the binary64 value
    that it is at run time, NaN and the infinities included.  The
    operations are those of the machine; [Math.round] and [toFixed] are
    computed exactly from the value of their argument, as ECMAScript
    defines them.  This second embedding shows, on given inputs, where
    the program parts from the exact model above. *)
Module Binary64.
Import PrimFloat.
#[local] Set Warnings "-inexact-float".
Local Open Scope float_scope.

Definition number : Type := float.

(** An integer of magnitude below [2^53] as a number. *)
Definition of_Z (z : Z) : number :=
  match z with
  | Z0 => 0
  | Zpos p => FloatOps.SF2Prim (SpecFloat.S754_finite false p 0)
  | Zneg p => FloatOps.SF2Prim (SpecFloat.S754_finite true p 0)
  end.

Definition of_nat (n : nat) : number := of_Z (Z.of_nat n).

Definition Math_abs (x : number) : number := abs x.

(** [Math.min]: NaN if an argument is NaN, and [-0] counts as less than
    [+0]. *)
Definition Math_min (x y : number) : number :=
  if is_nan x || is_nan y then nan
  else if x <? y then x
  else if y <? x then y
  else if get_sign x then x else y.

(** [Math.round]: the integer nearest to [x], the larger one of two
    that are equally near; a result of zero has the sign of [x].  An
    [x] with a non-negative exponent is an integer already; otherwise
    [x] is [±m / 2^(-e)] and the result is [floor (x + 1/2)], computed
    over the integers. *)
Definition Math_round (x : number) : number :=
  match FloatOps.Prim2SF x with
  | SpecFloat.S754_finite s m e =>
      if (0 <=? e)%Z then x
      else
        let z := if s then Zneg m else Zpos m in
        let n := ((2 * z + 2 ^ (- e)) / 2 ^ (1 - e))%Z in
        if (n =? 0)%Z then (if s then neg_zero else 0) else of_Z n
  | _ => x
  end.

(** [x.toFixed(2)], for magnitudes below 1e21: the integer [n] for
    which [n / 100] is nearest to [|x|], the larger one of two. *)
Definition hundredths (m : positive) (e : Z) : Z :=
  if (0 <=? e)%Z then (100 * Zpos m * 2 ^ e)%Z
  else ((200 * Zpos m + 2 ^ (- e)) / 2 ^ (1 - e))%Z.

Definition toFixed2 (x : number) : string :=
  match FloatOps.Prim2SF x with
  | SpecFloat.S754_nan => "NaN"
  | SpecFloat.S754_infinity s => if s then "-Infinity" else "Infinity"
  | SpecFloat.S754_zero _ => "0.00"
  | SpecFloat.S754_finite s m e =>
      let n := hundredths m e in
      (if s then "-" else "")
        +:+ pretty (n / 100)%Z +:+ "." +:+ two_digits (n mod 100)%Z
  end.

Module ExpenseParticipant.
Record t : Type := mk { userId : string; amount : number; isPaid : bool }.
End ExpenseParticipant.

Module UserBalance.
Record t : Type := mk {
  userId : string;
  groupId : string;
  totalOwed : number;
  totalLent : number;
  netBalance : number }.
End UserBalance.

Module Settlement.
Record t : Type := mk {
  id : string;
  fromUserId : string;
  toUserId : string;
  amount : number;
  groupId : string;
  expenseIds : list string;
  isPaid : bool;
  createdAt : Z }.
End Settlement.

Definition roundToTwoDecimals (num : number) : number :=
  Math_round (num * 100) / 100.

(** [participants.reduce((acc, p) => acc + p.amount, 0)] *)
Definition sum_amounts (participants : list ExpenseParticipant.t) : number :=
  fold_left (fun acc p => acc + ExpenseParticipant.amount p) participants 0.

Fixpoint equalSplit_while (remaining : nat) (i : nat) (totalAmount : number)
    (participants : list ExpenseParticipant.t) (diff : number)
    : result (list ExpenseParticipant.t) :=
  match remaining with
  | O => Ok participants
  | S remaining' =>
      if 0.009 <? Math_abs diff then
        match participants !! i with
        | None => Throw TypeError
        | Some p =>
            let p' := ExpenseParticipant.mk
                        (ExpenseParticipant.userId p)
                        (Math_round ((ExpenseParticipant.amount p + diff) * 100) / 100)
                        (ExpenseParticipant.isPaid p) in
            let participants' := <[i := p']> participants in
            let sum := sum_amounts participants' in
            let diff' := Math_round ((totalAmount - sum) * 100) / 100 in
            equalSplit_while remaining' (S i) totalAmount participants' diff'
        end
      else Ok participants
  end.

Definition calculateEqualSplit (totalAmount : number) (participantIds : list string)
    : result (list ExpenseParticipant.t) :=
  let n := length participantIds in
  if (n =? 0)%nat then Ok [] else
  let rawPerPerson := totalAmount / of_nat n in
  let roundedPerPerson := Math_round (rawPerPerson * 100) / 100 in
  let participants :=
    map (fun userId => ExpenseParticipant.mk userId roundedPerPerson false)
        participantIds in
  let sum := sum_amounts participants in
  let diff := Math_round ((totalAmount - sum) * 100) / 100 in
  equalSplit_while n 0%nat totalAmount participants diff.

Definition calculateCustomSplit (totalAmount : number)
    (customAmounts : list (string * number))
    : result (list ExpenseParticipant.t) :=
  let totalCustomAmount :=
    fold_left (fun sum item => sum + snd item) customAmounts 0 in
  if 0.01 <? Math_abs (totalCustomAmount - totalAmount) then
    Throw "Custom split amounts do not match total amount"
  else
    Ok (map (fun item => ExpenseParticipant.mk (fst item) (snd item) false)
            customAmounts).

Definition calculatePercentageSplit (totalAmount : number)
    (percentages : list (string * number))
    : result (list ExpenseParticipant.t) :=
  let totalPercentage :=
    fold_left (fun sum item => sum + snd item) percentages 0 in
  if 0.01 <? Math_abs (totalPercentage - 100) then
    Throw "Percentages do not add up to 100%"
  else
    Ok (map (fun item =>
               ExpenseParticipant.mk (fst item)
                 (Math_round ((totalAmount * snd item / 100) * 100) / 100)
                 false)
            percentages).

Definition validateExpenseParticipants (totalAmount : number)
    (participants : list ExpenseParticipant.t) : Validation.t :=
  if (length participants =? 0)%nat then
    Validation.mk false (Some "At least one participant is required")
  else
    let totalParticipantAmount := sum_amounts participants in
    let difference := Math_abs (totalAmount - totalParticipantAmount) in
    if 0.01 <? difference then
      Validation.mk false
        (Some ("Participant amounts (₹" +:+ toFixed2 totalParticipantAmount
               +:+ ") do not match total amount (₹" +:+ toFixed2 totalAmount
               +:+ ")"))
    else
      let negativeAmounts :=
        List.filter (fun p => ExpenseParticipant.amount p <? 0) participants in
      if (0 <? length negativeAmounts)%nat then
        Validation.mk false (Some "Participant amounts cannot be negative")
      else Validation.mk true None.

(** [Array.prototype.sort(compareFn)], as in the exact model; a
    [compareFn] that returns NaN counts as returning zero. *)
Fixpoint sort_insert {A : Type} (compareFn : A -> A -> number) (x : A) (l : list A)
    : list A :=
  match l with
  | [] => [x]
  | y :: l' =>
      if 0 <? compareFn x y then y :: sort_insert compareFn x l' else x :: l
  end.

Definition Array_sort {A : Type} (compareFn : A -> A -> number) (l : list A) : list A :=
  fold_right (sort_insert compareFn) [] l.

Definition set_netBalance (b : UserBalance.t) (v : number) : UserBalance.t :=
  UserBalance.mk (UserBalance.userId b) (UserBalance.groupId b)
                 (UserBalance.totalOwed b) (UserBalance.totalLent b) v.

Record LoopState : Type := mkLoop {
  leftIndex : Z;
  rightIndex : Z;
  workingBalances : list UserBalance.t;
  settlements : list Settlement.t;
  ticks : nat }.

(** One pass through the body of [while (leftIndex < rightIndex)]. *)
Definition loop_body (clock : nat -> Z) (st : LoopState) : result LoopState :=
  let left := leftIndex st in
  let right := rightIndex st in
  let wb := workingBalances st in
  match at_index wb left with
  | None => Throw TypeError
  | Some lender =>
  if Math_abs (UserBalance.netBalance lender) <? 0.01 then
    Ok (mkLoop (left + 1) right wb (settlements st) (ticks st))
  else
  match at_index wb right with
  | None => Throw TypeError
  | Some debtor =>
  if Math_abs (UserBalance.netBalance debtor) <? 0.01 then
    Ok (mkLoop left (right - 1) wb (settlements st) (ticks st))
  else if UserBalance.netBalance lender <=? 0 then
    Ok (mkLoop (left + 1) right wb (settlements st) (ticks st))
  else if 0 <=? UserBalance.netBalance debtor then
    Ok (mkLoop left (right - 1) wb (settlements st) (ticks st))
  else
    let settlementAmount :=
      Math_min (UserBalance.netBalance lender)
               (Math_abs (UserBalance.netBalance debtor)) in
    let emit := 0.01 <? settlementAmount in
    let settlements' :=
      if emit then
        settlements st ++
          [Settlement.mk
             (pretty (clock (ticks st)) +:+ "_" +:+ pretty left
                +:+ "_" +:+ pretty right)
             (UserBalance.userId debtor)
             (UserBalance.userId lender)
             (Math_round (settlementAmount * 100) / 100)
             (UserBalance.groupId lender)
             []
             false
             (clock (S (ticks st)))]
      else settlements st in
    let lender' :=
      if emit then
        set_netBalance lender (UserBalance.netBalance lender - settlementAmount)
      else lender in
    let debtor' :=
      if emit then
        set_netBalance debtor (UserBalance.netBalance debtor + settlementAmount)
      else debtor in
    let wb' :=
      if emit then
        <[Z.to_nat right := debtor']> (<[Z.to_nat left := lender']> wb)
      else wb in
    let ticks' := if emit then S (S (ticks st)) else ticks st in
    let left' :=
      if Math_abs (UserBalance.netBalance lender') <? 0.01
      then (left + 1)%Z else left in
    let right' :=
      if Math_abs (UserBalance.netBalance debtor') <? 0.01
      then (right - 1)%Z else right in
    Ok (mkLoop left' right' wb' settlements' ticks')
  end
  end.

Fixpoint while_loop (clock : nat -> Z) (fuel : nat) (st : LoopState)
    : option (result (list Settlement.t)) :=
  match fuel with
  | O => None
  | S fuel' =>
      if (leftIndex st <? rightIndex st)%Z then
        match loop_body clock st with
        | Ok st' => while_loop clock fuel' st'
        | Throw message => Some (Throw message)
        end
      else Some (Ok (settlements st))
  end.

Definition initial_state (balances : list UserBalance.t) : LoopState :=
  let workingBalances :=
    map (fun b => UserBalance.mk (UserBalance.userId b) (UserBalance.groupId b)
                    (UserBalance.totalOwed b) (UserBalance.totalLent b)
                    (UserBalance.netBalance b)) balances in
  let sorted :=
    Array_sort (fun a b => UserBalance.netBalance b - UserBalance.netBalance a)
               workingBalances in
  mkLoop 0 (Z.of_nat (length sorted) - 1) sorted [] 0.

Definition optimizeSettlements (clock : nat -> Z) (fuel : nat)
    (balances : list UserBalance.t) : option (result (list Settlement.t)) :=
  while_loop clock fuel (initial_state balances).

(** Balances with only the net amount filled in. *)
Definition net (userId : string) (netBalance : number) : UserBalance.t :=
  UserBalance.mk userId "g" 0 0 netBalance.

End Binary64.
(* ================================================================== *)
(** ** Arithmetic of [number] *)
(* ================================================================== *)

Lemma add_eq (x y : number) : x +! y == x + y.
Proof. apply Qred_correct. Qed.

Lemma sub_eq (x y : number) : x -! y == x - y.
Proof. apply Qred_correct. Qed.

Lemma mul_eq (x y : number) : x *! y == x * y.
Proof. apply Qred_correct. Qed.

Lemma div_eq (x y : number) : x /! y == x / y.
Proof. apply Qred_correct. Qed.

Lemma abs_eq (x : number) : Math_abs x == Qabs x.
Proof. apply Qred_correct. Qed.

Lemma ltb_true (x y : number) : (x <! y) = true <-> x < y.
Proof.
  unfold ltb. rewrite Qlt_alt. destruct (x ?= y); split; congruence.
Qed.

Lemma ltb_false (x y : number) : (x <! y) = false <-> y <= x.
Proof.
  split; intros H.
  - apply Qnot_lt_le. intros H'. apply ltb_true in H'. congruence.
  - destruct (x <! y) eqn:E; [|reflexivity].
    apply ltb_true in E. apply Qlt_not_le in E. contradiction.
Qed.

Lemma leb_true (x y : number) : (x <=! y) = true <-> x <= y.
Proof.
  unfold leb. rewrite Qle_alt. destruct (x ?= y); split; congruence.
Qed.

Lemma leb_false (x y : number) : (x <=! y) = false <-> y < x.
Proof.
  split; intros H.
  - apply Qnot_le_lt. intros H'. apply leb_true in H'. congruence.
  - destruct (x <=! y) eqn:E; [|reflexivity].
    apply leb_true in E. apply Qle_not_lt in E. contradiction.
Qed.

Lemma gtb_true (x y : number) : (x >! y) = true <-> y < x.
Proof. apply ltb_true. Qed.

Lemma gtb_false (x y : number) : (x >! y) = false <-> x <= y.
Proof. apply ltb_false. Qed.

Lemma geb_true (x y : number) : (x >=! y) = true <-> y <= x.
Proof. apply leb_true. Qed.

Lemma geb_false (x y : number) : (x >=! y) = false <-> x < y.
Proof. apply leb_false. Qed.

Lemma abs_small_iff (x : number) (e : Q) :
  (Math_abs x <! e) = true <-> Qabs x < e.
Proof. rewrite ltb_true, abs_eq. reflexivity. Qed.

Lemma abs_not_small_iff (x : number) (e : Q) :
  (Math_abs x <! e) = false <-> e <= Qabs x.
Proof. rewrite ltb_false, abs_eq. reflexivity. Qed.

(* ================================================================== *)
(** ** [calculateUserBalances]: unknown group *)
(* ================================================================== *)

Lemma find_group_none (groupId : string) (groups : list Group.t) :
  (forall g, In g groups -> Group.id g <> groupId) ->
  List.find (fun g => String.eqb (Group.id g) groupId) groups = None.
Proof.
  induction groups as [|g groups IH]; intros Hno; simpl; [reflexivity|].
  destruct (String.eqb_spec (Group.id g) groupId) as [Heq|_].
  - exfalso. apply (Hno g); [left; reflexivity | exact Heq].
  - apply IH. intros g' Hin. apply Hno. right. exact Hin.
Qed.

(** C10. When no group of the store has the given id,
    [calculateUserBalances] returns the empty list (and leaves the store
    as it was): it neither throws nor returns balances of another
    group. *)
Theorem calculateUserBalances_unknown_group
    (state : AppState.t) (groupId : string) :
  (forall g, In g (AppState.groups state) -> Group.id g <> groupId) ->
  calculateUserBalances groupId state = ([], state).
Proof.
  intros Hno. unfold calculateUserBalances, bind, get, ret.
  rewrite (find_group_none _ _ Hno). reflexivity.
Qed.

Lemma calculateUserBalances_unknown_group_witness :
  calculateUserBalances "trip"
    (AppState.mk
       [Group.mk "flat" [User.mk "A"; User.mk "B"]]
       [Expense.mk "e1" "trip" 300 "A" [ExpenseParticipant.mk "B" 300 false]])
  = ([], AppState.mk
       [Group.mk "flat" [User.mk "A"; User.mk "B"]]
       [Expense.mk "e1" "trip" 300 "A" [ExpenseParticipant.mk "B" 300 false]]).
Proof.
  apply calculateUserBalances_unknown_group.
  intros g [<-|[]]. simpl. discriminate.
Defined.

(* ================================================================== *)
(** ** The loop of [optimizeSettlements] *)
(* ================================================================== *)

Lemma at_index_Some {A : Type} (l : list A) (i : Z) (a : A) :
  at_index l i = Some a ->
  (0 <= i < Z.of_nat (length l))%Z /\ l !! Z.to_nat i = Some a.
Proof.
  unfold at_index. destruct (Z.ltb_spec i 0) as [|Hi]; [discriminate|].
  intros H. split; [|exact H]. apply lookup_lt_Some in H. lia.
Qed.

Lemma at_index_in_range {A : Type} (l : list A) (i : Z) :
  (0 <= i < Z.of_nat (length l))%Z -> exists a, at_index l i = Some a.
Proof.
  intros Hi. unfold at_index.
  destruct (Z.ltb_spec i 0) as [|_]; [lia|].
  destruct (lookup_lt_is_Some_2 l (Z.to_nat i)) as [a Ha]; [lia|].
  exists a. exact Ha.
Qed.

(** Every pass through the body is one of the four kinds of step. *)
Lemma loop_body_step (clock : nat -> Z) (st st' : LoopState) :
  loop_body clock st = Ok st' -> loop_step clock st st'.
Proof.
  unfold loop_body.
  destruct (at_index (workingBalances st) (leftIndex st)) as [lender|] eqn:Hl;
    [|discriminate].
  destruct (Math_abs (UserBalance.netBalance lender) <! 0.01) eqn:T1.
  { intros [= <-]. apply abs_small_iff in T1.
    apply (step_skip_lender clock st lender Hl). left. exact T1. }
  destruct (at_index (workingBalances st) (rightIndex st)) as [debtor|] eqn:Hr;
    [|discriminate].
  destruct (Math_abs (UserBalance.netBalance debtor) <! 0.01) eqn:T2.
  { intros [= <-]. apply abs_small_iff in T2.
    eapply step_skip_debtor; eauto. }
  destruct (UserBalance.netBalance lender <=! 0) eqn:T3.
  { intros [= <-]. apply leb_true in T3.
    apply (step_skip_lender clock st lender Hl). right. exact T3. }
  destruct (UserBalance.netBalance debtor >=! 0) eqn:T4.
  { intros [= <-]. apply geb_true in T4.
    eapply step_skip_debtor; eauto. }
  apply leb_false in T3. apply geb_false in T4.
  assert (Hl1 : 0.01 <= UserBalance.netBalance lender).
  { apply abs_not_small_iff in T1. rewrite Qabs_pos in T1; lra. }
  assert (Hd1 : UserBalance.netBalance debtor <= - 0.01).
  { apply abs_not_small_iff in T2. rewrite Qabs_neg in T2; lra. }
  assert (Habs : Math_abs (UserBalance.netBalance debtor)
                 == - UserBalance.netBalance debtor).
  { rewrite abs_eq. apply Qabs_neg. lra. }
  set (s := Math_min (UserBalance.netBalance lender)
                     (Math_abs (UserBalance.netBalance debtor))).
  assert (Hs : (s == UserBalance.netBalance lender
                /\ UserBalance.netBalance lender <= - UserBalance.netBalance debtor)
               \/ (s == - UserBalance.netBalance debtor
                   /\ - UserBalance.netBalance debtor <= UserBalance.netBalance lender)).
  { subst s. unfold Math_min.
    destruct (UserBalance.netBalance lender
              <=! Math_abs (UserBalance.netBalance debtor)) eqn:Hm.
    - apply leb_true in Hm. left. split; [reflexivity | lra].
    - apply leb_false in Hm. right. split; [exact Habs | lra]. }
  destruct (s >! 0.01) eqn:T5.
  - intros [= <-]. apply gtb_true in T5.
    eapply step_emit with (s := s); eauto.
  - rewrite T1, T2. intros [= <-]. apply gtb_false in T5.
    eapply step_idle; eauto.
    destruct Hs as [[Hs _]|[Hs _]]; [left | right]; lra.
Qed.

Lemma loop_step_in_range (clock : nat -> Z) (n : nat) (st st' : LoopState) :
  in_range n st -> loop_step clock st st' -> in_range n st'.
Proof.
  intros (Hl & Hr & Hn) Hstep. unfold in_range.
  destruct Hstep; simpl; try (repeat split; lia).
  rewrite !length_insert.
  repeat match goal with |- context [if ?c then _ else _] => destruct c end;
    repeat split; lia.
Qed.

(** Inside the array, the body does not throw. *)
Lemma loop_body_Ok (clock : nat -> Z) (n : nat) (st : LoopState) :
  in_range n st -> (leftIndex st < rightIndex st)%Z ->
  exists st', loop_body clock st = Ok st'.
Proof.
  intros (Hl & Hr & Hn) Hlt. unfold loop_body.
  destruct (at_index_in_range (workingBalances st) (leftIndex st)) as [lender ->];
    [lia|].
  destruct (at_index_in_range (workingBalances st) (rightIndex st)) as [debtor ->];
    [lia|].
  repeat match goal with
         | |- context [if ?c then Ok _ else _] => destruct c; [eexists; reflexivity|]
         end.
  eexists; reflexivity.
Qed.

(** A step that emits a settlement moves a pointer; no step moves a
    pointer backwards. *)
Lemma loop_step_measure (clock : nat -> Z) (st st' : LoopState) :
  (leftIndex st < rightIndex st)%Z ->
  loop_step clock st st' ->
  (Z.of_nat (length (settlements st')) + Z.max (rightIndex st' - leftIndex st') 0
   <= Z.of_nat (length (settlements st)) + Z.max (rightIndex st - leftIndex st) 0)%Z.
Proof.
  intros Hlt Hstep. destruct Hstep; simpl; try lia.
  rewrite length_app. simpl.
  match goal with H : _ \/ _ |- _ => destruct H as [[Hs Hle]|[Hs Hle]] end.
  - assert (T : (Math_abs (UserBalance.netBalance lender -! s) <! 0.01) = true).
    { apply abs_small_iff. rewrite sub_eq.
      assert (E : UserBalance.netBalance lender - s == 0) by lra.
      rewrite E. reflexivity. }
    rewrite T.
    destruct (Math_abs (UserBalance.netBalance debtor +! s) <! 0.01); lia.
  - assert (T : (Math_abs (UserBalance.netBalance debtor +! s) <! 0.01) = true).
    { apply abs_small_iff. rewrite add_eq.
      assert (E : UserBalance.netBalance debtor + s == 0) by lra.
      rewrite E. reflexivity. }
    rewrite T.
    destruct (Math_abs (UserBalance.netBalance lender -! s) <! 0.01); lia.
Qed.

(** Proof by invariant over the states of a run. *)
Lemma reachable_invariant (clock : nat -> Z) (P : LoopState -> Prop)
    (st0 st : LoopState) :
  P st0 ->
  (forall st1 st2,
      P st1 -> (leftIndex st1 < rightIndex st1)%Z ->
      loop_step clock st1 st2 -> P st2) ->
  reachable clock st0 st -> P st.
Proof.
  intros H0 Hstep Hreach. induction Hreach as [|st1 st2 _ IH Hlt Hbody].
  - exact H0.
  - apply (Hstep st1 st2 IH Hlt). apply loop_body_step. exact Hbody.
Qed.

Lemma reachable_front (clock : nat -> Z) (st0 st1 st2 : LoopState) :
  (leftIndex st0 < rightIndex st0)%Z ->
  loop_body clock st0 = Ok st1 ->
  reachable clock st1 st2 -> reachable clock st0 st2.
Proof.
  intros Hlt Hbody Hreach. induction Hreach as [|st st' _ IH Hlt' Hbody'].
  - eapply reach_next; [apply reach_start | exact Hlt | exact Hbody].
  - eapply reach_next; [exact IH | exact Hlt' | exact Hbody'].
Qed.

(** A run that returns has passed through a final state that holds the
    settlements it returns. *)
Lemma while_loop_returns (clock : nat -> Z) (fuel : nat) (st : LoopState)
    (r : list Settlement.t) :
  while_loop clock fuel st = Some (Ok r) ->
  exists st', reachable clock st st'
              /\ (rightIndex st' <= leftIndex st')%Z /\ settlements st' = r.
Proof.
  revert st. induction fuel as [|fuel IH]; intros st; simpl; [discriminate|].
  destruct (Z.ltb_spec (leftIndex st) (rightIndex st)) as [Hlt|Hge].
  - destruct (loop_body clock st) as [st1|] eqn:Hbody; [|discriminate].
    intros Hrun. destruct (IH _ Hrun) as (st' & Hreach & Hend & Hr).
    exists st'. split; [|split]; [|exact Hend | exact Hr].
    eapply reachable_front; eauto.
  - intros [= <-]. exists st. split; [apply reach_start | split; [lia | reflexivity]].
Qed.

Lemma length_sort_insert {A : Type} (compareFn : A -> A -> number) (x : A) (l : list A) :
  length (sort_insert compareFn x l) = S (length l).
Proof.
  induction l as [|y l IH]; simpl; [reflexivity|].
  destruct (compareFn x y >! 0); simpl; [rewrite IH|]; reflexivity.
Qed.

Lemma length_Array_sort {A : Type} (compareFn : A -> A -> number) (l : list A) :
  length (Array_sort compareFn l) = length l.
Proof.
  induction l as [|x l IH]; simpl; [reflexivity|].
  rewrite length_sort_insert, IH. reflexivity.
Qed.

Lemma initial_state_in_range (balances : list UserBalance.t) :
  in_range (length balances) (initial_state balances).
Proof.
  unfold in_range, initial_state. simpl.
  rewrite length_Array_sort, length_map. repeat split; lia.
Qed.

Lemma reachable_in_range (clock : nat -> Z) (balances : list UserBalance.t)
    (st : LoopState) :
  reachable clock (initial_state balances) st -> in_range (length balances) st.
Proof.
  apply (reachable_invariant clock (in_range (length balances))).
  - apply initial_state_in_range.
  - intros st1 st2 H1 _ Hstep. eapply loop_step_in_range; eauto.
Qed.

(** [optimizeSettlements] never reads outside the array: no run from its
    initial state ends in a [TypeError]. *)
Lemma while_loop_no_throw (clock : nat -> Z) (n fuel : nat) (st : LoopState)
    (message : string) :
  in_range n st -> while_loop clock fuel st <> Some (Throw message).
Proof.
  revert st. induction fuel as [|fuel IH]; intros st Hrange; simpl; [discriminate|].
  destruct (Z.ltb_spec (leftIndex st) (rightIndex st)) as [Hlt|Hge]; [|discriminate].
  destruct (loop_body_Ok clock n st Hrange Hlt) as [st' Hbody]. rewrite Hbody.
  apply IH. eapply loop_step_in_range; [exact Hrange|].
  apply loop_body_step. exact Hbody.
Qed.

Lemma optimizeSettlements_no_throw (clock : nat -> Z) (fuel : nat)
    (balances : list UserBalance.t) (message : string) :
  optimizeSettlements clock fuel balances <> Some (Throw message).
Proof.
  unfold optimizeSettlements.
  apply (while_loop_no_throw clock (length balances)).
  apply initial_state_in_range.
Qed.

(* ================================================================== *)
(** ** Number of settlements *)
(* ================================================================== *)





(* ================================================================== *)
(** ** Termination *)
(* ================================================================== *)

(** A state that the body maps to itself while the loop condition holds
    is never left. *)
Lemma while_loop_fixed_point (clock : nat -> Z) (st : LoopState) :
  (leftIndex st < rightIndex st)%Z ->
  loop_body clock st = Ok st ->
  forall fuel, while_loop clock fuel st = None.
Proof.
  intros Hlt Hbody fuel. induction fuel as [|fuel IH]; simpl; [reflexivity|].
  destruct (Z.ltb_spec (leftIndex st) (rightIndex st)) as [_|Hge]; [|lia].
  rewrite Hbody. exact IH.
Qed.

(** C1 (failing input). A creditor owed exactly 0.01 and a debtor owing
    exactly 0.01: neither balance is below the 0.01 skip threshold, the
    settlement amount 0.01 is not above the 0.01 emission threshold, so
    the body changes nothing and the loop never ends, whatever the fuel. *)
Theorem optimizeSettlements_one_cent_never_returns
    (clock : nat -> Z) (fuel : nat) :
  optimizeSettlements clock fuel
    [UserBalance.mk "A" "g" 0 0.01 0.01; UserBalance.mk "B" "g" 0.01 0 (-0.01)]
  = None.
Proof.
  unfold optimizeSettlements. apply while_loop_fixed_point.
  - simpl. lia.
  - reflexivity.
Qed.

(** The balances of that input are those of a group with a single
    expense of one cent. *)
Lemma one_cent_store_balances :
  fst (calculateUserBalances "g" one_cent_store)
  = [UserBalance.mk "A" "g" 0 0.01 0.01; UserBalance.mk "B" "g" 0.01 0 (-0.01)].
Proof. vm_compute. reflexivity. Qed.

(** Apart from such fixed points, the loop ends: with fuel for [n + 1]
    tests of its condition, a call on [n] balances either returns or has
    reached a state that the body leaves unchanged. *)
Lemma while_loop_returns_or_idles (clock : nat -> Z) (n fuel : nat) (st : LoopState) :
  in_range n st ->
  (Z.max (rightIndex st - leftIndex st) 0 < Z.of_nat fuel)%Z ->
  (exists r, while_loop clock fuel st = Some (Ok r))
  \/ (exists st', reachable clock st st'
                  /\ (leftIndex st' < rightIndex st')%Z
                  /\ loop_body clock st' = Ok st').
Proof.
  revert st. induction fuel as [|fuel IH]; intros st Hrange Hfuel; [lia|].
  simpl. destruct (Z.ltb_spec (leftIndex st) (rightIndex st)) as [Hlt|Hge].
  2:{ left. eexists. reflexivity. }
  destruct (loop_body_Ok clock n st Hrange Hlt) as [st1 Hbody]. rewrite Hbody.
  pose proof (loop_body_step clock st st1 Hbody) as Hstep.
  pose proof (loop_step_in_range clock n st st1 Hrange Hstep) as Hrange1.
  assert (Hcases : st1 = st
                   \/ (Z.max (rightIndex st1 - leftIndex st1) 0
                       < Z.max (rightIndex st - leftIndex st) 0)%Z).
  { pose proof (loop_step_measure clock st st1 Hlt Hstep) as Hm.
    destruct Hstep; simpl in *.
    - right. lia.
    - right. lia.
    - left. destruct st; reflexivity.
    - right. rewrite length_app in Hm. simpl in Hm. lia. }
  destruct Hcases as [->|Hdec].
  - right. exists st. split; [apply reach_start | split; [exact Hlt | exact Hbody]].
  - destruct (IH st1 Hrange1) as [Hret|(st' & Hreach & Hlt' & Hidle)]; [lia | left; exact Hret |].
    right. exists st'. split; [|split; assumption].
    eapply reachable_front; eauto.
Qed.

Lemma optimizeSettlements_returns_or_idles (clock : nat -> Z)
    (balances : list UserBalance.t) :
  (exists r, optimizeSettlements clock (S (length balances)) balances = Some (Ok r))
  \/ (exists st, reachable clock (initial_state balances) st
                 /\ (leftIndex st < rightIndex st)%Z
                 /\ loop_body clock st = Ok st).
Proof.
  unfold optimizeSettlements.
  apply (while_loop_returns_or_idles clock (length balances)).
  - apply initial_state_in_range.
  - unfold initial_state. simpl. rewrite length_Array_sort, length_map. lia.
Qed.

(* ================================================================== *)
(** ** Determinism *)
(* ================================================================== *)

Lemma loop_body_same_up_to_clock (clock1 clock2 : nat -> Z) (st1 st2 : LoopState) :
  same_up_to_clock st1 st2 ->
  match loop_body clock1 st1, loop_body clock2 st2 with
  | Ok st1', Ok st2' => same_up_to_clock st1' st2'
  | Throw m1, Throw m2 => m1 = m2
  | _, _ => False
  end.
Proof.
  destruct st1 as [l1 r1 wb1 S1 t1], st2 as [l2 r2 wb2 S2 t2].
  intros (Hl & Hr & Hwb & HS). simpl in *. subst l2 r2 wb2.
  unfold loop_body. simpl.
  destruct (at_index wb1 l1) as [lender|]; [|reflexivity].
  destruct (_ <! 0.01); [repeat split; assumption|].
  destruct (at_index wb1 r1) as [debtor|]; [|reflexivity].
  repeat match goal with
         | |- context [if ?c then Ok _ else _] =>
             destruct c; [repeat split; assumption|]
         end.
  destruct (_ >! 0.01); unfold same_up_to_clock; simpl;
    repeat split; try assumption.
  rewrite !map_app, HS. reflexivity.
Qed.

Lemma while_loop_same_up_to_clock (clock1 clock2 : nat -> Z) (fuel : nat)
    (st1 st2 : LoopState) :
  same_up_to_clock st1 st2 ->
  option_map (map_result (map clock_free)) (while_loop clock1 fuel st1)
  = option_map (map_result (map clock_free)) (while_loop clock2 fuel st2).
Proof.
  revert st1 st2. induction fuel as [|fuel IH]; intros st1 st2 Hsim; simpl;
    [reflexivity|].
  pose proof (loop_body_same_up_to_clock clock1 clock2 st1 st2 Hsim) as Hbody.
  destruct Hsim as (Hl & Hr & Hwb & HS). rewrite Hl, Hr.
  destruct (leftIndex st2 <? rightIndex st2)%Z; simpl; [|rewrite HS; reflexivity].
  destruct (loop_body clock1 st1) as [st1'|m1], (loop_body clock2 st2) as [st2'|m2];
    try contradiction; [apply IH; exact Hbody | simpl; rewrite Hbody; reflexivity].
Qed.

(** [calculateUserBalances] only reads the store. *)
Lemma calculateUserBalances_reads_only (groupId : string) (state : AppState.t) :
  snd (calculateUserBalances groupId state) = state.
Proof.
  unfold calculateUserBalances, bind, get, ret.
  destruct (List.find _ _); reflexivity.
Qed.

(** C9 (as amended). Two calls of [calculateUserBalances] in a row, for
    the same group, return the same balances and leave the store as it
    was.  Two calls of [optimizeSettlements] on the same balances, at
    whatever times, agree on whether they return and on every field of
    every settlement other than [id] and [createdAt], which are read
    from the clock. *)
Theorem balances_and_settlements_deterministic :
  (forall groupId state,
      (let* first := calculateUserBalances groupId in
       let* second := calculateUserBalances groupId in
       ret (first, second)) state
      = ((fst (calculateUserBalances groupId state),
          fst (calculateUserBalances groupId state)), state))
  /\ (forall clock1 clock2 fuel balances,
         option_map (map_result (map clock_free))
                    (optimizeSettlements clock1 fuel balances)
         = option_map (map_result (map clock_free))
                      (optimizeSettlements clock2 fuel balances)).
Proof.
  split.
  - intros groupId state. unfold bind.
    pose proof (calculateUserBalances_reads_only groupId state) as Hsame.
    destruct (calculateUserBalances groupId state) as [first state'] eqn:E1.
    simpl in Hsame. subst state'. rewrite E1. reflexivity.
  - intros clock1 clock2 fuel balances. unfold optimizeSettlements.
    apply while_loop_same_up_to_clock. repeat split.
Qed.

(** C9 (as stated) fails for [optimizeSettlements]: the same balances,
    settled at two different times, give settlement lists that differ
    (in [id] and [createdAt]). *)
Lemma optimizeSettlements_depends_on_clock :
  optimizeSettlements (fun _ => 1700000000000%Z) 3
    [UserBalance.mk "A" "g" 0 10 10; UserBalance.mk "B" "g" 10 0 (-10)]
  <> optimizeSettlements (fun _ => 1700000000001%Z) 3
       [UserBalance.mk "A" "g" 0 10 10; UserBalance.mk "B" "g" 10 0 (-10)].
Proof.
  vm_compute. discriminate.
Qed.

(* ================================================================== *)
(** ** The split operations *)
(* ================================================================== *)

Lemma fold_add_total {A : Type} (f : A -> number) (l : list A) (acc : number) :
  fold_left (fun sum item => sum +! f item) l acc == acc + total f l.
Proof.
  revert acc. induction l as [|a l IH]; intros acc; simpl.
  - lra.
  - rewrite IH, add_eq. lra.
Qed.

Lemma sum_amounts_total (participants : list ExpenseParticipant.t) :
  sum_amounts participants == total ExpenseParticipant.amount participants.
Proof.
  unfold sum_amounts. rewrite fold_add_total. lra.
Qed.



Lemma calculateCustomSplit_accepts (totalAmount : number)
    (customAmounts : list (string * number)) :
  Qabs (total snd customAmounts - totalAmount) <= 0.01 ->
  calculateCustomSplit totalAmount customAmounts
  = Ok (map (fun item => ExpenseParticipant.mk (fst item) (snd item) false)
            customAmounts).
Proof.
  intros Hsum. unfold calculateCustomSplit.
  destruct (_ >! 0.01) eqn:T; [|reflexivity].
  apply gtb_true in T. rewrite abs_eq, sub_eq, fold_add_total in T.
  assert (E : 0 + total snd customAmounts - totalAmount
              == total snd customAmounts - totalAmount) by lra.
  rewrite E in T. lra.
Qed.

Lemma calculateCustomSplit_rejects (totalAmount : number)
    (customAmounts : list (string * number)) :
  0.01 < Qabs (total snd customAmounts - totalAmount) ->
  calculateCustomSplit totalAmount customAmounts
  = Throw "Custom split amounts do not match total amount".
Proof.
  intros Hsum. unfold calculateCustomSplit.
  destruct (_ >! 0.01) eqn:T; [reflexivity|].
  apply gtb_false in T. rewrite abs_eq, sub_eq, fold_add_total in T.
  assert (E : 0 + total snd customAmounts - totalAmount
              == total snd customAmounts - totalAmount) by lra.
  rewrite E in T. lra.
Qed.

Lemma calculatePercentageSplit_accepts (totalAmount : number)
    (percentages : list (string * number)) :
  Qabs (total snd percentages - 100) <= 0.01 ->
  calculatePercentageSplit totalAmount percentages
  = Ok (map (fun item =>
               ExpenseParticipant.mk (fst item)
                 (Math_round ((totalAmount *! snd item /! 100) *! 100) /! 100)
                 false)
            percentages).
Proof.
  intros Hsum. unfold calculatePercentageSplit.
  destruct (_ >! 0.01) eqn:T; [|reflexivity].
  apply gtb_true in T. rewrite abs_eq, sub_eq, fold_add_total in T.
  assert (E : 0 + total snd percentages - 100 == total snd percentages - 100) by lra.
  rewrite E in T. lra.
Qed.

Lemma calculatePercentageSplit_rejects (totalAmount : number)
    (percentages : list (string * number)) :
  0.01 < Qabs (total snd percentages - 100) ->
  calculatePercentageSplit totalAmount percentages
  = Throw "Percentages do not add up to 100%".
Proof.
  intros Hsum. unfold calculatePercentageSplit.
  destruct (_ >! 0.01) eqn:T; [reflexivity|].
  apply gtb_false in T. rewrite abs_eq, sub_eq, fold_add_total in T.
  assert (E : 0 + total snd percentages - 100 == total snd percentages - 100) by lra.
  rewrite E in T. lra.
Qed.



(** C6 (as amended). For an empty participant list [calculateEqualSplit]
    returns the empty list of shares, whatever the total; it does not
    fail. *)
Theorem calculateEqualSplit_empty (totalAmount : number) :
  calculateEqualSplit totalAmount [] = Ok [].
Proof. reflexivity. Qed.

(** C6 (as stated) fails: the call on an empty participant list does
    not end in an error. *)
Lemma calculateEqualSplit_empty_is_no_error :
  ~ (exists message, calculateEqualSplit 100 [] = Throw message).
Proof. intros [message H]. discriminate H. Qed.




(** C8 (as amended). For amounts that are numbers: when the amounts sum
    to the total within 0.0099, [calculateCustomSplit] returns them as
    given, and when the sum is off by 0.0101 or more it throws the fixed
    message "Custom split amounts do not match total amount"; when the
    percentages sum to 100 within 0.0099, [calculatePercentageSplit]
    returns one share per entry, and when the sum is off by 0.0101 or
    more it throws the fixed message "Percentages do not add up to
    100%".  Between the two margins lies the boundary of 0.01, where the
    outcome hangs on how the sum is rounded. *)
Theorem custom_and_percentage_boundary :
  (forall totalAmount customAmounts,
      (Qabs (total snd customAmounts - totalAmount) <= 0.0099 ->
       calculateCustomSplit totalAmount customAmounts
       = Ok (map (fun item => ExpenseParticipant.mk (fst item) (snd item) false)
                 customAmounts))
      /\ (0.0101 <= Qabs (total snd customAmounts - totalAmount) ->
          calculateCustomSplit totalAmount customAmounts
          = Throw "Custom split amounts do not match total amount"))
  /\ (forall totalAmount percentages,
         (Qabs (total snd percentages - 100) <= 0.0099 ->
          exists shares,
            calculatePercentageSplit totalAmount percentages = Ok shares
            /\ map ExpenseParticipant.userId shares = map fst percentages)
         /\ (0.0101 <= Qabs (total snd percentages - 100) ->
             calculatePercentageSplit totalAmount percentages
             = Throw "Percentages do not add up to 100%")).
Proof.
  split; intros totalAmount entries; split.
  - intros H. apply calculateCustomSplit_accepts. lra.
  - intros H. apply calculateCustomSplit_rejects. lra.
  - intros H. eexists. split.
    + apply calculatePercentageSplit_accepts. lra.
    + rewrite map_map. reflexivity.
  - intros H. apply calculatePercentageSplit_rejects. lra.
Qed.

Lemma custom_and_percentage_boundary_witness :
  calculateCustomSplit 100 [("A", 60); ("B", 40)]
  = Ok [ExpenseParticipant.mk "A" 60 false; ExpenseParticipant.mk "B" 40 false]
  /\ calculateCustomSplit 100 [("A", 50); ("B", 49.98)]
     = Throw "Custom split amounts do not match total amount"
  /\ (exists shares,
         calculatePercentageSplit 200 [("A", 50); ("B", 50)] = Ok shares
         /\ map ExpenseParticipant.userId shares = ["A"; "B"])
  /\ calculatePercentageSplit 200 [("A", 50); ("B", 49.98)]
     = Throw "Percentages do not add up to 100%".
Proof.
  destruct custom_and_percentage_boundary as (Hcustom & Hpercent).
  split; [|split; [|split]].
  - apply (proj1 (Hcustom 100 [("A", 60); ("B", 40)])). vm_compute. discriminate.
  - apply (proj2 (Hcustom 100 [("A", 50); ("B", 49.98)])). vm_compute. discriminate.
  - apply (proj1 (Hpercent 200 [("A", 50); ("B", 50)])). vm_compute. discriminate.
  - apply (proj2 (Hpercent 200 [("A", 50); ("B", 49.98)])). vm_compute. discriminate.
Defined.

(** C8 (as stated) fails in one detail: the error of
    [calculateCustomSplit] names neither sum. *)
Lemma calculateCustomSplit_error_names_no_sum :
  exists message,
    calculateCustomSplit 100 [("A", 50); ("B", 49.98)] = Throw message
    /\ names message 99.98 = false
    /\ names message 100 = false.
Proof. eexists. repeat split. Qed.

(* ================================================================== *)
(** ** Whole cents *)
(* ================================================================== *)

Lemma is_cents_iff (x : Q) : is_cents x <-> exists z : Z, x * 100 == inject_Z z.
Proof.
  unfold is_cents. split.
  - intros H. exists (Qfloor (x * 100)). symmetry. exact H.
  - intros [z Hz]. rewrite (Qfloor_comp _ _ Hz), Qfloor_Z. symmetry. exact Hz.
Qed.

Lemma is_cents_eq (x y : Q) : x == y -> is_cents x -> is_cents y.
Proof.
  rewrite !is_cents_iff. intros E [z Hz]. exists z. rewrite <- E. exact Hz.
Qed.

Lemma is_cents_sub (x y : Q) : is_cents x -> is_cents y -> is_cents (x - y).
Proof.
  rewrite !is_cents_iff. intros [a Ha] [b Hb]. exists (a - b)%Z.
  unfold Zminus. rewrite inject_Z_plus, inject_Z_opp, <- Ha, <- Hb. lra.
Qed.

Lemma is_cents_add (x y : Q) : is_cents x -> is_cents y -> is_cents (x + y).
Proof.
  rewrite !is_cents_iff. intros [a Ha] [b Hb]. exists (a + b)%Z.
  rewrite inject_Z_plus, <- Ha, <- Hb. lra.
Qed.

Lemma is_cents_opp (x : Q) : is_cents x -> is_cents (- x).
Proof.
  rewrite !is_cents_iff. intros [a Ha]. exists (- a)%Z.
  rewrite inject_Z_opp, <- Ha. lra.
Qed.

(** A whole number of cents strictly between -0.01 and 0.01 is zero. *)
Lemma is_cents_small (x : Q) : is_cents x -> Qabs x < 0.01 -> x == 0.
Proof.
  rewrite is_cents_iff. intros [z Hz] Hsmall.
  apply Qabs_Qlt_condition in Hsmall. destruct Hsmall as [Hlo Hhi].
  assert (Hz0 : z = 0%Z).
  { assert (H1 : inject_Z (-1) < inject_Z z).
    { rewrite <- Hz. change (inject_Z (-1)) with (- (1)). lra. }
    assert (H2 : inject_Z z < inject_Z 1).
    { rewrite <- Hz. change (inject_Z 1) with 1. lra. }
    rewrite <- Zlt_Qlt in H1, H2. lia. }
  subst z. change (inject_Z 0) with 0 in Hz. lra.
Qed.

Lemma Qfloor_half (z : Z) : Qfloor (inject_Z z + (1 # 2)) = z.
Proof.
  pose proof (Qfloor_le (inject_Z z + (1 # 2))) as Hle.
  pose proof (Qlt_floor (inject_Z z + (1 # 2))) as Hlt.
  set (f := Qfloor (inject_Z z + (1 # 2))) in *.
  assert (H1 : inject_Z f < inject_Z (z + 1)).
  { rewrite inject_Z_plus. change (inject_Z 1) with 1. lra. }
  assert (H2 : inject_Z z < inject_Z (f + 1)).
  { rewrite inject_Z_plus in *. change (inject_Z 1) with 1 in *. lra. }
  rewrite <- Zlt_Qlt in H1, H2. lia.
Qed.

(** Rounding to two decimals leaves whole cents as they are. *)
Lemma round_cents (x : number) :
  is_cents x -> Math_round (x *! 100) /! 100 == x.
Proof.
  rewrite is_cents_iff. intros [z Hz]. rewrite div_eq. unfold Math_round.
  assert (E : x *! 100 + (1 # 2) == inject_Z z + (1 # 2)).
  { rewrite mul_eq, Hz. reflexivity. }
  rewrite (Qfloor_comp _ _ E), Qfloor_half, <- Hz. field.
Qed.

(* ================================================================== *)
(** ** Sums over lists *)
(* ================================================================== *)

Lemma total_app {A : Type} (f : A -> Q) (l1 l2 : list A) :
  total f (l1 ++ l2) == total f l1 + total f l2.
Proof.
  induction l1 as [|a l1 IH]; simpl; [lra | rewrite IH; lra].
Qed.

Lemma total_insert {A : Type} (f : A -> Q) (l : list A) (i : nat) (a b : A) :
  l !! i = Some a -> total f (<[i := b]> l) == total f l - f a + f b.
Proof.
  revert i. induction l as [|x l IH]; intros [|i] H; simpl in *; try discriminate.
  - injection H as ->. lra.
  - rewrite (IH i H). lra.
Qed.

Lemma total_ext {A : Type} (f g : A -> Q) (l : list A) :
  (forall a, f a == g a) -> total f l == total g l.
Proof.
  intros E. induction l as [|a l IH]; simpl; [reflexivity | rewrite IH, E; reflexivity].
Qed.

Lemma total_map {A B : Type} (f : B -> Q) (g : A -> B) (l : list A) :
  total f (map g l) = total (fun a => f (g a)) l.
Proof.
  induction l as [|a l IH]; simpl; [reflexivity | rewrite IH; reflexivity].
Qed.

Lemma total_Permutation {A : Type} (f : A -> Q) (l1 l2 : list A) :
  Permutation l1 l2 -> total f l1 == total f l2.
Proof.
  induction 1 as [|a l1 l2 _ IH|a b l|l1 l2 l3 _ IH1 _ IH2]; simpl.
  - reflexivity.
  - rewrite IH. reflexivity.
  - lra.
  - rewrite IH1. exact IH2.
Qed.

Lemma total_nonneg {A : Type} (f : A -> Q) (l : list A) :
  (forall a, 0 <= f a) -> 0 <= total f l.
Proof.
  intros Hf. induction l as [|a l IH]; simpl; [lra | pose proof (Hf a); lra].
Qed.

(** A sum of non-negative terms is zero, or one of the terms is
    positive. *)
Lemma total_zero_or_positive {A : Type} (f : A -> Q) (l : list A) :
  (forall a, 0 <= f a) ->
  total f l == 0 \/ exists i a, l !! i = Some a /\ 0 < f a.
Proof.
  intros Hf. induction l as [|x l IH]; simpl.
  - left. reflexivity.
  - destruct (Qlt_le_dec 0 (f x)) as [Hpos|Hle].
    + right. exists 0%nat, x. split; [reflexivity | exact Hpos].
    + destruct IH as [Hz|(i & a & Hi & Ha)].
      * left. pose proof (Hf x). lra.
      * right. exists (S i), a. split; [exact Hi | exact Ha].
Qed.

Lemma positive_part_nonneg (x : Q) : 0 <= positive_part x.
Proof.
  unfold positive_part. destruct (0 <! x) eqn:T; [|lra].
  apply ltb_true in T. lra.
Qed.

Lemma positive_part_of_nonneg (x : Q) : 0 <= x -> positive_part x == x.
Proof.
  intros Hx. unfold positive_part. destruct (0 <! x) eqn:T; [reflexivity|].
  apply ltb_false in T. lra.
Qed.

Lemma positive_part_of_nonpos (x : Q) : x <= 0 -> positive_part x == 0.
Proof.
  intros Hx. unfold positive_part. destruct (0 <! x) eqn:T; [|reflexivity].
  apply ltb_true in T. lra.
Qed.

Lemma positive_part_positive (x : Q) : 0 < positive_part x -> 0 < x.
Proof.
  unfold positive_part. destruct (0 <! x) eqn:T; [|lra].
  intros _. apply ltb_true in T. exact T.
Qed.

(* ================================================================== *)
(** ** The sort *)
(* ================================================================== *)

Lemma sort_insert_Permutation {A : Type} (compareFn : A -> A -> number)
    (x : A) (l : list A) :
  Permutation (x :: l) (sort_insert compareFn x l).
Proof.
  induction l as [|y l IH]; simpl; [reflexivity|].
  destruct (compareFn x y >! 0); [|reflexivity].
  rewrite perm_swap. apply perm_skip. exact IH.
Qed.

Lemma Array_sort_Permutation {A : Type} (compareFn : A -> A -> number) (l : list A) :
  Permutation l (Array_sort compareFn l).
Proof.
  induction l as [|x l IH]; simpl; [reflexivity|].
  rewrite <- sort_insert_Permutation. apply perm_skip. exact IH.
Qed.

(** With the comparison of [optimizeSettlements] the result is in
    descending order of net balance. *)
Lemma sort_insert_descending (x : UserBalance.t) (l : list UserBalance.t) :
  StronglySorted (fun a b => UserBalance.netBalance b <= UserBalance.netBalance a) l ->
  StronglySorted (fun a b => UserBalance.netBalance b <= UserBalance.netBalance a)
    (sort_insert (fun a b => UserBalance.netBalance b -! UserBalance.netBalance a) x l).
Proof.
  induction 1 as [|y l Hsorted IH Hall]; simpl.
  - repeat constructor.
  - destruct (_ >! 0) eqn:T.
    + apply gtb_true in T. rewrite sub_eq in T.
      constructor; [exact IH|].
      rewrite <- (sort_insert_Permutation _ x l).
      constructor; [lra | exact Hall].
    + apply gtb_false in T. rewrite sub_eq in T.
      constructor; [constructor; assumption|].
      constructor; [lra|].
      eapply Forall_impl; [exact Hall|]. simpl. intros z Hz. lra.
Qed.

Lemma Array_sort_descending (l : list UserBalance.t) :
  StronglySorted (fun a b => UserBalance.netBalance b <= UserBalance.netBalance a)
    (Array_sort (fun a b => UserBalance.netBalance b -! UserBalance.netBalance a) l).
Proof.
  induction l as [|x l IH]; simpl; [constructor|].
  apply sort_insert_descending. exact IH.
Qed.

Lemma descending_no_inversion (l : list UserBalance.t) :
  StronglySorted (fun a b => UserBalance.netBalance b <= UserBalance.netBalance a) l ->
  no_inversion l.
Proof.
  induction 1 as [|x l _ IH Hall]; intros i j a b Hi Hj Hlt Ha Hb.
  - discriminate.
  - destruct j as [|j]; [lia|]. simpl in Hj. destruct i as [|i]; simpl in Hi.
    + injection Hi as ->.
      rewrite List.Forall_forall in Hall.
      apply list_elem_of_lookup_2, list_elem_of_In in Hj.
      specialize (Hall b Hj). simpl in Hall. lra.
    + apply (IH i j a b Hi Hj); [lia | exact Ha | exact Hb].
Qed.

(* ================================================================== *)
(** ** Settlement volume *)
(* ================================================================== *)

(** What an emitted amount does to the two balances it is taken from. *)
Lemma emit_arithmetic (l d : Q) (s : number) :
  0 < l -> d < 0 ->
  (s == l /\ l <= - d) \/ (s == - d /\ - d <= l) ->
  l -! s == l - s /\ d +! s == d + s /\ 0 <= l - s /\ d + s <= 0.
Proof.
  intros Hl Hd Hs. rewrite sub_eq, add_eq.
  repeat split; try reflexivity; destruct Hs as [[Hs Hle]|[Hs Hle]]; lra.
Qed.

Lemma loop_step_settling (clock : nat -> Z) (P0 N0 : Q) (st st' : LoopState) :
  (leftIndex st < rightIndex st)%Z ->
  settling P0 N0 st -> loop_step clock st st' -> settling P0 N0 st'.
Proof.
  intros Hlt [Hc Hl Hr Ho Hp Hn] Hstep.
  destruct Hstep as [lender HL Hskip
                    |lender debtor HL HR Hskip
                    |lender debtor HL HR _ _ _
                    |lender debtor s HL HR Hpos Hneg Hs01 Hs].
  - (* the lender is skipped *)
    apply at_index_Some in HL. destruct HL as [HLr HL].
    constructor; simpl; try assumption.
    intros i b Hi Hi1.
    destruct (Z.eq_dec (Z.of_nat i) (leftIndex st)) as [E|E].
    + assert (i = Z.to_nat (leftIndex st)) by lia. subst i.
      rewrite HL in Hi. injection Hi as <-.
      destruct Hskip as [Hsmall|Hle]; [|exact Hle].
      rewrite (is_cents_small _ (Forall_lookup_1 _ _ _ _ Hc HL) Hsmall). lra.
    + apply (Hl i b Hi). lia.
  - (* the debtor is skipped *)
    apply at_index_Some in HR. destruct HR as [HRr HR].
    constructor; simpl; try assumption.
    intros i b Hi Hi1.
    destruct (Z.eq_dec (Z.of_nat i) (rightIndex st)) as [E|E].
    + assert (i = Z.to_nat (rightIndex st)) by lia. subst i.
      rewrite HR in Hi. injection Hi as <-.
      destruct Hskip as [Hsmall|Hle]; [|exact Hle].
      rewrite (is_cents_small _ (Forall_lookup_1 _ _ _ _ Hc HR) Hsmall). lra.
    + apply (Hr i b Hi). lia.
  - (* nothing changes *)
    constructor; simpl; assumption.
  - (* a settlement is emitted *)
    apply at_index_Some in HL, HR.
    destruct HL as [HLr HL], HR as [HRr HR].
    set (L := Z.to_nat (leftIndex st)) in *.
    set (R := Z.to_nat (rightIndex st)) in *.
    assert (HLR : L <> R) by (subst L R; lia).
    pose proof (Forall_lookup_1 _ _ _ _ Hc HL) as Hcl. simpl in Hcl.
    pose proof (Forall_lookup_1 _ _ _ _ Hc HR) as Hcd. simpl in Hcd.
    destruct (emit_arithmetic _ _ s Hpos Hneg Hs) as (Els & Eds & Hls & Hds).
    assert (Hcs : is_cents s).
    { destruct Hs as [[Hs _]|[Hs _]].
      - apply (is_cents_eq (UserBalance.netBalance lender)); [symmetry|]; assumption.
      - apply (is_cents_eq (- UserBalance.netBalance debtor)); [symmetry; assumption|].
        apply is_cents_opp. assumption. }
    assert (Hcls : is_cents (UserBalance.netBalance lender -! s)).
    { eapply is_cents_eq; [symmetry; exact Els|]. apply is_cents_sub; assumption. }
    assert (Hcds : is_cents (UserBalance.netBalance debtor +! s)).
    { eapply is_cents_eq; [symmetry; exact Eds|]. apply is_cents_add; assumption. }
    assert (HR' : <[L := set_netBalance lender (UserBalance.netBalance lender -! s)]>
                    (workingBalances st) !! R = Some debtor).
    { rewrite list_lookup_insert_ne; assumption. }
    constructor; simpl.
    + apply Forall_insert; [apply Forall_insert|]; assumption.
    + intros i b Hi Hi1.
      apply list_lookup_insert_Some in Hi.
      destruct Hi as [(<- & <- & _)|(HiR & Hi)].
      { destruct (_ <! 0.01) in Hi1; subst R; lia. }
      apply list_lookup_insert_Some in Hi.
      destruct Hi as [(<- & <- & _)|(HiL & Hi)].
      * simpl. destruct (_ <! 0.01) eqn:T in Hi1; [|subst L; lia].
        apply abs_small_iff in T. rewrite (is_cents_small _ Hcls T). lra.
      * apply (Hl i b Hi). destruct (_ <! 0.01) in Hi1; subst L; lia.
    + intros i b Hi Hi1.
      apply list_lookup_insert_Some in Hi.
      destruct Hi as [(<- & <- & _)|(HiR & Hi)].
      { simpl. destruct (_ <! 0.01) eqn:T in Hi1; [|subst R; lia].
        apply abs_small_iff in T. rewrite (is_cents_small _ Hcds T). lra. }
      apply list_lookup_insert_Some in Hi.
      destruct Hi as [(<- & <- & _)|(HiL & Hi)].
      * destruct (_ <! 0.01) in Hi1; subst L; lia.
      * apply (Hr i b Hi). destruct (_ <! 0.01) in Hi1; subst R; lia.
    + intros i j a b Hi Hj Hij Ha Hb.
      assert (Hi0 : exists a0, workingBalances st !! i = Some a0
                               /\ UserBalance.netBalance a0 < 0).
      { apply list_lookup_insert_Some in Hi.
        destruct Hi as [(<- & <- & _)|(HiR & Hi)]; [exists debtor; split; assumption|].
        apply list_lookup_insert_Some in Hi.
        destruct Hi as [(<- & <- & _)|(HiL & Hi)]; [simpl in Ha; lra|].
        exists a. split; assumption. }
      assert (Hj0 : exists b0, workingBalances st !! j = Some b0
                               /\ 0 < UserBalance.netBalance b0).
      { apply list_lookup_insert_Some in Hj.
        destruct Hj as [(<- & <- & _)|(HjR & Hj)]; [simpl in Hb; lra|].
        apply list_lookup_insert_Some in Hj.
        destruct Hj as [(<- & <- & _)|(HjL & Hj)]; [exists lender; split; assumption|].
        exists b. split; assumption. }
      destruct Hi0 as (a0 & Hi0 & Ha0), Hj0 as (b0 & Hj0 & Hb0).
      exact (Ho i j a0 b0 Hi0 Hj0 Hij Ha0 Hb0).
    + unfold sum_positive in *.
      rewrite (total_insert _ _ R debtor _ HR'), (total_insert _ _ L lender _ HL).
      rewrite total_app. simpl.
      rewrite (round_cents s Hcs).
      rewrite (positive_part_of_nonneg (UserBalance.netBalance lender)) by lra.
      rewrite (positive_part_of_nonneg (UserBalance.netBalance lender -! s)) by lra.
      rewrite (positive_part_of_nonpos (UserBalance.netBalance debtor)) by lra.
      rewrite (positive_part_of_nonpos (UserBalance.netBalance debtor +! s)) by lra.
      rewrite Els. lra.
    + unfold sum_negative in *.
      rewrite (total_insert _ _ R debtor _ HR'), (total_insert _ _ L lender _ HL).
      rewrite total_app. simpl.
      rewrite (round_cents s Hcs).
      rewrite (positive_part_of_nonpos (- UserBalance.netBalance lender)) by lra.
      rewrite (positive_part_of_nonpos (- (UserBalance.netBalance lender -! s))) by lra.
      rewrite (positive_part_of_nonneg (- UserBalance.netBalance debtor)) by lra.
      rewrite (positive_part_of_nonneg (- (UserBalance.netBalance debtor +! s))) by lra.
      rewrite Eds. lra.
Qed.

Lemma sum_positive_sorted (balances : list UserBalance.t) :
  sum_positive (workingBalances (initial_state balances)) == sum_positive balances.
Proof.
  unfold initial_state, sum_positive. simpl.
  rewrite <- (total_Permutation _ _ _ (Array_sort_Permutation _ _)), total_map.
  reflexivity.
Qed.

Lemma sum_negative_sorted (balances : list UserBalance.t) :
  sum_negative (workingBalances (initial_state balances)) == sum_negative balances.
Proof.
  unfold initial_state, sum_negative. simpl.
  rewrite <- (total_Permutation _ _ _ (Array_sort_Permutation _ _)), total_map.
  reflexivity.
Qed.

Lemma initial_state_settling (balances : list UserBalance.t) :
  Forall (fun b => is_cents (UserBalance.netBalance b)) balances ->
  settling (sum_positive balances) (sum_negative balances) (initial_state balances).
Proof.
  intros Hc. constructor.
  - unfold initial_state. simpl.
    eapply Permutation_Forall; [apply Array_sort_Permutation|].
    apply Forall_map. exact Hc.
  - simpl. intros i b _ Hi. lia.
  - intros i b Hi Hi1. apply lookup_lt_Some in Hi.
    pose proof (initial_state_in_range balances) as (_ & _ & Hn).
    unfold initial_state in *. simpl in *.
    rewrite length_Array_sort, length_map in *. lia.
  - apply descending_no_inversion. apply Array_sort_descending.
  - rewrite sum_positive_sorted. simpl. lra.
  - rewrite sum_negative_sorted. simpl. lra.
Qed.

(** When the pointers have met, no creditor or no debtor is left. *)
Lemma settling_exit (P0 N0 : Q) (st : LoopState) :
  settling P0 N0 st ->
  (rightIndex st <= leftIndex st)%Z ->
  sum_positive (workingBalances st) == 0 \/ sum_negative (workingBalances st) == 0.
Proof.
  intros [_ Hl Hr Ho _ _] Hexit. unfold sum_positive, sum_negative.
  destruct (total_zero_or_positive
              (fun b => positive_part (UserBalance.netBalance b))
              (workingBalances st)) as [Hz|(p & bp & Hp & Hbp)];
    [intros; apply positive_part_nonneg | left; exact Hz |].
  destruct (total_zero_or_positive
              (fun b => positive_part (- UserBalance.netBalance b))
              (workingBalances st)) as [Hz|(q & bq & Hq & Hbq)];
    [intros; apply positive_part_nonneg | right; exact Hz |].
  exfalso. apply positive_part_positive in Hbp, Hbq.
  assert (Hp1 : (leftIndex st <= Z.of_nat p)%Z).
  { destruct (Z_lt_le_dec (Z.of_nat p) (leftIndex st)) as [Hlt|]; [|assumption].
    pose proof (Hl p bp Hp Hlt). lra. }
  assert (Hq1 : (Z.of_nat q <= rightIndex st)%Z).
  { destruct (Z_lt_le_dec (rightIndex st) (Z.of_nat q)) as [Hlt|]; [|assumption].
    pose proof (Hr q bq Hq Hlt). lra. }
  destruct (Nat.eq_dec q p) as [->|Hne].
  - rewrite Hp in Hq. injection Hq as <-. lra.
  - apply (Ho q p bq bp Hq Hp); [lia | lra | exact Hbp].
Qed.

Lemma reachable_settling (clock : nat -> Z) (balances : list UserBalance.t)
    (st : LoopState) :
  Forall (fun b => is_cents (UserBalance.netBalance b)) balances ->
  reachable clock (initial_state balances) st ->
  settling (sum_positive balances) (sum_negative balances) st.
Proof.
  intros Hc.
  apply (reachable_invariant clock
           (settling (sum_positive balances) (sum_negative balances))).
  - apply initial_state_settling. exact Hc.
  - intros st1 st2 H1 Hlt Hstep. eapply loop_step_settling; eauto.
Qed.

Lemma settled_volume (clock : nat -> Z) (fuel : nat) (balances : list UserBalance.t)
    (r : list Settlement.t) :
  Forall (fun b => is_cents (UserBalance.netBalance b)) balances ->
  optimizeSettlements clock fuel balances = Some (Ok r) ->
  total Settlement.amount r == Qmin (sum_positive balances) (sum_negative balances).
Proof.
  intros Hc Hrun. apply while_loop_returns in Hrun.
  destruct Hrun as (st & Hreach & Hexit & <-).
  pose proof (reachable_settling clock balances st Hc Hreach) as Hinv.
  pose proof (settling_exit _ _ st Hinv Hexit) as Hend.
  destruct Hinv as [_ _ _ _ Hp Hn].
  assert (0 <= sum_positive (workingBalances st))
    by (apply total_nonneg; intros; apply positive_part_nonneg).
  assert (0 <= sum_negative (workingBalances st))
    by (apply total_nonneg; intros; apply positive_part_nonneg).
  destruct (Q.min_spec (sum_positive balances) (sum_negative balances))
    as [[Hlt ->]|[Hle ->]]; destruct Hend; lra.
Qed.

Lemma positive_part_difference (x : Q) :
  positive_part x - positive_part (- x) == x.
Proof.
  destruct (Qlt_le_dec 0 x) as [Hx|Hx].
  - rewrite (positive_part_of_nonneg x), (positive_part_of_nonpos (- x)); lra.
  - rewrite (positive_part_of_nonpos x), (positive_part_of_nonneg (- x)); lra.
Qed.

Lemma sum_positive_minus_negative (balances : list UserBalance.t) :
  sum_positive balances - sum_negative balances
  == total UserBalance.netBalance balances.
Proof.
  unfold sum_positive, sum_negative.
  induction balances as [|b l IH]; simpl; [lra|].
  pose proof (positive_part_difference (UserBalance.netBalance b)). lra.
Qed.

(** Balances that are all strictly within 0.01 of zero are skipped one
    by one. *)
Lemma while_loop_all_small (clock : nat -> Z) (n fuel : nat) (st : LoopState) :
  in_range n st ->
  Forall (fun b => Qabs (UserBalance.netBalance b) < 0.01) (workingBalances st) ->
  (Z.max (rightIndex st - leftIndex st) 0 < Z.of_nat fuel)%Z ->
  while_loop clock fuel st = Some (Ok (settlements st)).
Proof.
  revert st. induction fuel as [|fuel IH]; intros st Hrange Hsmall Hfuel; [lia|].
  simpl. destruct (Z.ltb_spec (leftIndex st) (rightIndex st)) as [Hlt|Hge];
    [|reflexivity].
  destruct Hrange as (Hl & Hr & Hn). unfold loop_body.
  destruct (at_index_in_range (workingBalances st) (leftIndex st))
    as [lender HL]; [lia|].
  destruct (at_index_in_range (workingBalances st) (rightIndex st))
    as [debtor HR]; [lia|].
  rewrite HL, HR.
  apply at_index_Some in HL. destruct HL as [_ HL].
  pose proof (Forall_lookup_1 _ _ _ _ Hsmall HL) as Hs. simpl in Hs.
  apply abs_small_iff in Hs. rewrite Hs.
  rewrite IH; simpl; [reflexivity | repeat split; simpl; lia | exact Hsmall | lia].
Qed.

Lemma optimizeSettlements_all_small (clock : nat -> Z) (fuel : nat)
    (balances : list UserBalance.t) :
  Forall (fun b => Qabs (UserBalance.netBalance b) < 0.01) balances ->
  (length balances < fuel)%nat ->
  optimizeSettlements clock fuel balances = Some (Ok []).
Proof.
  intros Hsmall Hfuel. unfold optimizeSettlements.
  rewrite (while_loop_all_small clock (length balances)).
  - reflexivity.
  - apply initial_state_in_range.
  - unfold initial_state. simpl.
    eapply Permutation_Forall; [apply Array_sort_Permutation|].
    apply Forall_map. exact Hsmall.
  - unfold initial_state. simpl. rewrite length_Array_sort, length_map. lia.
Qed.

(** C4 (as stated) fails when the balances do not sum to zero: with a
    creditor owed 300 and two debtors owing 100 each (the balances of the
    store in which a payer's own share is marked paid), 200 is settled,
    not 300.  It also fails off whole cents, where the emitted amount is
    rounded: for 0.125 against -0.125 the settlement is 0.13. *)
Lemma settlement_volume_differs :
  (exists r,
      optimizeSettlements (fun k => 1000 + Z.of_nat k)%Z 4
        [UserBalance.mk "A" "g" 0 300 300;
         UserBalance.mk "B" "g" 100 0 (-100);
         UserBalance.mk "C" "g" 100 0 (-100)] = Some (Ok r)
      /\ total Settlement.amount r == 200
      /\ ~ (total Settlement.amount r
            == sum_positive [UserBalance.mk "A" "g" 0 300 300;
                             UserBalance.mk "B" "g" 100 0 (-100);
                             UserBalance.mk "C" "g" 100 0 (-100)]))
  /\ (exists r,
         optimizeSettlements (fun k => 1000 + Z.of_nat k)%Z 4
           [UserBalance.mk "A" "g" 0 0.125 0.125;
            UserBalance.mk "B" "g" 0.125 0 (-0.125)] = Some (Ok r)
         /\ total Settlement.amount r == 0.13
         /\ ~ (total Settlement.amount r
               == sum_positive [UserBalance.mk "A" "g" 0 0.125 0.125;
                                UserBalance.mk "B" "g" 0.125 0 (-0.125)])).
Proof.
  split; eexists; (split; [vm_compute; reflexivity|]);
    (split; [vm_compute; reflexivity|]); vm_compute; discriminate.
Qed.

(* ================================================================== *)
(** ** The balance map *)
(* ================================================================== *)

Lemma Map_get_set_same {V : Type} (k : string) (v : V) (m : JSMap V) :
  is_Some (Map_get k (Map_set k v m)).
Proof.
  induction m as [|[k' v'] m IH]; simpl.
  - rewrite String.eqb_refl. eexists; reflexivity.
  - destruct (String.eqb k' k) eqn:E; simpl; rewrite E; [eexists; reflexivity | exact IH].
Qed.

Lemma Map_get_set_keep {V : Type} (k k' : string) (v : V) (m : JSMap V) :
  is_Some (Map_get k' m) -> is_Some (Map_get k' (Map_set k v m)).
Proof.
  induction m as [|[k0 v0] m IH]; simpl.
  - intros [x Hx]. discriminate.
  - destruct (String.eqb k0 k) eqn:E; simpl.
    + destruct (String.eqb k0 k'); intros H; [eexists; reflexivity | exact H].
    + destruct (String.eqb k0 k'); intros H; [eexists; reflexivity | apply IH; exact H].
Qed.

Lemma Map_get_alter_keep {V : Type} (f : V -> V) (k k' : string) (m : JSMap V) :
  is_Some (Map_get k' m) -> is_Some (Map_get k' (Map_alter f k m)).
Proof.
  induction m as [|[k0 v0] m IH]; simpl; [auto|].
  destruct (String.eqb k0 k) eqn:E; simpl.
  - destruct (String.eqb k0 k'); intros H; [eexists; reflexivity | exact H].
  - destruct (String.eqb k0 k'); intros H; [eexists; reflexivity | apply IH; exact H].
Qed.

(** A write through a key that is present changes one entry: a sum over
    the values moves by what the write adds. *)
Lemma total_Map_alter {V : Type} (g : V -> Q) (f : V -> V) (delta : Q)
    (k : string) (m : JSMap V) :
  (forall v, g (f v) == g v + delta) ->
  is_Some (Map_get k m) ->
  total (fun kv => g (snd kv)) (Map_alter f k m)
  == total (fun kv => g (snd kv)) m + delta.
Proof.
  intros Hf. induction m as [|[k0 v0] m IH]; simpl.
  - intros [x Hx]. discriminate.
  - destruct (String.eqb k0 k); simpl; intros H.
    + rewrite Hf. lra.
    + rewrite (IH H). lra.
Qed.

Lemma init_balances_covers (groupId : string) (members : list User.t)
    (acc : JSMap UserBalance.t) (k : string) :
  is_Some (Map_get k acc) \/ In k (map User.id members) ->
  is_Some (Map_get k
             (fold_left
                (fun balanceMap member =>
                   Map_set (User.id member)
                     (UserBalance.mk (User.id member) groupId 0 0 0) balanceMap)
                members acc)).
Proof.
  revert acc. induction members as [|m members IH]; intros acc; simpl.
  - intros [H|[]]. exact H.
  - intros [H|[<-|H]]; apply IH.
    + left. apply Map_get_set_keep. exact H.
    + left. apply Map_get_set_same.
    + right. exact H.
Qed.

Lemma Map_set_zero (k : string) (v : UserBalance.t) (m : JSMap UserBalance.t) :
  UserBalance.totalLent v = 0 -> UserBalance.totalOwed v = 0 ->
  Forall (fun kv => UserBalance.totalLent (snd kv) = 0
                    /\ UserBalance.totalOwed (snd kv) = 0) m ->
  Forall (fun kv => UserBalance.totalLent (snd kv) = 0
                    /\ UserBalance.totalOwed (snd kv) = 0) (Map_set k v m).
Proof.
  intros Hl Ho. induction 1 as [|[k0 v0] m H0 Hm IH]; simpl.
  - repeat constructor; assumption.
  - destruct (String.eqb k0 k); constructor; try assumption. split; assumption.
Qed.

Lemma init_balances_zero (groupId : string) (members : list User.t)
    (acc : JSMap UserBalance.t) :
  Forall (fun kv => UserBalance.totalLent (snd kv) = 0
                    /\ UserBalance.totalOwed (snd kv) = 0) acc ->
  Forall (fun kv => UserBalance.totalLent (snd kv) = 0
                    /\ UserBalance.totalOwed (snd kv) = 0)
    (fold_left
       (fun balanceMap member =>
          Map_set (User.id member)
            (UserBalance.mk (User.id member) groupId 0 0 0) balanceMap)
       members acc).
Proof.
  revert acc. induction members as [|m members IH]; intros acc Hacc; simpl.
  - exact Hacc.
  - apply IH. apply Map_set_zero; [reflexivity | reflexivity | exact Hacc].
Qed.

Lemma total_all_zero {A : Type} (f : A -> Q) (l : list A) :
  Forall (fun a => f a = 0) l -> total f l == 0.
Proof.
  induction 1 as [|a l Ha _ IH]; simpl; [reflexivity | rewrite Ha, IH; lra].
Qed.

(** The effect of one participant, and of one expense, on the sums of
    [totalLent] and [totalOwed] over the map. *)
Lemma add_participant_sums (group : Group.t) (m : JSMap UserBalance.t)
    (p : ExpenseParticipant.t) :
  covers group m -> is_member group (ExpenseParticipant.userId p) ->
  covers group (add_participant m p)
  /\ lent_sum (add_participant m p) == lent_sum m
  /\ owed_sum (add_participant m p)
     == owed_sum m + (if ExpenseParticipant.isPaid p then 0
                      else ExpenseParticipant.amount p).
Proof.
  intros Hcov Hmem. unfold add_participant.
  destruct (Hcov _ Hmem) as [v Hv]. rewrite Hv.
  destruct (ExpenseParticipant.isPaid p); simpl.
  - split; [exact Hcov | split; lra].
  - split; [|split].
    + intros k Hk. apply Map_get_alter_keep. apply Hcov. exact Hk.
    + unfold lent_sum. rewrite (total_Map_alter _ _ 0); [lra | |eexists; exact Hv].
      intros v0. simpl. lra.
    + unfold owed_sum.
      rewrite (total_Map_alter _ _ (ExpenseParticipant.amount p));
        [lra | |eexists; exact Hv].
      intros v0. simpl. apply add_eq.
Qed.

Lemma add_participants_sums (group : Group.t)
    (participants : list ExpenseParticipant.t) (m : JSMap UserBalance.t) :
  covers group m ->
  Forall (fun p => is_member group (ExpenseParticipant.userId p)) participants ->
  covers group (fold_left add_participant participants m)
  /\ lent_sum (fold_left add_participant participants m) == lent_sum m
  /\ owed_sum (fold_left add_participant participants m)
     == owed_sum m + total (fun p => if ExpenseParticipant.isPaid p then 0
                                     else ExpenseParticipant.amount p) participants.
Proof.
  revert m. induction participants as [|p participants IH]; intros m Hcov Hmem; simpl.
  - split; [exact Hcov | split; lra].
  - inversion Hmem as [|? ? Hp Hrest]; subst.
    destruct (add_participant_sums group m p Hcov Hp) as (Hcov1 & Hl1 & Ho1).
    destruct (IH _ Hcov1 Hrest) as (Hcov2 & Hl2 & Ho2).
    split; [exact Hcov2 | split]; [rewrite Hl2; exact Hl1 | rewrite Ho2, Ho1; lra].
Qed.

Lemma add_expense_sums (group : Group.t) (m : JSMap UserBalance.t) (e : Expense.t) :
  covers group m -> members_only group e ->
  covers group (add_expense m e)
  /\ lent_sum (add_expense m e) == lent_sum m + Expense.totalAmount e
  /\ owed_sum (add_expense m e) == owed_sum m + unpaid_amount e.
Proof.
  intros Hcov [Hpayer Hparts]. unfold add_expense.
  destruct (Hcov _ Hpayer) as [v Hv]. rewrite Hv.
  assert (Hcov1 : covers group (Map_alter (add_totalLent (Expense.totalAmount e))
                                          (Expense.paidBy e) m)).
  { intros k Hk. apply Map_get_alter_keep. apply Hcov. exact Hk. }
  destruct (add_participants_sums group (Expense.participants e) _ Hcov1 Hparts)
    as (Hcov2 & Hl2 & Ho2).
  split; [exact Hcov2 | split].
  - rewrite Hl2. unfold lent_sum.
    rewrite (total_Map_alter _ _ (Expense.totalAmount e));
      [lra | |eexists; exact Hv].
    intros v0. simpl. apply add_eq.
  - rewrite Ho2. unfold owed_sum, unpaid_amount.
    rewrite (total_Map_alter _ _ 0); [lra | |eexists; exact Hv].
    intros v0. simpl. lra.
Qed.

Lemma add_expenses_sums (group : Group.t) (expenses : list Expense.t)
    (m : JSMap UserBalance.t) :
  covers group m -> Forall (members_only group) expenses ->
  lent_sum (fold_left add_expense expenses m)
  - owed_sum (fold_left add_expense expenses m)
  == lent_sum m - owed_sum m
     + total (fun e => Expense.totalAmount e - unpaid_amount e) expenses.
Proof.
  revert m. induction expenses as [|e expenses IH]; intros m Hcov Hall; simpl.
  - lra.
  - inversion Hall as [|? ? He Hrest]; subst.
    destruct (add_expense_sums group m e Hcov He) as (Hcov1 & Hl1 & Ho1).
    rewrite (IH _ Hcov1 Hrest), Hl1, Ho1. lra.
Qed.

Lemma total_close_balance (m : JSMap UserBalance.t) :
  total UserBalance.netBalance
    (Map_values (map (fun kv => (fst kv, close_balance (snd kv))) m))
  == lent_sum m - owed_sum m.
Proof.
  unfold Map_values, lent_sum, owed_sum.
  induction m as [|[k v] m IH]; simpl; [lra|].
  rewrite IH, sub_eq. lra.
Qed.

(* ================================================================== *)
(** ** Sum of the net balances *)
(* ================================================================== *)

(** Goals over explicit lists. *)
Ltac each_element tac :=
  repeat (apply List.Forall_cons; [cbv beta; tac|]); apply List.Forall_nil.
Ltac is_member_tac := unfold is_member; simpl; intuition reflexivity.

Lemma total_abs_bound {A : Type} (f : A -> Q) (c : Q) (l : list A) :
  Forall (fun a => Qabs (f a) <= c) l ->
  Qabs (total f l) <= c * inject_Z (Z.of_nat (length l)).
Proof.
  intros H. apply Qabs_Qle_condition.
  induction H as [|a l Ha _ IH].
  - simpl. change (inject_Z (Z.of_nat 0)) with 0. lra.
  - simpl length. rewrite Nat2Z.inj_succ. unfold Z.succ. rewrite inject_Z_plus.
    change (inject_Z 1) with 1. simpl total.
    apply Qabs_Qle_condition in Ha. lra.
Qed.

Lemma unpaid_amount_none_paid (e : Expense.t) :
  Forall (fun p => ExpenseParticipant.isPaid p = false) (Expense.participants e) ->
  unpaid_amount e == total ExpenseParticipant.amount (Expense.participants e).
Proof.
  unfold unpaid_amount. induction 1 as [|p l Hp _ IH]; simpl; [reflexivity|].
  rewrite Hp, IH. reflexivity.
Qed.

Lemma calculateUserBalances_sum (state : AppState.t) (groupId : string)
    (group : Group.t) :
  List.find (fun g => String.eqb (Group.id g) groupId) (AppState.groups state)
  = Some group ->
  Forall (members_only group) (fst (getGroupExpenses groupId state)) ->
  total UserBalance.netBalance (fst (calculateUserBalances groupId state))
  == total (fun e => Expense.totalAmount e - unpaid_amount e)
           (fst (getGroupExpenses groupId state)).
Proof.
  intros Hfind Hall.
  unfold calculateUserBalances, getGroupExpenses, bind, get, ret in *. simpl in *.
  rewrite Hfind. simpl. rewrite total_close_balance.
  rewrite (add_expenses_sums group _ _); [| |exact Hall].
  - unfold init_balances, lent_sum, owed_sum.
    rewrite (total_all_zero (fun kv => UserBalance.totalLent (snd kv))),
            (total_all_zero (fun kv => UserBalance.totalOwed (snd kv))); [lra| |].
    + eapply Forall_impl; [apply init_balances_zero; constructor|].
      simpl. intros kv [_ H]. exact H.
    + eapply Forall_impl; [apply init_balances_zero; constructor|].
      simpl. intros kv [H _]. exact H.
  - intros k Hk. apply init_balances_covers. right. exact Hk.
Qed.

(** C2 (as amended). For a self-consistent expense set, the net
    balances returned by [calculateUserBalances] sum to the total paid
    minus the shares that are not marked paid.  So when no share is
    marked paid, they sum to zero within 0.01 times the number of
    expenses of the group: within 0.01 for a single expense. *)
Theorem net_balance_sum (state : AppState.t) (groupId : string) (group : Group.t) :
  List.find (fun g => String.eqb (Group.id g) groupId) (AppState.groups state)
  = Some group ->
  Forall (self_consistent group) (fst (getGroupExpenses groupId state)) ->
  total UserBalance.netBalance (fst (calculateUserBalances groupId state))
  == total (fun e => Expense.totalAmount e - unpaid_amount e)
           (fst (getGroupExpenses groupId state))
  /\ (Forall (fun e => Forall (fun p => ExpenseParticipant.isPaid p = false)
                              (Expense.participants e))
             (fst (getGroupExpenses groupId state)) ->
      Qabs (total UserBalance.netBalance (fst (calculateUserBalances groupId state)))
      <= 0.01 * inject_Z (Z.of_nat (length (fst (getGroupExpenses groupId state))))).
Proof.
  intros Hfind Hall.
  assert (Hmembers : Forall (members_only group)
                            (fst (getGroupExpenses groupId state))).
  { eapply Forall_impl; [exact Hall|]. intros e [H _]. exact H. }
  pose proof (calculateUserBalances_sum state groupId group Hfind Hmembers) as Hsum.
  split; [exact Hsum|].
  intros Hunpaid. rewrite Hsum. apply total_abs_bound.
  rewrite List.Forall_forall in *. intros e He.
  destruct (Hall e He) as (_ & _ & Hclose).
  pose proof (unpaid_amount_none_paid e (Hunpaid e He)) as E.
  apply Qabs_Qle_condition. apply Qabs_Qle_condition in Hclose. lra.
Qed.

Lemma net_balance_sum_witness :
  total UserBalance.netBalance (fst (calculateUserBalances "g" unpaid_store))
  == total (fun e => Expense.totalAmount e - unpaid_amount e)
           (fst (getGroupExpenses "g" unpaid_store))
  /\ Qabs (total UserBalance.netBalance (fst (calculateUserBalances "g" unpaid_store)))
     <= 0.01 * inject_Z (Z.of_nat (length (fst (getGroupExpenses "g" unpaid_store)))).
Proof.
  destruct (net_balance_sum unpaid_store "g" scenario2_group) as [Hsum Hzero].
  - reflexivity.
  - unfold getGroupExpenses, bind, get, ret. simpl.
    each_element
      ltac:(split; [split; [is_member_tac | each_element is_member_tac]
                   |split; [each_element ltac:(vm_compute; discriminate)
                           |vm_compute; discriminate]]).
  - split; [exact Hsum|]. apply Hzero.
    unfold getGroupExpenses, bind, get, ret. simpl.
    each_element ltac:(each_element ltac:(reflexivity)).
Defined.

(** C2 (as stated) fails once a share is marked paid: the expenses of
    the second scenario are self-consistent, and the net balances
    (300, -100, -100) sum to 100.  It also fails without any paid share,
    because the tolerance of 0.01 is per expense: two self-consistent
    expenses that are each one cent short leave a sum of 0.02. *)
Lemma net_balance_sum_not_zero :
  (Forall (self_consistent scenario2_group) (AppState.expenses scenario2_store)
   /\ total UserBalance.netBalance (fst (calculateUserBalances "g" scenario2_store))
      == 100
   /\ ~ (Qabs (total UserBalance.netBalance
                 (fst (calculateUserBalances "g" scenario2_store))) <= 0.01))
  /\ (Forall (self_consistent (Group.mk "g" [User.mk "A"; User.mk "B"]))
             (AppState.expenses one_cent_short_store)
      /\ total UserBalance.netBalance
           (fst (calculateUserBalances "g" one_cent_short_store))
         == 0.02
      /\ ~ (Qabs (total UserBalance.netBalance
                    (fst (calculateUserBalances "g" one_cent_short_store)))
            <= 0.01)).
Proof.
  split; (split; [|split]).
  - each_element
      ltac:(split; [split; [is_member_tac | each_element is_member_tac]
                   |split; [each_element ltac:(vm_compute; discriminate)
                           |vm_compute; discriminate]]).
  - vm_compute. reflexivity.
  - vm_compute. intros H. apply H. reflexivity.
  - each_element
      ltac:(split; [split; [is_member_tac | each_element is_member_tac]
                   |split; [each_element ltac:(vm_compute; discriminate)
                           |vm_compute; discriminate]]).
  - vm_compute. reflexivity.
  - vm_compute. intros H. apply H. reflexivity.
Qed.

(* ================================================================== *)
(** ** Equal split *)
(* ================================================================== *)

Lemma round2_is_cents (x : number) : is_cents (Math_round x /! 100).
Proof.
  apply is_cents_iff. exists (Qfloor (x + (1 # 2))).
  rewrite div_eq. unfold Math_round. field.
Qed.

Lemma total_equal_shares (share : number) (ids : list string) :
  total ExpenseParticipant.amount
    (map (fun userId => ExpenseParticipant.mk userId share false) ids)
  == inject_Z (Z.of_nat (length ids)) * share.
Proof.
  induction ids as [|u ids IH].
  - simpl. change (inject_Z (Z.of_nat 0)) with 0. lra.
  - simpl length. rewrite Nat2Z.inj_succ. unfold Z.succ. rewrite inject_Z_plus.
    change (inject_Z 1) with 1. simpl total. rewrite IH. lra.
Qed.

Lemma is_cents_scale (z : Z) (x : Q) : is_cents x -> is_cents (inject_Z z * x).
Proof.
  rewrite !is_cents_iff. intros [a Ha]. exists (z * a)%Z.
  rewrite inject_Z_mult, <- Ha. ring.
Qed.

Lemma gtb_zero_false (x : number) : x == 0 -> (Math_abs x >! 0.009) = false.
Proof.
  intros E. apply gtb_false. rewrite abs_eq, E. discriminate.
Qed.

(** What [calculateEqualSplit] does with a total in whole cents: every
    participant but the first gets the rounded share, and the first gets
    whatever is left of the total, the whole remainder at once. *)
Lemma calculateEqualSplit_remainder_on_first (totalAmount : number)
    (first : string) (rest : list string) :
  is_cents totalAmount ->
  exists x,
    calculateEqualSplit totalAmount (first :: rest)
    = Ok (ExpenseParticipant.mk first x false
            :: map (fun userId =>
                      ExpenseParticipant.mk userId
                        (roundToTwoDecimals
                           (totalAmount /! of_nat (length (first :: rest))))
                        false)
                   rest)
    /\ x == totalAmount
            - inject_Z (Z.of_nat (length rest))
              * roundToTwoDecimals (totalAmount /! of_nat (length (first :: rest))).
Proof.
  intros HT. unfold calculateEqualSplit, roundToTwoDecimals.
  set (n := length (first :: rest)).
  set (share := Math_round (totalAmount /! of_nat n *! 100) /! 100).
  assert (Hshare : is_cents share) by apply round2_is_cents.
  change (n =? 0)%nat with false. cbv iota.
  change (map (fun userId => ExpenseParticipant.mk userId share false) (first :: rest))
    with (ExpenseParticipant.mk first share false
            :: map (fun userId => ExpenseParticipant.mk userId share false) rest).
  set (others := map (fun userId => ExpenseParticipant.mk userId share false) rest).
  assert (Hothers : total ExpenseParticipant.amount others
                    == inject_Z (Z.of_nat (length rest)) * share)
    by apply total_equal_shares.
  set (sum := sum_amounts (ExpenseParticipant.mk first share false :: others)).
  assert (Hsum : sum == share + inject_Z (Z.of_nat (length rest)) * share).
  { subst sum. rewrite sum_amounts_total. simpl. rewrite Hothers. reflexivity. }
  assert (Hcsum : is_cents sum).
  { eapply is_cents_eq; [symmetry; exact Hsum|].
    apply is_cents_add; [|apply is_cents_scale]; exact Hshare. }
  set (diff := Math_round ((totalAmount -! sum) *! 100) /! 100).
  assert (Hdiff : diff == totalAmount - sum).
  { subst diff. rewrite round_cents; [apply sub_eq|].
    eapply is_cents_eq; [symmetry; apply sub_eq|].
    apply is_cents_sub; assumption. }
  subst n. cbn [length equalSplit_while].
  destruct (Math_abs diff >! 0.009) eqn:T.
  - cbn [lookup list_lookup].
    cbn [ExpenseParticipant.userId ExpenseParticipant.amount ExpenseParticipant.isPaid].
    set (x := Math_round ((share +! diff) *! 100) /! 100).
    assert (Hx : x == share + diff).
    { subst x. rewrite round_cents; [apply add_eq|].
      eapply is_cents_eq; [symmetry; apply add_eq|].
      apply is_cents_add; [exact Hshare|].
      eapply is_cents_eq; [symmetry; exact Hdiff|].
      apply is_cents_sub; assumption. }
    exists x. split; [|rewrite Hx, Hdiff, Hsum; ring].
    cbn [insert list_insert].
    set (sum' := sum_amounts (ExpenseParticipant.mk first x false :: others)).
    assert (Hsum' : sum' == totalAmount).
    { subst sum'. rewrite sum_amounts_total. simpl.
      rewrite Hothers, Hx, Hdiff, Hsum. ring. }
    set (diff' := Math_round ((totalAmount -! sum') *! 100) /! 100).
    assert (Hdiff' : diff' == 0).
    { subst diff'. rewrite round_cents; [rewrite sub_eq, Hsum'; ring|].
      apply is_cents_iff. exists 0%Z. rewrite sub_eq, Hsum'. ring. }
    destruct (length rest) as [|k]; cbn [equalSplit_while]; [reflexivity|].
    rewrite (gtb_zero_false diff' Hdiff'). reflexivity.
  - exists share. split; [reflexivity|].
    apply gtb_false in T. rewrite abs_eq in T.
    assert (Hzero : diff == 0).
    { apply is_cents_small; [apply round2_is_cents|].
      eapply Qle_lt_trans; [exact T|]. reflexivity. }
    rewrite Hzero in Hdiff. rewrite Hsum in Hdiff. lra.
Qed.

(** C3 (failing input). 100 split among six: the rounded share is 16.67,
    six of them make 100.02, and the whole remainder -0.02 is taken from
    the first participant in one step.  The shares sum to 100, but the
    first share is two cents below the others. *)
Theorem calculateEqualSplit_100_among_6 :
  exists shares,
    calculateEqualSplit 100 ["A"; "B"; "C"; "D"; "E"; "F"] = Ok shares
    /\ map ExpenseParticipant.amount shares
       = [lit 16.65; lit 16.67; lit 16.67; lit 16.67; lit 16.67; lit 16.67]
    /\ total ExpenseParticipant.amount shares == 100
    /\ max_share shares - min_share shares == 0.02
    /\ ~ (max_share shares - min_share shares <= 0.01).
Proof.
  eexists. split; [vm_compute; reflexivity|].
  split; [vm_compute; reflexivity|].
  split; [vm_compute; reflexivity|].
  split; [vm_compute; reflexivity|].
  vm_compute. intros H. apply H. reflexivity.
Qed.

(** The same step can push the first share below zero: 0.05 split among
    ten gives -0.04 and nine times 0.01, a split that
    [validateExpenseParticipants] then refuses. *)
Lemma calculateEqualSplit_negative_share :
  exists shares,
    calculateEqualSplit 0.05 ["A"; "B"; "C"; "D"; "E"; "F"; "G"; "H"; "I"; "J"]
    = Ok shares
    /\ map ExpenseParticipant.amount shares
       = [lit (-0.04); lit 0.01; lit 0.01; lit 0.01; lit 0.01;
          lit 0.01; lit 0.01; lit 0.01; lit 0.01; lit 0.01]
    /\ validateExpenseParticipants 0.05 shares
       = Validation.mk false (Some "Participant amounts cannot be negative").
Proof.
  eexists. split; [vm_compute; reflexivity|].
  split; vm_compute; reflexivity.
Qed.

(** The first scenario of the specification: one cent of remainder. *)
Lemma calculateEqualSplit_100_among_3 :
  calculateEqualSplit 100 ["A"; "B"; "C"]
  = Ok [ExpenseParticipant.mk "A" (lit 33.34) false;
        ExpenseParticipant.mk "B" (lit 33.33) false;
        ExpenseParticipant.mk "C" (lit 33.33) false].
Proof. vm_compute. reflexivity. Qed.

(* ================================================================== *)
(** ** Rounding to two decimals *)
(* ================================================================== *)

Lemma Math_round_bounds (y : number) :
  y - (1 # 2) < Math_round y /\ Math_round y <= y + (1 # 2).
Proof.
  unfold Math_round.
  pose proof (Qfloor_le (y + (1 # 2))) as Hle.
  pose proof (Qlt_floor (y + (1 # 2))) as Hlt.
  rewrite inject_Z_plus in Hlt. change (inject_Z 1) with 1 in Hlt.
  split; lra.
Qed.

Lemma round2_bounds (x : number) :
  x - 0.005 < Math_round (x *! 100) /! 100
  /\ Math_round (x *! 100) /! 100 <= x + 0.005.
Proof.
  destruct (Math_round_bounds (x *! 100)) as [Hlo Hhi].
  pose proof (mul_eq x 100) as Hy. rewrite div_eq.
  set (y := x *! 100) in *. set (r := Math_round y) in *.
  assert (E : r / 100 == r * (1 # 100)) by (field).
  rewrite E. split; lra.
Qed.

Lemma round2_eq (x y : number) :
  x == y -> Math_round (x *! 100) /! 100 = Math_round (y *! 100) /! 100.
Proof.
  intros E. unfold div, Math_round.
  assert (E1 : x *! 100 + (1 # 2) == y *! 100 + (1 # 2)).
  { rewrite !mul_eq, E. reflexivity. }
  rewrite (Qfloor_comp _ _ E1). reflexivity.
Qed.

(** Values in lowest terms that are equal as rationals are the same. *)
Lemma canonical_eq (a b : Q) : Qred a == Qred b -> Qred a = Qred b.
Proof.
  intros H.
  rewrite <- (Qred_complete _ _ (Qred_correct a)),
          <- (Qred_complete _ _ (Qred_correct b)).
  apply Qred_complete. exact H.
Qed.

(** X1.  [roundToTwoDecimals] returns a whole number of cents no further
    than half a cent from its argument; it returns a whole number of
    cents unchanged, and so leaves its own results unchanged.  (Which
    way a tie between two cents goes is not said: in binary64 it goes
    either way, see [binary64_roundToTwoDecimals_ties].) *)
Theorem roundToTwoDecimals_nearest_cent (num : number) :
  is_cents (roundToTwoDecimals num)
  /\ Qabs (roundToTwoDecimals num - num) <= 0.005
  /\ (is_cents num -> roundToTwoDecimals num == num)
  /\ roundToTwoDecimals (roundToTwoDecimals num) = roundToTwoDecimals num.
Proof.
  unfold roundToTwoDecimals.
  split; [apply round2_is_cents|].
  destruct (round2_bounds num) as [Hlo Hhi].
  split; [apply Qabs_Qle_condition; split; lra|].
  split; [apply round_cents|].
  set (r := Math_round (num *! 100) /! 100).
  assert (Hr : Math_round (r *! 100) /! 100 == r).
  { apply round_cents. apply round2_is_cents. }
  subst r. unfold div in *. apply canonical_eq. exact Hr.
Qed.

(* ================================================================== *)
(** ** Validation of participant shares *)
(* ================================================================== *)

Lemma filter_negative_empty (participants : list ExpenseParticipant.t) :
  (0 <? length (List.filter (fun p => ExpenseParticipant.amount p <! 0%Q)
                            participants))%nat = false
  <-> Forall (fun p => 0 <= ExpenseParticipant.amount p) participants.
Proof.
  induction participants as [|p l IH]; simpl.
  - split; [constructor | reflexivity].
  - destruct (ExpenseParticipant.amount p <! 0) eqn:T; simpl.
    + apply ltb_true in T. split; [discriminate|].
      intros H. inversion H; subst. lra.
    + apply ltb_false in T. rewrite IH. split.
      * intros H. constructor; assumption.
      * intros H. inversion H; subst. assumption.
Qed.

Lemma validateExpenseParticipants_valid (totalAmount : number)
    (participants : list ExpenseParticipant.t) :
  participants <> [] ->
  Qabs (totalAmount - total ExpenseParticipant.amount participants) <= 0.01 ->
  Forall (fun p => 0 <= ExpenseParticipant.amount p) participants ->
  validateExpenseParticipants totalAmount participants = Validation.mk true None.
Proof.
  intros Hne Hsum Hall. unfold validateExpenseParticipants.
  destruct (Nat.eqb_spec (length participants) 0) as [E|_].
  { destruct participants; [congruence | discriminate]. }
  destruct (_ >! 0.01) eqn:T.
  { apply gtb_true in T. rewrite abs_eq, sub_eq, sum_amounts_total in T.
    exfalso. exact (Qle_not_lt _ _ Hsum T). }
  apply filter_negative_empty in Hall. rewrite Hall. reflexivity.
Qed.

Lemma filter_negative_some (participants : list ExpenseParticipant.t) :
  Exists (fun p => ExpenseParticipant.amount p < 0) participants ->
  (0 <? length (List.filter (fun p => ExpenseParticipant.amount p <! 0%Q)
                            participants))%nat = true.
Proof.
  intros Hex. destruct (0 <? length _)%nat eqn:F; [reflexivity|].
  apply filter_negative_empty in F. exfalso.
  apply List.Exists_exists in Hex. destruct Hex as (p & Hp & Hneg).
  rewrite List.Forall_forall in F. specialize (F p Hp). cbv beta in F. lra.
Qed.

(** X2.  [validateExpenseParticipants], for amounts that are numbers.  A
    non-empty list of shares, none negative, that sum to the total
    within 0.0099 is valid, with no error; the empty list is invalid; a
    list whose sum is off by 0.0101 or more is invalid; a non-empty
    list with a negative share whose sum is within 0.0099 gets the
    error "Participant amounts cannot be negative".  There is an error
    exactly when the result is not valid.  (Between the two margins
    lies the boundary of 0.01, where the outcome hangs on how the sum
    is rounded.) *)
Theorem validateExpenseParticipants_within_margins (totalAmount : number)
    (participants : list ExpenseParticipant.t) :
  (participants <> [] ->
   Qabs (totalAmount - total ExpenseParticipant.amount participants) <= 0.0099 ->
   Forall (fun p => 0 <= ExpenseParticipant.amount p) participants ->
   validateExpenseParticipants totalAmount participants = Validation.mk true None)
  /\ (participants = [] ->
      validateExpenseParticipants totalAmount participants
      = Validation.mk false (Some "At least one participant is required"))
  /\ (0.0101 <= Qabs (totalAmount - total ExpenseParticipant.amount participants) ->
      Validation.isValid (validateExpenseParticipants totalAmount participants) = false)
  /\ (participants <> [] ->
      Qabs (totalAmount - total ExpenseParticipant.amount participants) <= 0.0099 ->
      Exists (fun p => ExpenseParticipant.amount p < 0) participants ->
      validateExpenseParticipants totalAmount participants
      = Validation.mk false (Some "Participant amounts cannot be negative"))
  /\ (Validation.error (validateExpenseParticipants totalAmount participants) = None
      <-> Validation.isValid (validateExpenseParticipants totalAmount participants)
          = true).
Proof.
  split; [|split; [|split; [|split]]].
  - intros Hne Hsum Hall. apply validateExpenseParticipants_valid; [exact Hne| |exact Hall].
    lra.
  - intros ->. reflexivity.
  - intros Hsum. unfold validateExpenseParticipants.
    destruct (Nat.eqb_spec (length participants) 0) as [E|E]; [reflexivity|].
    destruct (_ >! 0.01) eqn:T; [reflexivity|].
    apply gtb_false in T. rewrite abs_eq, sub_eq, sum_amounts_total in T. lra.
  - intros Hne Hsum Hneg. unfold validateExpenseParticipants.
    destruct (Nat.eqb_spec (length participants) 0) as [E|E].
    { destruct participants; [congruence | discriminate]. }
    destruct (_ >! 0.01) eqn:T.
    { apply gtb_true in T. rewrite abs_eq, sub_eq, sum_amounts_total in T. lra. }
    rewrite (filter_negative_some participants Hneg). reflexivity.
  - unfold validateExpenseParticipants.
    destruct (Nat.eqb_spec (length participants) 0) as [E|E];
      cbn [Validation.isValid Validation.error]; [split; discriminate|].
    destruct (_ >! 0.01); cbn [Validation.isValid Validation.error];
      [split; discriminate|].
    destruct (0 <? length _)%nat; cbn [Validation.isValid Validation.error];
      split; try discriminate; reflexivity.
Qed.

(** X3.  A custom split that [calculateCustomSplit] accepts passes
    [validateExpenseParticipants] as soon as it has an entry and no
    negative amount: the two sum checks agree. *)
Theorem custom_split_passes_validation (totalAmount : number)
    (customAmounts : list (string * number))
    (shares : list ExpenseParticipant.t) :
  customAmounts <> [] ->
  Forall (fun item => 0 <= snd item) customAmounts ->
  calculateCustomSplit totalAmount customAmounts = Ok shares ->
  validateExpenseParticipants totalAmount shares = Validation.mk true None.
Proof.
  intros Hne Hpos Hrun. unfold calculateCustomSplit in Hrun.
  destruct (_ >! 0.01) eqn:T in Hrun; [discriminate|].
  injection Hrun as <-.
  apply gtb_false in T. rewrite abs_eq, sub_eq, fold_add_total in T.
  set (shares := map _ customAmounts).
  assert (Htotal : total ExpenseParticipant.amount shares == total snd customAmounts).
  { subst shares. rewrite total_map. reflexivity. }
  unfold validateExpenseParticipants.
  destruct (Nat.eqb_spec (length shares) 0) as [E|_].
  { subst shares. rewrite length_map in E.
    destruct customAmounts; [congruence | discriminate]. }
  destruct (_ >! 0.01) eqn:T2.
  { apply gtb_true in T2. rewrite abs_eq, sub_eq, sum_amounts_total, Htotal in T2.
    apply Qabs_Qle_condition in T. destruct T as [Tlo Thi].
    exfalso. revert T2. apply Qle_not_lt. apply Qabs_Qle_condition.
    unfold number in *. split; lra. }
  assert (F : (0 <? length (List.filter
                   (fun p => ExpenseParticipant.amount p <! 0%Q) shares))%nat = false).
  { apply filter_negative_empty. subst shares. apply Forall_map.
    eapply Forall_impl; [exact Hpos|]. intros item H. exact H. }
  rewrite F. reflexivity.
Qed.

Lemma custom_split_passes_validation_witness :
  validateExpenseParticipants 100
    [ExpenseParticipant.mk "A" 60 false; ExpenseParticipant.mk "B" 40 false]
  = Validation.mk true None.
Proof.
  apply (custom_split_passes_validation 100 [("A", 60); ("B", 40)]).
  - discriminate.
  - repeat (apply List.Forall_cons; [vm_compute; discriminate|]). apply List.Forall_nil.
  - reflexivity.
Defined.

(* ================================================================== *)
(** ** Equal split and validation *)
(* ================================================================== *)

Lemma Math_round_nonneg (y : number) : 0 <= y -> 0 <= Math_round y.
Proof.
  intros Hy. unfold Math_round.
  assert (H : (Qfloor 0 <= Qfloor (y + (1 # 2)))%Z) by (apply Qfloor_resp_le; lra).
  change (Qfloor 0) with 0%Z in H. rewrite Zle_Qle in H. exact H.
Qed.

Lemma round2_nonneg (x : number) : 0 <= x -> 0 <= Math_round (x *! 100) /! 100.
Proof.
  intros Hx. rewrite div_eq.
  assert (H : 0 <= Math_round (x *! 100)).
  { apply Math_round_nonneg. rewrite mul_eq. lra. }
  set (r := Math_round (x *! 100)) in *.
  assert (E : r / 100 == r * (1 # 100)) by field.
  rewrite E. lra.
Qed.

(** X4.  For a total in whole cents of at least [0.005 * n * (n - 1)], the
    equal split among [n] participants sums to the total, has no
    negative share, and passes [validateExpenseParticipants]. *)
Theorem equal_split_passes_validation (totalAmount : number)
    (first : string) (rest : list string) :
  is_cents totalAmount ->
  0.005 * inject_Z (Z.of_nat (length rest))
        * inject_Z (Z.of_nat (length (first :: rest))) <= totalAmount ->
  exists shares,
    calculateEqualSplit totalAmount (first :: rest) = Ok shares
    /\ total ExpenseParticipant.amount shares == totalAmount
    /\ Forall (fun p => 0 <= ExpenseParticipant.amount p) shares
    /\ validateExpenseParticipants totalAmount shares = Validation.mk true None.
Proof.
  intros HT Hbig.
  destruct (calculateEqualSplit_remainder_on_first totalAmount first rest HT)
    as (x & Hrun & Hx).
  unfold roundToTwoDecimals in *.
  set (n := length (first :: rest)) in *.
  set (v := totalAmount /! of_nat n) in *.
  set (share := Math_round (v *! 100) /! 100) in *.
  set (K := inject_Z (Z.of_nat (length rest))) in *.
  set (N := inject_Z (Z.of_nat n)) in *.
  assert (HK : 0 <= K).
  { subst K. change 0 with (inject_Z 0). rewrite <- Zle_Qle. lia. }
  assert (HN : N == K + 1).
  { subst N K n. simpl length. rewrite Nat2Z.inj_succ. unfold Z.succ.
    rewrite inject_Z_plus. reflexivity. }
  assert (Hv : v * N == totalAmount).
  { subst v. rewrite div_eq. unfold of_nat. fold N. field. lra. }
  assert (HT0 : 0 <= totalAmount).
  { eapply Qle_trans; [|exact Hbig].
    apply Qmult_le_0_compat; [apply Qmult_le_0_compat; [discriminate | exact HK]|lra]. }
  assert (Hv0 : 0.005 * K <= v).
  { apply (Qmult_le_r _ _ N); [lra|]. rewrite Hv. exact Hbig. }
  assert (Hshare0 : 0 <= share).
  { apply round2_nonneg. apply Qle_trans with (0.005 * K); [|exact Hv0].
    apply Qmult_le_0_compat; [discriminate | exact HK]. }
  assert (Hshare1 : share <= v + 0.005) by apply round2_bounds.
  assert (HKs : K * share <= K * (v + 0.005)).
  { rewrite !(Qmult_comm K). apply Qmult_le_compat_r; assumption. }
  assert (Hx0 : 0 <= x).
  { rewrite Hx. rewrite HN in Hv.
    assert (E : K * (v + 0.005) == v * (K + 1) - v + 0.005 * K) by ring.
    rewrite E, Hv in HKs. lra. }
  set (others := map (fun userId => ExpenseParticipant.mk userId share false) rest) in *.
  assert (Hothers : total ExpenseParticipant.amount others == K * share)
    by apply total_equal_shares.
  assert (Htotal : total ExpenseParticipant.amount
                     (ExpenseParticipant.mk first x false :: others) == totalAmount).
  { simpl. rewrite Hothers, Hx. ring. }
  assert (Hall : Forall (fun p => 0 <= ExpenseParticipant.amount p)
                        (ExpenseParticipant.mk first x false :: others)).
  { constructor; [exact Hx0|]. subst others. apply Forall_map.
    apply Forall_forall. intros u _. exact Hshare0. }
  eexists. split; [exact Hrun|]. split; [exact Htotal|]. split; [exact Hall|].
  apply validateExpenseParticipants_valid; [discriminate | | exact Hall].
  rewrite Htotal. apply Qabs_Qle_condition. split; lra.
Qed.

Lemma equal_split_passes_validation_witness :
  exists shares,
    calculateEqualSplit 100 ["A"; "B"; "C"] = Ok shares
    /\ total ExpenseParticipant.amount shares == 100
    /\ Forall (fun p => 0 <= ExpenseParticipant.amount p) shares
    /\ validateExpenseParticipants 100 shares = Validation.mk true None.
Proof.
  apply (equal_split_passes_validation 100 "A" ["B"; "C"]).
  - vm_compute. reflexivity.
  - vm_compute. discriminate.
Defined.

(** X5.  What [calculateEqualSplit] returns for a total in whole cents,
    whatever its sign: every participant but the first gets one and the
    same share, a whole number of cents no further than half a cent
    from the total divided by [n]; the first gets the total less those
    shares, all at once, so the shares sum to the total, and the first
    share is within [0.005 * n] of the others.  (Which of two cents the
    common share is when the quotient lies half-way is not said.) *)
Theorem calculateEqualSplit_first_absorbs_remainder (totalAmount : number)
    (first : string) (rest : list string) :
  is_cents totalAmount ->
  let n := length (first :: rest) in
  exists x share,
    calculateEqualSplit totalAmount (first :: rest)
    = Ok (ExpenseParticipant.mk first x false
            :: map (fun userId => ExpenseParticipant.mk userId share false) rest)
    /\ is_cents share
    /\ Qabs (share - totalAmount / inject_Z (Z.of_nat n)) <= 0.005
    /\ x == totalAmount - inject_Z (Z.of_nat (length rest)) * share
    /\ Qabs (x - share) <= 0.005 * inject_Z (Z.of_nat n)
    /\ x + total ExpenseParticipant.amount
              (map (fun userId => ExpenseParticipant.mk userId share false) rest)
       == totalAmount.
Proof.
  intros HT n.
  destruct (calculateEqualSplit_remainder_on_first totalAmount first rest HT)
    as (x & Hrun & Hx).
  exists x, (roundToTwoDecimals (totalAmount /! of_nat n)).
  split; [exact Hrun|].
  unfold roundToTwoDecimals in *. fold n in Hx.
  split; [apply round2_is_cents|].
  set (v := totalAmount /! of_nat n) in *.
  set (share := Math_round (v *! 100) /! 100) in *.
  set (K := inject_Z (Z.of_nat (length rest))) in *.
  set (N := inject_Z (Z.of_nat n)) in *.
  assert (HK : 0 <= K).
  { subst K. change 0 with (inject_Z 0). rewrite <- Zle_Qle. lia. }
  assert (HN : N == K + 1).
  { subst N K n. simpl length. rewrite Nat2Z.inj_succ. unfold Z.succ.
    rewrite inject_Z_plus. reflexivity. }
  assert (Hq : v == totalAmount / N).
  { subst v. rewrite div_eq. unfold of_nat. fold N. reflexivity. }
  assert (Hv : v * N == totalAmount).
  { rewrite Hq. field. lra. }
  destruct (round2_bounds v) as [Hlo Hhi]. fold share in Hlo, Hhi.
  split; [rewrite <- Hq; apply Qabs_Qle_condition; split; lra|].
  split; [exact Hx|].
  split.
  - assert (E : x - share == N * (v - share)).
    { rewrite Hx, <- Hv, HN. ring. }
    rewrite E. apply Qabs_Qle_condition.
    assert (H1 : N * (v - share) <= N * 0.005).
    { rewrite !(Qmult_comm N). apply Qmult_le_compat_r; lra. }
    assert (H2 : N * (- 0.005) <= N * (v - share)).
    { rewrite !(Qmult_comm N). apply Qmult_le_compat_r; lra. }
    split; lra.
  - rewrite total_equal_shares. fold K. rewrite Hx. ring.
Qed.

Lemma calculateEqualSplit_first_absorbs_remainder_witness :
  exists x share,
    calculateEqualSplit 100 ["A"; "B"; "C"; "D"; "E"; "F"]
    = Ok (ExpenseParticipant.mk "A" x false
            :: map (fun userId => ExpenseParticipant.mk userId share false)
                   ["B"; "C"; "D"; "E"; "F"])
    /\ is_cents share
    /\ Qabs (share - 100 / inject_Z 6) <= 0.005
    /\ x == 100 - inject_Z 5 * share
    /\ Qabs (x - share) <= 0.005 * inject_Z 6
    /\ x + total ExpenseParticipant.amount
              (map (fun userId => ExpenseParticipant.mk userId share false)
                   ["B"; "C"; "D"; "E"; "F"])
       == 100.
Proof.
  apply (calculateEqualSplit_first_absorbs_remainder 100 "A" ["B"; "C"; "D"; "E"; "F"]).
  vm_compute. reflexivity.
Defined.

(* ================================================================== *)
(** ** Percentage split *)
(* ================================================================== *)





(* ================================================================== *)
(** ** Group summary *)
(* ================================================================== *)

Lemma total_filter_split {A : Type} (f : A -> Q) (p : A -> bool) (l : list A) :
  total f (List.filter p l) + total f (List.filter (fun a => negb (p a)) l)
  == total f l.
Proof.
  induction l as [|a l IH]; simpl; [lra|].
  destruct (p a); simpl; lra.
Qed.

(** X7.  In the summary of a group, the paid and the unpaid settlements
    split the settlement volume between them; the settlement rate is 0
    when nothing was spent (no division by zero) and otherwise the
    settled amount as a percentage of the expenses. *)
Theorem calculateGroupSummary_totals (expenses : list Expense.t)
    (settlements : list Settlement.t) :
  GroupSummary.totalExpenses (calculateGroupSummary expenses settlements)
  == total Expense.totalAmount expenses
  /\ GroupSummary.totalSettled (calculateGroupSummary expenses settlements)
     + GroupSummary.totalPending (calculateGroupSummary expenses settlements)
     == total Settlement.amount settlements
  /\ (total Expense.totalAmount expenses <= 0 ->
      GroupSummary.settlementRate (calculateGroupSummary expenses settlements) = 0)
  /\ (0 < total Expense.totalAmount expenses ->
      GroupSummary.settlementRate (calculateGroupSummary expenses settlements)
      * total Expense.totalAmount expenses
      == 100 * total Settlement.amount
                 (List.filter (fun s => Settlement.isPaid s) settlements)).
Proof.
  unfold calculateGroupSummary.
  cbn [GroupSummary.totalExpenses GroupSummary.totalSettled
       GroupSummary.totalPending GroupSummary.settlementRate].
  pose proof (fold_add_total Expense.totalAmount expenses 0) as HE.
  pose proof (fold_add_total Settlement.amount
                (List.filter (fun s => Settlement.isPaid s) settlements) 0) as HS.
  pose proof (fold_add_total Settlement.amount
                (List.filter (fun s => negb (Settlement.isPaid s)) settlements) 0) as HP.
  pose proof (total_filter_split Settlement.amount
                (fun s => Settlement.isPaid s) settlements) as Hsplit.
  cbv beta in Hsplit.
  set (te := fold_left (fun sum expense => sum +! Expense.totalAmount expense)
                       expenses 0) in *.
  set (ts := fold_left (fun sum settlement => sum +! Settlement.amount settlement)
               (List.filter (fun s => Settlement.isPaid s) settlements) 0) in *.
  set (tp := fold_left (fun sum settlement => sum +! Settlement.amount settlement)
               (List.filter (fun s => negb (Settlement.isPaid s)) settlements) 0) in *.
  set (xe := total Expense.totalAmount expenses) in *.
  set (xs := total Settlement.amount
               (List.filter (fun s => Settlement.isPaid s) settlements)) in *.
  set (xp := total Settlement.amount
               (List.filter (fun s => negb (Settlement.isPaid s)) settlements)) in *.
  split; [lra|]. split; [lra|]. split.
  - intros Hle. destruct (te >! 0) eqn:T; [|reflexivity].
    apply gtb_true in T. lra.
  - intros Hpos. destruct (te >! 0) eqn:T.
    + rewrite mul_eq, div_eq.
      assert (E : xe == te) by lra. rewrite E.
      assert (E2 : xs == ts) by lra. rewrite E2.
      apply gtb_true in T. field. lra.
    + apply gtb_false in T. lra.
Qed.

Lemma calculateGroupSummary_totals_witness :
  GroupSummary.settlementRate
    (calculateGroupSummary
       [Expense.mk "e1" "g" 300 "A" []]
       [Settlement.mk "s1" "B" "A" 75 "g" [] true 0;
        Settlement.mk "s2" "C" "A" 100 "g" [] false 0])
  * 300 == 100 * 75.
Proof.
  destruct (calculateGroupSummary_totals
              [Expense.mk "e1" "g" 300 "A" []]
              [Settlement.mk "s1" "B" "A" 75 "g" [] true 0;
               Settlement.mk "s2" "C" "A" 100 "g" [] false 0])
    as (_ & _ & _ & Hrate).
  assert (H : 0 < total Expense.totalAmount [Expense.mk "e1" "g" 300 "A" []])
    by (vm_compute; reflexivity).
  specialize (Hrate H). vm_compute in Hrate |- *. exact Hrate.
Defined.

(* ================================================================== *)
(** ** The balance of each member *)
(* ================================================================== *)

Lemma Map_get_alter {V : Type} (f : V -> V) (k' k : string) (m : JSMap V) :
  Map_get k (Map_alter f k' m)
  = if String.eqb k' k then option_map f (Map_get k m) else Map_get k m.
Proof.
  induction m as [|[k0 v0] m IH]; simpl.
  - destruct (String.eqb k' k); reflexivity.
  - destruct (String.eqb_spec k0 k') as [E1|E1]; simpl.
    + subst k0. destruct (String.eqb_spec k' k) as [E2|E2]; reflexivity.
    + destruct (String.eqb_spec k0 k) as [E2|E2].
      * subst k0. destruct (String.eqb_spec k' k) as [E3|_]; [congruence | reflexivity].
      * exact IH.
Qed.

Lemma Map_alter_keys {V : Type} (f : V -> V) (k : string) (m : JSMap V) :
  map fst (Map_alter f k m) = map fst m.
Proof.
  induction m as [|[k0 v0] m IH]; simpl; [reflexivity|].
  destruct (String.eqb k0 k); simpl; [reflexivity | rewrite IH; reflexivity].
Qed.

Lemma option_map_id {V : Type} (o : option V) : option_map (fun v => v) o = o.
Proof. destruct o; reflexivity. Qed.

Lemma Map_get_add_participant (k : string) (m : JSMap UserBalance.t)
    (p : ExpenseParticipant.t) :
  Map_get k (add_participant m p)
  = option_map (fun v => participant_effect k v p) (Map_get k m).
Proof.
  unfold add_participant, participant_effect.
  destruct (Map_get (ExpenseParticipant.userId p) m) as [w|] eqn:G.
  - destruct (ExpenseParticipant.isPaid p); simpl.
    + rewrite andb_false_r. symmetry. apply option_map_id.
    + rewrite Map_get_alter, andb_true_r.
      destruct (String.eqb (ExpenseParticipant.userId p) k);
        [reflexivity | symmetry; apply option_map_id].
  - destruct (String.eqb_spec (ExpenseParticipant.userId p) k) as [<-|_]; simpl.
    + rewrite G. reflexivity.
    + symmetry. apply option_map_id.
Qed.

Lemma add_participant_keys (m : JSMap UserBalance.t) (p : ExpenseParticipant.t) :
  map fst (add_participant m p) = map fst m.
Proof.
  unfold add_participant.
  destruct (Map_get _ m); [|reflexivity].
  destruct (negb _); [apply Map_alter_keys | reflexivity].
Qed.

Lemma Map_get_add_participants (k : string) (ps : list ExpenseParticipant.t)
    (m : JSMap UserBalance.t) :
  Map_get k (fold_left add_participant ps m)
  = option_map (fun v => fold_left (participant_effect k) ps v) (Map_get k m).
Proof.
  revert m. induction ps as [|p ps IH]; intros m; simpl.
  - symmetry. apply option_map_id.
  - rewrite IH, Map_get_add_participant. destruct (Map_get k m); reflexivity.
Qed.

Lemma add_participants_keys (ps : list ExpenseParticipant.t)
    (m : JSMap UserBalance.t) :
  map fst (fold_left add_participant ps m) = map fst m.
Proof.
  revert m. induction ps as [|p ps IH]; intros m; simpl; [reflexivity|].
  rewrite IH. apply add_participant_keys.
Qed.

Lemma Map_get_add_expense (k : string) (m : JSMap UserBalance.t) (e : Expense.t) :
  Map_get k (add_expense m e)
  = option_map (fun v => expense_effect k v e) (Map_get k m).
Proof.
  unfold add_expense, expense_effect. rewrite Map_get_add_participants.
  destruct (Map_get (Expense.paidBy e) m) as [w|] eqn:G.
  - rewrite Map_get_alter.
    destruct (String.eqb (Expense.paidBy e) k); destruct (Map_get k m); reflexivity.
  - destruct (String.eqb_spec (Expense.paidBy e) k) as [<-|_].
    + rewrite G. reflexivity.
    + reflexivity.
Qed.

Lemma add_expense_keys (m : JSMap UserBalance.t) (e : Expense.t) :
  map fst (add_expense m e) = map fst m.
Proof.
  unfold add_expense. rewrite add_participants_keys.
  destruct (Map_get _ m); [apply Map_alter_keys | reflexivity].
Qed.

Lemma Map_get_add_expenses (k : string) (es : list Expense.t)
    (m : JSMap UserBalance.t) :
  Map_get k (fold_left add_expense es m)
  = option_map (fun v => fold_left (expense_effect k) es v) (Map_get k m).
Proof.
  revert m. induction es as [|e es IH]; intros m; simpl.
  - symmetry. apply option_map_id.
  - rewrite IH, Map_get_add_expense. destruct (Map_get k m); reflexivity.
Qed.

Lemma add_expenses_keys (es : list Expense.t) (m : JSMap UserBalance.t) :
  map fst (fold_left add_expense es m) = map fst m.
Proof.
  revert m. induction es as [|e es IH]; intros m; simpl; [reflexivity|].
  rewrite IH. apply add_expense_keys.
Qed.

(** The fields of a balance object after the participants, and after
    the expenses, have been folded in. *)
Lemma participants_effect_fields (k : string) (ps : list ExpenseParticipant.t)
    (v : UserBalance.t) :
  UserBalance.userId (fold_left (participant_effect k) ps v) = UserBalance.userId v
  /\ UserBalance.groupId (fold_left (participant_effect k) ps v)
     = UserBalance.groupId v
  /\ UserBalance.totalLent (fold_left (participant_effect k) ps v)
     = UserBalance.totalLent v
  /\ UserBalance.totalOwed (fold_left (participant_effect k) ps v)
     == UserBalance.totalOwed v + unpaid_share_of k ps.
Proof.
  revert v. induction ps as [|p ps IH]; intros v; simpl.
  - repeat split; try reflexivity. unfold unpaid_share_of. simpl. lra.
  - destruct (IH (participant_effect k v p)) as (H1 & H2 & H3 & H4).
    rewrite H1, H2, H3, H4. unfold participant_effect, unpaid_share_of. simpl.
    destruct (String.eqb (ExpenseParticipant.userId p) k
              && negb (ExpenseParticipant.isPaid p)); simpl;
      repeat split; try reflexivity; try rewrite add_eq; lra.
Qed.

Lemma expenses_effect_fields (k : string) (es : list Expense.t) (v : UserBalance.t) :
  UserBalance.userId (fold_left (expense_effect k) es v) = UserBalance.userId v
  /\ UserBalance.groupId (fold_left (expense_effect k) es v) = UserBalance.groupId v
  /\ UserBalance.totalLent (fold_left (expense_effect k) es v)
     == UserBalance.totalLent v + lent_of k es
  /\ UserBalance.totalOwed (fold_left (expense_effect k) es v)
     == UserBalance.totalOwed v + owed_of k es.
Proof.
  revert v. induction es as [|e es IH]; intros v; simpl.
  - repeat split; try reflexivity; unfold lent_of, owed_of; simpl; lra.
  - destruct (IH (expense_effect k v e)) as (H1 & H2 & H3 & H4).
    rewrite H1, H2, H3, H4. unfold expense_effect, lent_of, owed_of. simpl.
    destruct (participants_effect_fields k (Expense.participants e)
                (if String.eqb (Expense.paidBy e) k
                 then add_totalLent (Expense.totalAmount e) v else v))
      as (P1 & P2 & P3 & P4).
    rewrite P1, P2, P3, P4.
    destruct (String.eqb (Expense.paidBy e) k); simpl;
      repeat split; try reflexivity; try rewrite add_eq; lra.
Qed.

(** With distinct member ids, the map starts with one zero balance per
    member, in the order of the members. *)
Lemma Map_set_fresh {V : Type} (k : string) (v : V) (m : JSMap V) :
  ~ In k (map fst m) -> Map_set k v m = m ++ [(k, v)].
Proof.
  induction m as [|[k0 v0] m IH]; simpl; intros Hk; [reflexivity|].
  destruct (String.eqb_spec k0 k) as [E|_]; [tauto|].
  rewrite IH; [reflexivity | tauto].
Qed.

Lemma init_fold_distinct (groupId : string) (members : list User.t)
    (acc : JSMap UserBalance.t) :
  List.NoDup (map fst acc ++ map User.id members) ->
  fold_left
    (fun balanceMap member =>
       Map_set (User.id member)
               (UserBalance.mk (User.id member) groupId 0 0 0) balanceMap)
    members acc
  = acc ++ map (fun member =>
                  (User.id member, UserBalance.mk (User.id member) groupId 0 0 0))
               members.
Proof.
  revert acc. induction members as [|m members IH]; intros acc Hnd; simpl.
  - rewrite app_nil_r. reflexivity.
  - rewrite Map_set_fresh.
    + rewrite IH; [rewrite <- app_assoc; reflexivity|].
      rewrite map_app, <- app_assoc. exact Hnd.
    + simpl in Hnd. apply List.NoDup_remove_2 in Hnd. intros Hin. apply Hnd.
      apply in_or_app. left. exact Hin.
Qed.

Lemma init_balances_distinct (groupId : string) (members : list User.t) :
  List.NoDup (map User.id members) ->
  init_balances groupId members
  = map (fun member =>
           (User.id member, UserBalance.mk (User.id member) groupId 0 0 0))
        members.
Proof.
  intros Hnd. unfold init_balances. rewrite init_fold_distinct; [reflexivity|].
  exact Hnd.
Qed.

Lemma Map_get_In {V : Type} (k : string) (v : V) (m : JSMap V) :
  List.NoDup (map fst m) -> In (k, v) m -> Map_get k m = Some v.
Proof.
  induction m as [|[k0 v0] m IH]; simpl; intros Hnd Hin; [contradiction|].
  inversion Hnd as [|? ? Hk0 Hnd']; subst.
  destruct Hin as [[= -> ->]|Hin].
  - rewrite String.eqb_refl. reflexivity.
  - destruct (String.eqb_spec k0 k) as [->|_].
    + exfalso. apply Hk0. apply (in_map fst) in Hin. exact Hin.
    + apply IH; assumption.
Qed.

Lemma balances_in_member_order (groupId : string) (es : list Expense.t)
    (members : list User.t) (m : JSMap UserBalance.t) :
  map fst m = map User.id members ->
  Forall (fun kv => UserBalance.userId (snd kv) = fst kv
                    /\ UserBalance.groupId (snd kv) = groupId
                    /\ UserBalance.totalLent (snd kv) == lent_of (fst kv) es
                    /\ UserBalance.totalOwed (snd kv) == owed_of (fst kv) es) m ->
  Forall2 (balance_of groupId es) members
    (Map_values (map (fun kv => (fst kv, close_balance (snd kv))) m)).
Proof.
  revert members. induction m as [|[k v] m IH]; intros [|u members] Hkeys Hall;
    simpl in *; try discriminate; [constructor|].
  injection Hkeys as Hk Hkeys. inversion Hall as [|? ? (H1 & H2 & H3 & H4) Hrest]; subst.
  simpl in *. constructor; [|apply IH; assumption].
  unfold balance_of, close_balance. simpl.
  repeat split; try assumption. rewrite sub_eq, H3, H4. reflexivity.
Qed.

Lemma balances_per_member (state : AppState.t) (groupId : string)
    (group : Group.t) :
  List.find (fun g => String.eqb (Group.id g) groupId) (AppState.groups state)
  = Some group ->
  List.NoDup (map User.id (Group.members group)) ->
  Forall2 (balance_of groupId (fst (getGroupExpenses groupId state)))
          (Group.members group)
          (fst (calculateUserBalances groupId state)).
Proof.
  intros Hfind Hnd.
  unfold calculateUserBalances, getGroupExpenses, bind, get, ret. simpl.
  rewrite Hfind. simpl.
  set (es := List.filter _ (AppState.expenses state)).
  set (m0 := init_balances groupId (Group.members group)).
  assert (Hm0 : m0 = map (fun member =>
                            (User.id member,
                             UserBalance.mk (User.id member) groupId 0 0 0))
                         (Group.members group))
    by (apply init_balances_distinct; exact Hnd).
  assert (Hkeys0 : map fst m0 = map User.id (Group.members group)).
  { rewrite Hm0, map_map. reflexivity. }
  assert (Hkeys : map fst (fold_left add_expense es m0)
                  = map User.id (Group.members group)).
  { rewrite add_expenses_keys. exact Hkeys0. }
  apply balances_in_member_order; [exact Hkeys|].
  apply List.Forall_forall. intros [k v] Hin. simpl.
  assert (Hget : Map_get k (fold_left add_expense es m0) = Some v).
  { apply Map_get_In; [rewrite Hkeys; exact Hnd | exact Hin]. }
  rewrite Map_get_add_expenses in Hget.
  assert (Hk : In k (map User.id (Group.members group))).
  { rewrite <- Hkeys. apply (in_map fst) in Hin. exact Hin. }
  assert (Hget0 : Map_get k m0 = Some (UserBalance.mk k groupId 0 0 0)).
  { apply Map_get_In; [rewrite Hkeys0; exact Hnd|].
    rewrite Hm0. apply in_map_iff in Hk. destruct Hk as (u & <- & Hu).
    apply in_map_iff. exists u. split; [reflexivity | exact Hu]. }
  rewrite Hget0 in Hget. simpl in Hget. injection Hget as <-.
  destruct (expenses_effect_fields k es (UserBalance.mk k groupId 0 0 0))
    as (H1 & H2 & H3 & H4).
  simpl in *. repeat split; try assumption; [rewrite H3 | rewrite H4]; lra.
Qed.

(** X8.  [calculateUserBalances], for a group whose member ids are distinct:
    one balance per member, in the order of the members; [totalLent] is
    what the member paid over the expenses of the group, [totalOwed] the
    shares in the member's name that are not marked paid, and
    [netBalance] their difference.  Payers and participants that are
    not members, and expenses of other groups, leave no trace. *)
Theorem calculateUserBalances_per_member (state : AppState.t) (groupId : string)
    (group : Group.t) :
  List.find (fun g => String.eqb (Group.id g) groupId) (AppState.groups state)
  = Some group ->
  List.NoDup (map User.id (Group.members group)) ->
  Forall2 (balance_of groupId (fst (getGroupExpenses groupId state)))
          (Group.members group)
          (fst (calculateUserBalances groupId state)).
Proof. apply balances_per_member. Qed.

Lemma calculateUserBalances_per_member_witness :
  Forall2 (balance_of "g" (fst (getGroupExpenses "g" scenario2_store)))
          (Group.members scenario2_group)
          (fst (calculateUserBalances "g" scenario2_store)).
Proof.
  apply calculateUserBalances_per_member.
  - reflexivity.
  - repeat constructor; simpl; intuition discriminate.
Defined.

(* ================================================================== *)
(** ** The expense summary of a user *)
(* ================================================================== *)

Lemma total_filter_if {A : Type} (f : A -> Q) (p : A -> bool) (l : list A) :
  total f (List.filter p l) == total (fun a => if p a then f a else 0) l.
Proof.
  induction l as [|a l IH]; simpl; [reflexivity|].
  destruct (p a); simpl; lra.
Qed.

Lemma or_zero_eq (x : number) : or_zero x == x.
Proof.
  unfold or_zero. destruct (Qeq_bool x 0) eqn:E; [|reflexivity].
  apply Qeq_bool_eq in E. symmetry. exact E.
Qed.

Lemma unpaid_share_of_absent (u : string) (ps : list ExpenseParticipant.t) :
  ~ In u (map ExpenseParticipant.userId ps) -> unpaid_share_of u ps == 0.
Proof.
  unfold unpaid_share_of. induction ps as [|p ps IH]; simpl; intros Hu; [reflexivity|].
  destruct (String.eqb_spec (ExpenseParticipant.userId p) u) as [E|_]; [tauto|].
  simpl. rewrite IH; [lra | tauto].
Qed.

Lemma first_share_is_unpaid_share (u : string) (ps : list ExpenseParticipant.t) :
  List.NoDup (map ExpenseParticipant.userId ps) ->
  Forall (fun p => ExpenseParticipant.isPaid p = false) ps ->
  match List.find (fun p => String.eqb (ExpenseParticipant.userId p) u) ps with
  | Some p => or_zero (ExpenseParticipant.amount p)
  | None => 0
  end == unpaid_share_of u ps.
Proof.
  induction ps as [|p ps IH]; simpl; intros Hnd Hall; [reflexivity|].
  inversion Hnd as [|? ? Hp Hnd']; subst. inversion Hall as [|? ? Hpaid Hall']; subst.
  unfold unpaid_share_of in *. simpl.
  destruct (String.eqb_spec (ExpenseParticipant.userId p) u) as [E|_].
  - rewrite Hpaid. simpl. rewrite or_zero_eq.
    pose proof (unpaid_share_of_absent u ps) as H0. unfold unpaid_share_of in H0.
    rewrite H0; [lra|]. rewrite <- E. exact Hp.
  - simpl. rewrite (IH Hnd' Hall'). lra.
Qed.

(** X9.  [calculateUserExpenseSummary] against the balance computation: its
    [totalPaid] is what the user paid; when no participant is listed
    twice in an expense and no share is marked paid, its [totalShare] is
    what the user owes, and its [netBalance] is the net balance that
    [calculateUserBalances] gives the user over the same expenses. *)
Theorem calculateUserExpenseSummary_matches_balance (userId : string)
    (expenses : list Expense.t) (settlements : list Settlement.t) :
  Forall (fun e =>
            List.NoDup (map ExpenseParticipant.userId (Expense.participants e))
            /\ Forall (fun p => ExpenseParticipant.isPaid p = false)
                      (Expense.participants e)) expenses ->
  UserExpenseSummary.totalPaid
    (calculateUserExpenseSummary userId expenses settlements)
  == lent_of userId expenses
  /\ UserExpenseSummary.totalShare
       (calculateUserExpenseSummary userId expenses settlements)
     == owed_of userId expenses
  /\ UserExpenseSummary.netBalance
       (calculateUserExpenseSummary userId expenses settlements)
     == lent_of userId expenses - owed_of userId expenses.
Proof.
  intros Hall. unfold calculateUserExpenseSummary.
  cbn [UserExpenseSummary.totalPaid UserExpenseSummary.totalShare
       UserExpenseSummary.netBalance].
  set (paid := fold_left (fun sum expense => sum +! Expense.totalAmount expense)
                 (List.filter (fun e => String.eqb (Expense.paidBy e) userId) expenses) 0).
  set (share :=
         fold_left
           (fun sum expense =>
              sum +! match List.find
                             (fun p => String.eqb (ExpenseParticipant.userId p) userId)
                             (Expense.participants expense) with
                     | Some p => or_zero (ExpenseParticipant.amount p)
                     | None => 0
                     end) expenses 0).
  assert (Hpaid : paid == lent_of userId expenses).
  { subst paid. rewrite fold_add_total, total_filter_if. unfold lent_of. lra. }
  assert (Hshare : share == owed_of userId expenses).
  { subst share.
    rewrite (fold_add_total
               (fun expense =>
                  match List.find
                          (fun p => String.eqb (ExpenseParticipant.userId p) userId)
                          (Expense.participants expense) with
                  | Some p => or_zero (ExpenseParticipant.amount p)
                  | None => 0
                  end) expenses 0).
    unfold owed_of. clear paid Hpaid.
    induction Hall as [|e es [Hnd Hun] _ IH]; simpl; [lra|].
    rewrite (first_share_is_unpaid_share userId _ Hnd Hun). lra. }
  split; [exact Hpaid | split; [exact Hshare|]].
  rewrite sub_eq, Hpaid, Hshare. reflexivity.
Qed.

Lemma calculateUserExpenseSummary_matches_balance_witness :
  UserExpenseSummary.netBalance
    (calculateUserExpenseSummary "B" (AppState.expenses unpaid_store) [])
  == lent_of "B" (AppState.expenses unpaid_store)
     - owed_of "B" (AppState.expenses unpaid_store).
Proof.
  apply (calculateUserExpenseSummary_matches_balance "B"
           (AppState.expenses unpaid_store) []).
  apply List.Forall_cons; [|apply List.Forall_nil]. split.
  - repeat constructor; simpl; intuition discriminate.
  - repeat (apply List.Forall_cons; [reflexivity|]). apply List.Forall_nil.
Defined.

(* ================================================================== *)
(** ** Direction and size of the settlements *)
(* ================================================================== *)

Lemma round2_at_least_a_cent (s : number) :
  0.01 < s -> 0.01 <= Math_round (s *! 100) /! 100.
Proof.
  intros Hs. rewrite div_eq. unfold Math_round.
  assert (H : (Qfloor 1 <= Qfloor (s *! 100%Q + (1 # 2)))%Z).
  { apply Qfloor_resp_le. rewrite mul_eq. lra. }
  change (Qfloor 1) with 1%Z in H. rewrite Zle_Qle in H.
  change (inject_Z 1) with 1 in H.
  set (r := inject_Z (Qfloor (s *! 100 + (1 # 2)))) in *.
  assert (E : r / 100 == r * (1 # 100)) by field.
  rewrite E. lra.
Qed.

Lemma copy_balance_id (b : UserBalance.t) : copy_balance b = b.
Proof. destruct b; reflexivity. Qed.

Lemma initial_state_In (balances : list UserBalance.t) (b : UserBalance.t) :
  In b (workingBalances (initial_state balances)) <-> In b balances.
Proof.
  unfold initial_state. simpl.
  assert (E : map copy_balance balances = balances).
  { rewrite <- (map_id balances) at 2. apply map_ext. apply copy_balance_id. }
  rewrite E. split; apply Permutation_in.
  - symmetry. apply Array_sort_Permutation.
  - apply Array_sort_Permutation.
Qed.

Lemma emit_lookup (wb : list UserBalance.t) (L R i : nat)
    (lender' debtor' b : UserBalance.t) :
  <[R := debtor']> (<[L := lender']> wb) !! i = Some b ->
  (i = R /\ b = debtor') \/ (i = L /\ i <> R /\ b = lender')
  \/ (i <> L /\ i <> R /\ wb !! i = Some b).
Proof.
  intros Hi. apply list_lookup_insert_Some in Hi.
  destruct Hi as [(<- & <- & _)|(HiR & Hi)]; [left; split; reflexivity|].
  apply list_lookup_insert_Some in Hi.
  destruct Hi as [(<- & <- & _)|(HiL & Hi)].
  - right. left. repeat split. congruence.
  - right. right. repeat split; congruence.
Qed.

Lemma loop_step_directed (clock : nat -> Z) (wb0 : list UserBalance.t)
    (st st' : LoopState) :
  (leftIndex st < rightIndex st)%Z ->
  directed wb0 st -> loop_step clock st st' -> directed wb0 st'.
Proof.
  intros Hlt [Hlen Hside Hset] Hstep.
  destruct Hstep as [lender HL Hskip
                    |lender debtor HL HR Hskip
                    |lender debtor HL HR _ _ _
                    |lender debtor s HL HR Hpos Hneg Hs01 Hs];
    try (constructor; simpl; assumption).
  apply at_index_Some in HL, HR.
  destruct HL as [HLr HL], HR as [HRr HR].
  set (L := Z.to_nat (leftIndex st)) in *.
  set (R := Z.to_nat (rightIndex st)) in *.
  destruct (lookup_lt_is_Some_2 wb0 L) as [b0L HL0]; [subst L; lia|].
  destruct (lookup_lt_is_Some_2 wb0 R) as [b0R HR0]; [subst R; lia|].
  destruct (Hside L b0L lender HL0 HL) as (HLu & HLg & HLp & _).
  destruct (Hside R b0R debtor HR0 HR) as (HRu & HRg & _ & HRn).
  specialize (HLp Hpos). specialize (HRn Hneg).
  destruct (emit_arithmetic _ _ s Hpos Hneg Hs) as (Els & Eds & Hls & Hds).
  destruct (round2_bounds s) as [_ Hround].
  pose proof (round2_at_least_a_cent s Hs01) as Hcent.
  constructor; simpl.
  - rewrite !length_insert. exact Hlen.
  - intros i b0 b Hi0 Hi. apply emit_lookup in Hi.
    destruct Hi as [(-> & ->)|[(-> & _ & ->)|(_ & _ & Hi)]].
    + rewrite HR0 in Hi0. injection Hi0 as <-.
      unfold same_side. simpl. repeat split; try assumption; intros H; lra.
    + rewrite HL0 in Hi0. injection Hi0 as <-.
      unfold same_side. simpl. repeat split; try assumption; intros H; lra.
    + exact (Hside i b0 b Hi0 Hi).
  - apply Forall_app. split; [exact Hset|].
    apply List.Forall_cons; [|apply List.Forall_nil].
    exists b0R, b0L. simpl.
    split; [apply list_elem_of_In; eapply list_elem_of_lookup_2; exact HR0|].
    split; [apply list_elem_of_In; eapply list_elem_of_lookup_2; exact HL0|].
    repeat split; try assumption; try reflexivity;
      destruct Hs as [[Hs Hle]|[Hs Hle]]; lra.
Qed.

Lemma initial_state_directed (balances : list UserBalance.t) :
  directed (workingBalances (initial_state balances)) (initial_state balances).
Proof.
  constructor.
  - reflexivity.
  - intros i b0 b Hi0 Hi. rewrite Hi0 in Hi. injection Hi as <-.
    unfold same_side. repeat split; intros; lra.
  - constructor.
Qed.

Lemma well_directed_balances (balances : list UserBalance.t) (s : Settlement.t) :
  well_directed (workingBalances (initial_state balances)) s ->
  well_directed balances s.
Proof.
  intros (debtor & creditor & Hd & Hc & H).
  exists debtor, creditor.
  split; [apply initial_state_In; exact Hd|].
  split; [apply initial_state_In; exact Hc | exact H].
Qed.

Lemma settlements_well_directed (clock : nat -> Z) (fuel : nat)
    (balances : list UserBalance.t) (r : list Settlement.t) :
  optimizeSettlements clock fuel balances = Some (Ok r) ->
  Forall (well_directed balances) r.
Proof.
  intros Hrun. apply while_loop_returns in Hrun.
  destruct Hrun as (st & Hreach & _ & <-).
  assert (Hdir : directed (workingBalances (initial_state balances)) st).
  { apply (reachable_invariant clock
             (directed (workingBalances (initial_state balances)))
             (initial_state balances) st); [| |exact Hreach].
    - apply initial_state_directed.
    - intros st1 st2 H1 Hlt Hstep. eapply loop_step_directed; eauto. }
  destruct Hdir as [_ _ Hset].
  eapply Forall_impl; [exact Hset|]. intros s. apply well_directed_balances.
Qed.

(** X10.  Every settlement that [optimizeSettlements] returns is unpaid, has
    no expense ids, and goes from a member whose net balance is negative
    to a member whose net balance is positive, in the creditor's group;
    its amount is at least 0.01 and exceeds neither what the debtor owes
    nor what the creditor is owed by more than the half cent of
    rounding. *)
Theorem optimizeSettlements_well_directed (clock : nat -> Z) (fuel : nat)
    (balances : list UserBalance.t) (r : list Settlement.t) :
  optimizeSettlements clock fuel balances = Some (Ok r) ->
  Forall (well_directed balances) r.
Proof. apply settlements_well_directed. Qed.

Lemma optimizeSettlements_well_directed_witness :
  Forall (well_directed [UserBalance.mk "A" "g" 0 200 200;
                         UserBalance.mk "B" "g" 100 0 (-100);
                         UserBalance.mk "C" "g" 100 0 (-100)])
    [Settlement.mk "1000_0_2" "C" "A" 100 "g" [] false 1001;
     Settlement.mk "1002_0_1" "B" "A" 100 "g" [] false 1003].
Proof.
  apply (optimizeSettlements_well_directed (fun k => 1000 + Z.of_nat k)%Z 4).
  vm_compute. reflexivity.
Defined.

(* ================================================================== *)
(** ** What the settlements bring each member *)
(* ================================================================== *)

Lemma NoDup_lookup_inj {A B : Type} (f : A -> B) (l : list A) (i j : nat) (a b : A) :
  List.NoDup (map f l) -> l !! i = Some a -> l !! j = Some b -> f a = f b -> i = j.
Proof.
  revert i j. induction l as [|x l IH]; intros i j Hnd Hi Hj Hab; [discriminate|].
  simpl in Hnd. inversion Hnd as [|? ? Hx Hnd']; subst.
  destruct i as [|i], j as [|j]; simpl in Hi, Hj.
  - reflexivity.
  - injection Hi as ->. exfalso. apply Hx. rewrite Hab.
    apply in_map. apply list_elem_of_In. eapply list_elem_of_lookup_2. exact Hj.
  - injection Hj as ->. exfalso. apply Hx. rewrite <- Hab.
    apply in_map. apply list_elem_of_In. eapply list_elem_of_lookup_2. exact Hi.
  - f_equal. apply (IH i j Hnd' Hi Hj Hab).
Qed.

Lemma total_zero_all {A : Type} (f : A -> Q) (l : list A) :
  (forall a, 0 <= f a) -> total f l == 0 -> Forall (fun a => f a == 0) l.
Proof.
  intros Hf. induction l as [|a l IH]; simpl; intros H; constructor.
  - pose proof (Hf a). pose proof (total_nonneg f l Hf). lra.
  - apply IH. pose proof (Hf a). pose proof (total_nonneg f l Hf). lra.
Qed.

Lemma loop_step_accounted (clock : nat -> Z) (wb0 : list UserBalance.t)
    (P0 N0 : Q) (st st' : LoopState) :
  List.NoDup (map UserBalance.userId wb0) ->
  (leftIndex st < rightIndex st)%Z ->
  directed wb0 st -> settling P0 N0 st -> accounted wb0 st ->
  loop_step clock st st' -> accounted wb0 st'.
Proof.
  intros Hnd Hlt [Hlen Hside _] [Hc _ _ _ _ _] Hacc Hstep.
  destruct Hstep as [lender HL Hskip
                    |lender debtor HL HR Hskip
                    |lender debtor HL HR _ _ _
                    |lender debtor s HL HR Hpos Hneg Hs01 Hs];
    try exact Hacc.
  apply at_index_Some in HL, HR.
  destruct HL as [HLr HL], HR as [HRr HR].
  set (L := Z.to_nat (leftIndex st)) in *.
  set (R := Z.to_nat (rightIndex st)) in *.
  assert (HLR : L <> R) by (subst L R; lia).
  destruct (lookup_lt_is_Some_2 wb0 L) as [b0L HL0]; [subst L; lia|].
  destruct (lookup_lt_is_Some_2 wb0 R) as [b0R HR0]; [subst R; lia|].
  destruct (Hside L b0L lender HL0 HL) as (HLu & _).
  destruct (Hside R b0R debtor HR0 HR) as (HRu & _).
  pose proof (Forall_lookup_1 _ _ _ _ Hc HL) as Hcl. simpl in Hcl.
  pose proof (Forall_lookup_1 _ _ _ _ Hc HR) as Hcd. simpl in Hcd.
  destruct (emit_arithmetic _ _ s Hpos Hneg Hs) as (Els & Eds & _ & _).
  assert (Hcs : is_cents s).
  { destruct Hs as [[Hs _]|[Hs _]].
    - apply (is_cents_eq (UserBalance.netBalance lender)); [symmetry|]; assumption.
    - apply (is_cents_eq (- UserBalance.netBalance debtor)); [symmetry; assumption|].
      apply is_cents_opp. assumption. }
  pose proof (round_cents s Hcs) as Hamount.
  intros i b0 b Hi0 Hi. simpl in Hi |- *.
  unfold inflow, outflow. rewrite !total_app. simpl.
  fold (inflow (UserBalance.userId b0) (settlements st)).
  fold (outflow (UserBalance.userId b0) (settlements st)).
  rewrite HLu, HRu.
  apply emit_lookup in Hi. destruct Hi as [(-> & ->)|[(-> & _ & ->)|(HiL & HiR & Hi)]].
  - rewrite HR0 in Hi0. injection Hi0 as <-.
    pose proof (Hacc R b0R debtor HR0 HR) as IH.
    rewrite String.eqb_refl.
    destruct (String.eqb_spec (UserBalance.userId b0L) (UserBalance.userId b0R))
      as [E|_].
    { exfalso. apply HLR. exact (NoDup_lookup_inj _ _ _ _ _ _ Hnd HL0 HR0 E). }
    simpl. rewrite Hamount, Eds. lra.
  - rewrite HL0 in Hi0. injection Hi0 as <-.
    pose proof (Hacc L b0L lender HL0 HL) as IH.
    rewrite String.eqb_refl.
    destruct (String.eqb_spec (UserBalance.userId b0R) (UserBalance.userId b0L))
      as [E|_].
    { exfalso. apply HLR. symmetry.
      exact (NoDup_lookup_inj _ _ _ _ _ _ Hnd HR0 HL0 E). }
    simpl. rewrite Hamount, Els. lra.
  - pose proof (Hacc i b0 b Hi0 Hi) as IH.
    destruct (String.eqb_spec (UserBalance.userId b0L) (UserBalance.userId b0))
      as [E|_].
    { exfalso. apply HiL. symmetry.
      exact (NoDup_lookup_inj _ _ _ _ _ _ Hnd HL0 Hi0 E). }
    destruct (String.eqb_spec (UserBalance.userId b0R) (UserBalance.userId b0))
      as [E|_].
    { exfalso. apply HiR. symmetry.
      exact (NoDup_lookup_inj _ _ _ _ _ _ Hnd HR0 Hi0 E). }
    lra.
Qed.

(** When the pointers have met on balances that summed to zero, every
    working balance is zero. *)
Lemma settling_exit_balanced (P0 N0 : Q) (st : LoopState) :
  settling P0 N0 st -> P0 == N0 ->
  (rightIndex st <= leftIndex st)%Z ->
  Forall (fun b => UserBalance.netBalance b == 0) (workingBalances st).
Proof.
  intros Hinv Hbal Hexit.
  pose proof (settling_exit _ _ st Hinv Hexit) as Hend.
  destruct Hinv as [_ _ _ _ Hp Hn].
  assert (Hsp : sum_positive (workingBalances st) == 0) by (destruct Hend; lra).
  assert (Hsn : sum_negative (workingBalances st) == 0) by (destruct Hend; lra).
  apply total_zero_all in Hsp; [|intros; apply positive_part_nonneg].
  apply total_zero_all in Hsn; [|intros; apply positive_part_nonneg].
  rewrite List.Forall_forall in *. intros b Hb.
  specialize (Hsp b Hb). specialize (Hsn b Hb). cbv beta in Hsp, Hsn.
  pose proof (positive_part_difference (UserBalance.netBalance b)). lra.
Qed.

Lemma settlements_settle_everyone (clock : nat -> Z) (fuel : nat)
    (balances : list UserBalance.t) (r : list Settlement.t) :
  Forall (fun b => is_cents (UserBalance.netBalance b)) balances ->
  total UserBalance.netBalance balances == 0 ->
  List.NoDup (map UserBalance.userId balances) ->
  optimizeSettlements clock fuel balances = Some (Ok r) ->
  Forall (fun b => inflow (UserBalance.userId b) r - outflow (UserBalance.userId b) r
                   == UserBalance.netBalance b) balances.
Proof.
  intros Hc Hzero Hnd Hrun. apply while_loop_returns in Hrun.
  destruct Hrun as (st & Hreach & Hexit & <-).
  set (wb0 := workingBalances (initial_state balances)).
  assert (Hnd0 : List.NoDup (map UserBalance.userId wb0)).
  { subst wb0. unfold initial_state. simpl.
    eapply Permutation_NoDup; [|exact Hnd].
    apply Permutation_map.
    assert (E : map copy_balance balances = balances).
    { rewrite <- (map_id balances) at 2. apply map_ext. apply copy_balance_id. }
    rewrite E. apply Array_sort_Permutation. }
  assert (Hinv : directed wb0 st
                 /\ settling (sum_positive balances) (sum_negative balances) st
                 /\ accounted wb0 st).
  { apply (reachable_invariant clock
             (fun st => directed wb0 st
                        /\ settling (sum_positive balances) (sum_negative balances) st
                        /\ accounted wb0 st)
             (initial_state balances) st); [| |exact Hreach].
    - split; [apply initial_state_directed|].
      split; [apply initial_state_settling; exact Hc|].
      intros i b0 b Hi0 Hi. subst wb0. rewrite Hi0 in Hi. injection Hi as <-.
      unfold inflow, outflow. simpl. lra.
    - intros st1 st2 (H1 & H2 & H3) Hlt Hstep.
      split; [eapply loop_step_directed; eauto|].
      split; [eapply loop_step_settling; eauto|].
      eapply loop_step_accounted; eauto. }
  destruct Hinv as (Hdir & Hset & Hacc).
  assert (Hbal : sum_positive balances == sum_negative balances).
  { pose proof (sum_positive_minus_negative balances). lra. }
  pose proof (settling_exit_balanced _ _ st Hset Hbal Hexit) as Hzeroes.
  destruct Hdir as [Hlen _ _].
  apply List.Forall_forall. intros b Hb.
  apply initial_state_In in Hb. fold wb0 in Hb.
  apply list_elem_of_In, list_elem_of_lookup in Hb. destruct Hb as [i Hi0].
  destruct (lookup_lt_is_Some_2 (workingBalances st) i) as [b' Hi].
  { rewrite Hlen. eapply lookup_lt_Some. exact Hi0. }
  pose proof (Hacc i b b' Hi0 Hi) as H.
  pose proof (Forall_lookup_1 _ _ _ _ Hzeroes Hi) as Hz. simpl in Hz. lra.
Qed.

(* ================================================================== *)
(** ** When [optimizeSettlements] returns *)
(* ================================================================== *)

(** X12.  [optimizeSettlements] never throws: its two pointers stay inside
    the array of working balances, so no element it reads is
    [undefined]. *)
Theorem optimizeSettlements_never_throws (clock : nat -> Z) (fuel : nat)
    (balances : list UserBalance.t) (message : string) :
  optimizeSettlements clock fuel balances <> Some (Throw message).
Proof.
  unfold optimizeSettlements.
  apply (while_loop_no_throw clock (length balances)).
  apply initial_state_in_range.
Qed.

Lemma while_loop_never_returns_back (clock : nat -> Z) (st0 st : LoopState) :
  reachable clock st0 st ->
  (forall fuel, while_loop clock fuel st = None) ->
  forall fuel, while_loop clock fuel st0 = None.
Proof.
  intros Hreach. induction Hreach as [|st1 st2 _ IH Hlt Hbody]; [trivial|].
  intros Hnone. apply IH. intros [|fuel]; simpl; [reflexivity|].
  destruct (Z.ltb_spec (leftIndex st1) (rightIndex st1)) as [_|Hge]; [|lia].
  rewrite Hbody. apply Hnone.
Qed.

(** X13.  A call of [optimizeSettlements] on [n] balances either returns
    within [n + 1] tests of the loop condition or never returns: the
    loop has then reached a state that its body leaves unchanged. *)
Theorem optimizeSettlements_returns_or_never (clock : nat -> Z)
    (balances : list UserBalance.t) :
  (exists r, optimizeSettlements clock (S (length balances)) balances = Some (Ok r))
  \/ (forall fuel, optimizeSettlements clock fuel balances = None).
Proof.
  unfold optimizeSettlements.
  destruct (while_loop_returns_or_idles clock (length balances)
              (S (length balances)) (initial_state balances))
    as [Hret|(st & Hreach & Hlt & Hfix)].
  - apply initial_state_in_range.
  - unfold initial_state. simpl. rewrite length_Array_sort, length_map. lia.
  - left. exact Hret.
  - right. apply (while_loop_never_returns_back clock _ st Hreach).
    apply while_loop_fixed_point; assumption.
Qed.

Lemma multiple_of_eq (u x y : Q) : x == y -> multiple_of u x -> multiple_of u y.
Proof. intros E [k Hk]. exists k. rewrite <- E. exact Hk. Qed.

Lemma multiple_of_sub (u x y : Q) :
  multiple_of u x -> multiple_of u y -> multiple_of u (x - y).
Proof.
  intros [k Hk] [j Hj]. exists (k - j)%Z.
  unfold Z.sub. rewrite inject_Z_plus, inject_Z_opp, Hk, Hj. ring.
Qed.

Lemma multiple_of_add (u x y : Q) :
  multiple_of u x -> multiple_of u y -> multiple_of u (x + y).
Proof.
  intros [k Hk] [j Hj]. exists (k + j)%Z.
  rewrite inject_Z_plus, Hk, Hj. ring.
Qed.

Lemma multiple_of_opp (u x : Q) : multiple_of u x -> multiple_of u (- x).
Proof.
  intros [k Hk]. exists (- k)%Z. rewrite inject_Z_opp, Hk. ring.
Qed.

(** A multiple of [u] is zero, or at least [u] away from zero. *)
Lemma multiple_of_gap (u x : Q) :
  0 < u -> multiple_of u x -> x == 0 \/ u <= x \/ x <= - u.
Proof.
  intros Hu [k Hk].
  destruct (Z.lt_trichotomy k 0) as [Hneg|[->|Hpos]].
  - right. right.
    assert (H : inject_Z k <= - (1)).
    { change (- (1)) with (inject_Z (-1)). rewrite <- Zle_Qle. lia. }
    rewrite Hk. nra.
  - left. rewrite Hk. change (inject_Z 0) with 0. ring.
  - right. left.
    assert (H : 1 <= inject_Z k).
    { change 1 with (inject_Z 1). rewrite <- Zle_Qle. lia. }
    rewrite Hk. nra.
Qed.

Lemma loop_step_multiples (clock : nat -> Z) (u : Q) (st st' : LoopState) :
  Forall (fun b => multiple_of u (UserBalance.netBalance b)) (workingBalances st) ->
  loop_step clock st st' ->
  Forall (fun b => multiple_of u (UserBalance.netBalance b)) (workingBalances st').
Proof.
  intros Hall Hstep.
  destruct Hstep as [lender HL Hskip
                    |lender debtor HL HR Hskip
                    |lender debtor HL HR _ _ _
                    |lender debtor s HL HR Hpos Hneg Hs01 Hs];
    try exact Hall.
  simpl.
  apply at_index_Some in HL, HR.
  destruct HL as [_ HL], HR as [_ HR].
  pose proof (Forall_lookup_1 _ _ _ _ Hall HL) as Hl. simpl in Hl.
  pose proof (Forall_lookup_1 _ _ _ _ Hall HR) as Hd. simpl in Hd.
  assert (Hms : multiple_of u s).
  { destruct Hs as [[Hs _]|[Hs _]].
    - apply (multiple_of_eq u (UserBalance.netBalance lender)); [symmetry|]; assumption.
    - apply (multiple_of_eq u (- UserBalance.netBalance debtor));
        [symmetry; assumption | apply multiple_of_opp; assumption]. }
  apply Forall_insert; [apply Forall_insert; [exact Hall|]|]; simpl.
  - apply (multiple_of_eq u (UserBalance.netBalance lender - s));
      [symmetry; apply sub_eq | apply multiple_of_sub; assumption].
  - apply (multiple_of_eq u (UserBalance.netBalance debtor + s));
      [symmetry; apply add_eq | apply multiple_of_add; assumption].
Qed.

(** A state with balances in multiples of a unit above one cent is not
    left unchanged by the body of the loop. *)
Lemma multiples_never_idle (clock : nat -> Z) (u : Q) (st : LoopState) :
  0.01 < u ->
  Forall (fun b => multiple_of u (UserBalance.netBalance b)) (workingBalances st) ->
  loop_step clock st st -> False.
Proof.
  intros Hu Hall Hstep.
  remember st as st' eqn:E in Hstep at 2.
  destruct Hstep as [lender HL Hskip
                    |lender debtor HL HR Hskip
                    |lender debtor HL HR Hl Hd Hone
                    |lender debtor s HL HR Hpos Hneg Hs01 Hs].
  - apply (f_equal leftIndex) in E. simpl in E. lia.
  - apply (f_equal rightIndex) in E. simpl in E. lia.
  - apply at_index_Some in HL, HR.
    destruct HL as [_ HL], HR as [_ HR].
    pose proof (Forall_lookup_1 _ _ _ _ Hall HL) as Hml. simpl in Hml.
    pose proof (Forall_lookup_1 _ _ _ _ Hall HR) as Hmd. simpl in Hmd.
    apply multiple_of_gap in Hml; [|lra]. apply multiple_of_gap in Hmd; [|lra].
    destruct Hone as [Hone|Hone]; [destruct Hml as [?|[?|?]]|destruct Hmd as [?|[?|?]]];
      lra.
  - apply (f_equal (fun x => length (settlements x))) in E. simpl in E.
    rewrite length_app in E. simpl in E. lia.
Qed.

Lemma returns_on_multiples (clock : nat -> Z) (u : Q)
    (balances : list UserBalance.t) :
  0.01 < u ->
  Forall (fun b => multiple_of u (UserBalance.netBalance b)) balances ->
  exists r, optimizeSettlements clock (S (length balances)) balances = Some (Ok r).
Proof.
  intros Hu Hall. unfold optimizeSettlements.
  destruct (while_loop_returns_or_idles clock (length balances)
              (S (length balances)) (initial_state balances))
    as [Hret|(st & Hreach & Hlt & Hfix)].
  - apply initial_state_in_range.
  - unfold initial_state. simpl. rewrite length_Array_sort, length_map. lia.
  - exact Hret.
  - exfalso. apply (multiples_never_idle clock u st Hu).
    + apply (reachable_invariant clock
               (fun st => Forall (fun b => multiple_of u (UserBalance.netBalance b))
                                 (workingBalances st))
               (initial_state balances) st); [| |exact Hreach].
      * apply List.Forall_forall. intros b Hb.
        rewrite List.Forall_forall in Hall. apply Hall.
        apply (proj1 (initial_state_In balances b)). exact Hb.
      * intros st1 st2 H1 _ Hstep. eapply loop_step_multiples; eauto.
    + apply loop_body_step. exact Hfix.
Qed.



(* ================================================================== *)
(** ** Settling in units above one cent *)
(* ================================================================== *)

(** A whole multiple of a unit in whole cents is in whole cents. *)
Lemma multiple_of_cents (u x : Q) : is_cents u -> multiple_of u x -> is_cents x.
Proof.
  intros Hu [k Hk]. apply (is_cents_eq (inject_Z k * u)); [symmetry; exact Hk|].
  apply is_cents_scale. exact Hu.
Qed.

(** C4 (as amended). On balances that are whole multiples of one unit
    of account, a whole number of cents larger than one cent (0.05,
    say, or 1), a call of [optimizeSettlements] returns, within [n + 1]
    tests of the loop condition for [n] balances, and has settled the
    smaller of the two sides: the sum of the settlement amounts is the
    minimum of the sum of the positive net balances and the sum of the
    magnitudes of the negative ones; it is the sum of the positive
    balances when the balances sum to zero.  When every balance is
    strictly within 0.01 of zero, the call returns the empty list. *)
Theorem settlement_conservation (clock : nat -> Z) (balances : list UserBalance.t) :
  (forall u,
      0.01 < u -> is_cents u ->
      Forall (fun b => multiple_of u (UserBalance.netBalance b)) balances ->
      exists r,
        optimizeSettlements clock (S (length balances)) balances = Some (Ok r)
        /\ total Settlement.amount r
           == Qmin (sum_positive balances) (sum_negative balances)
        /\ (total UserBalance.netBalance balances == 0 ->
            total Settlement.amount r == sum_positive balances))
  /\ (Forall (fun b => Qabs (UserBalance.netBalance b) < 0.01) balances ->
      forall fuel,
        (length balances < fuel)%nat ->
        optimizeSettlements clock fuel balances = Some (Ok [])).
Proof.
  split.
  - intros u Hu Hcu Hmul.
    destruct (returns_on_multiples clock u balances Hu Hmul) as [r Hrun].
    exists r. split; [exact Hrun|].
    assert (Hc : Forall (fun b => is_cents (UserBalance.netBalance b)) balances).
    { eapply Forall_impl; [exact Hmul|]. intros b Hb.
      apply (multiple_of_cents u); assumption. }
    pose proof (settled_volume clock _ balances r Hc Hrun) as Hmin.
    split; [exact Hmin|]. intros Hzero. rewrite Hmin.
    pose proof (sum_positive_minus_negative balances) as Hdiff.
    destruct (Q.min_spec (sum_positive balances) (sum_negative balances))
      as [[_ ->]|[_ ->]]; lra.
  - intros Hsmall fuel Hfuel. apply optimizeSettlements_all_small; assumption.
Qed.

Lemma settlement_conservation_witness :
  (exists r,
      optimizeSettlements (fun k => 1000 + Z.of_nat k)%Z 4
        [UserBalance.mk "A" "g" 0 200.05 200.05;
         UserBalance.mk "B" "g" 100 0 (-100);
         UserBalance.mk "C" "g" 100.05 0 (-100.05)]
      = Some (Ok r)
      /\ total Settlement.amount r
         == Qmin (sum_positive [UserBalance.mk "A" "g" 0 200.05 200.05;
                                UserBalance.mk "B" "g" 100 0 (-100);
                                UserBalance.mk "C" "g" 100.05 0 (-100.05)])
                 (sum_negative [UserBalance.mk "A" "g" 0 200.05 200.05;
                                UserBalance.mk "B" "g" 100 0 (-100);
                                UserBalance.mk "C" "g" 100.05 0 (-100.05)])
      /\ (total UserBalance.netBalance
                [UserBalance.mk "A" "g" 0 200.05 200.05;
                 UserBalance.mk "B" "g" 100 0 (-100);
                 UserBalance.mk "C" "g" 100.05 0 (-100.05)] == 0 ->
          total Settlement.amount r
          == sum_positive [UserBalance.mk "A" "g" 0 200.05 200.05;
                           UserBalance.mk "B" "g" 100 0 (-100);
                           UserBalance.mk "C" "g" 100.05 0 (-100.05)]))
  /\ optimizeSettlements (fun k => 1000 + Z.of_nat k)%Z 3
       [UserBalance.mk "A" "g" 0 0 0.004; UserBalance.mk "B" "g" 0 0 (-0.004)]
     = Some (Ok []).
Proof.
  split.
  - apply (proj1 (settlement_conservation (fun k => 1000 + Z.of_nat k)%Z
                    [UserBalance.mk "A" "g" 0 200.05 200.05;
                     UserBalance.mk "B" "g" 100 0 (-100);
                     UserBalance.mk "C" "g" 100.05 0 (-100.05)]) 0.05).
    + reflexivity.
    + vm_compute. reflexivity.
    + apply List.Forall_cons; [exists 4001%Z; reflexivity|].
      apply List.Forall_cons; [exists (-2000)%Z; reflexivity|].
      apply List.Forall_cons; [exists (-2001)%Z; reflexivity|].
      apply List.Forall_nil.
  - apply (proj2 (settlement_conservation (fun k => 1000 + Z.of_nat k)%Z
                    [UserBalance.mk "A" "g" 0 0 0.004;
                     UserBalance.mk "B" "g" 0 0 (-0.004)])).
    + repeat constructor; vm_compute; reflexivity.
    + simpl. lia.
Defined.

(** X11.  On balances that sum to zero, have distinct user ids and are
    whole multiples of one unit, a whole number of cents larger than one
    cent, [optimizeSettlements] returns, within [n + 1] tests of the
    loop condition, settlements that settle everyone: what they bring
    each member, less what they take from the member, is the member's
    net balance. *)
Theorem optimizeSettlements_settles_everyone (clock : nat -> Z) (u : Q)
    (balances : list UserBalance.t) :
  0.01 < u -> is_cents u ->
  Forall (fun b => multiple_of u (UserBalance.netBalance b)) balances ->
  total UserBalance.netBalance balances == 0 ->
  List.NoDup (map UserBalance.userId balances) ->
  exists r,
    optimizeSettlements clock (S (length balances)) balances = Some (Ok r)
    /\ Forall (fun b =>
                 inflow (UserBalance.userId b) r - outflow (UserBalance.userId b) r
                 == UserBalance.netBalance b) balances.
Proof.
  intros Hu Hcu Hmul Hzero Hnd.
  destruct (returns_on_multiples clock u balances Hu Hmul) as [r Hrun].
  exists r. split; [exact Hrun|].
  apply (settlements_settle_everyone clock (S (length balances))); try assumption.
  eapply Forall_impl; [exact Hmul|]. intros b Hb.
  apply (multiple_of_cents u); assumption.
Qed.

Lemma optimizeSettlements_settles_everyone_witness :
  exists r,
    optimizeSettlements (fun k => 1000 + Z.of_nat k)%Z 4
      [UserBalance.mk "A" "g" 0 200.05 200.05;
       UserBalance.mk "B" "g" 100 0 (-100);
       UserBalance.mk "C" "g" 100.05 0 (-100.05)]
    = Some (Ok r)
    /\ Forall (fun b =>
                 inflow (UserBalance.userId b) r - outflow (UserBalance.userId b) r
                 == UserBalance.netBalance b)
         [UserBalance.mk "A" "g" 0 200.05 200.05;
          UserBalance.mk "B" "g" 100 0 (-100);
          UserBalance.mk "C" "g" 100.05 0 (-100.05)].
Proof.
  apply (optimizeSettlements_settles_everyone (fun k => 1000 + Z.of_nat k)%Z 0.05).
  - reflexivity.
  - vm_compute. reflexivity.
  - apply List.Forall_cons; [exists 4001%Z; reflexivity|].
    apply List.Forall_cons; [exists (-2000)%Z; reflexivity|].
    apply List.Forall_cons; [exists (-2001)%Z; reflexivity|].
    apply List.Forall_nil.
  - vm_compute. reflexivity.
  - repeat constructor; simpl; intuition discriminate.
Defined.

(* ================================================================== *)
(** ** The store: group totals follow the expenses *)
(* ================================================================== *)

Lemma map_clocked_keeps {A B : Type} (f : A -> nat -> A * nat) (h : A -> B)
    (l : list A) (t : nat) :
  (forall a t, h (fst (f a t)) = h a) ->
  map h (fst (map_clocked f l t)) = map h l.
Proof.
  intros Hf. revert t. induction l as [|a l IH]; intros t; simpl; [reflexivity|].
  pose proof (Hf a t) as Ha.
  destruct (f a t) as [b t1]. specialize (IH t1).
  destruct (map_clocked f l t1) as [bs t2]. simpl in *.
  rewrite Ha, IH. reflexivity.
Qed.

Lemma total_as_map {A B : Type} (h : A -> B) (f : B -> Q) (l l' : list A) :
  map h l' = map h l -> total (fun a => f (h a)) l' = total (fun a => f (h a)) l.
Proof.
  intros E. rewrite <- !(total_map f h). rewrite E. reflexivity.
Qed.

Lemma group_total_none (groupId : string) (expenses : list Full.Expense.t) :
  Forall (fun e => Full.Expense.groupId e <> groupId) expenses ->
  group_total groupId expenses == 0.
Proof.
  unfold group_total. induction 1 as [|e es He _ IH]; simpl; [reflexivity|].
  destruct (String.eqb_spec (Full.Expense.groupId e) groupId) as [E|_];
    [contradiction|]. rewrite IH. lra.
Qed.

Lemma NoDup_map_filter {A B : Type} (h : A -> B) (p : A -> bool) (l : list A) :
  List.NoDup (map h l) -> List.NoDup (map h (List.filter p l)).
Proof.
  induction l as [|a l IH]; simpl; intros Hnd; [constructor|].
  inversion Hnd as [|? ? Hnot Hnd']; subst.
  destruct (p a); simpl; [|apply IH; exact Hnd'].
  constructor; [|apply IH; exact Hnd'].
  intros Hin. apply Hnot. apply in_map_iff in Hin.
  destruct Hin as (x & Hx & Hin). apply filter_In in Hin.
  apply in_map_iff. exists x. tauto.
Qed.

(** Among expenses with distinct ids, filtering out an id removes the
    one expense that has it. *)
Lemma total_filter_out (f : Full.Expense.t -> Q) (e : Full.Expense.t)
    (expenses : list Full.Expense.t) :
  List.NoDup (map Full.Expense.id expenses) -> In e expenses ->
  total f (List.filter
             (fun x => negb (String.eqb (Full.Expense.id x) (Full.Expense.id e)))
             expenses)
  == total f expenses - f e.
Proof.
  induction expenses as [|x es IH]; simpl; intros Hnd Hin; [contradiction|].
  inversion Hnd as [|? ? Hnot Hnd']; subst.
  destruct Hin as [->|Hin].
  - rewrite String.eqb_refl. simpl.
    assert (E : List.filter
                  (fun x => negb (String.eqb (Full.Expense.id x) (Full.Expense.id e)))
                  es = es).
    { clear IH Hnd Hnd'. induction es as [|y es IH]; simpl; [reflexivity|].
      destruct (String.eqb_spec (Full.Expense.id y) (Full.Expense.id e)) as [E|_].
      - exfalso. apply Hnot. left. exact E.
      - simpl. f_equal. apply IH. intros H. apply Hnot. right. exact H. }
    rewrite E. lra.
  - destruct (String.eqb_spec (Full.Expense.id x) (Full.Expense.id e)) as [E|_].
    + exfalso. apply Hnot. rewrite E. apply in_map. exact Hin.
    + simpl. rewrite (IH Hnd' Hin). lra.
Qed.

Lemma NoDup_snoc {A : Type} (l : list A) (x : A) :
  List.NoDup l -> ~ In x l -> List.NoDup (l ++ [x]).
Proof.
  induction l as [|a l IH]; simpl; intros Hnd Hx.
  - constructor; [intros []|constructor].
  - inversion Hnd as [|? ? Hnot Hnd']; subst. constructor.
    + rewrite in_app_iff. simpl. intros [H|[H|[]]]; [contradiction|].
      apply Hx. left. symmetry. exact H.
    + apply IH; [exact Hnd'|]. intros H. apply Hx. right. exact H.
Qed.

Lemma find_id_In (expenseId : string) (expenses : list Full.Expense.t)
    (e : Full.Expense.t) :
  List.find (fun e => String.eqb (Full.Expense.id e) expenseId) expenses = Some e ->
  In e expenses /\ Full.Expense.id e = expenseId.
Proof.
  intros H. apply find_some in H. destruct H as [Hin Hid].
  split; [exact Hin | apply String.eqb_eq; exact Hid].
Qed.

Lemma mark_expense_keeps (now : nat -> Z) (expenseId participantUserId : string)
    (e : Full.Expense.t) (t : nat) :
  let e' := fst (mark_expense now expenseId participantUserId e t) in
  Full.Expense.id e' = Full.Expense.id e
  /\ Full.Expense.groupId e' = Full.Expense.groupId e
  /\ Full.Expense.totalAmount e' = Full.Expense.totalAmount e
  /\ Full.Expense.paidBy e' = Full.Expense.paidBy e.
Proof.
  unfold mark_expense.
  destruct (String.eqb (Full.Expense.id e) expenseId); [|repeat split].
  destruct (map_clocked _ _ _) as [ps t1]. repeat split.
Qed.

Lemma group_total_mark (now : nat -> Z) (expenseId participantUserId groupId : string)
    (expenses : list Full.Expense.t) (t : nat) :
  group_total groupId
    (fst (map_clocked (mark_expense now expenseId participantUserId) expenses t))
  = group_total groupId expenses.
Proof.
  unfold group_total.
  apply (total_as_map
           (fun e => (Full.Expense.groupId e, Full.Expense.totalAmount e))
           (fun x : string * number =>
              if String.eqb (fst x) groupId then snd x else 0)).
  apply map_clocked_keeps. intros e t'.
  destruct (mark_expense_keeps now expenseId participantUserId e t')
    as (_ & -> & -> & _). reflexivity.
Qed.

Lemma booked_step (state state' : Full.AppState.t) :
  booked state -> store_step state state' -> booked state'.
Proof.
  intros [Htot Hnd] Hstep.
  destruct Hstep as [user
                    |now groupData Hfresh
                    |groupId
                    |groupId
                    |now expenseData Hfresh _ _
                    |expenseId
                    |
                    |now expenseId participantUserId
                    |now settlementData
                    |now settlementId upiTransactionId].
  - split; assumption.
  - split; [|exact Hnd]. simpl. apply Forall_app. split; [exact Htot|].
    apply List.Forall_cons; [|apply List.Forall_nil]. simpl.
    rewrite group_total_none; [reflexivity | exact Hfresh].
  - split; [|exact Hnd]. simpl.
    apply List.Forall_forall. intros g Hg. apply filter_In in Hg.
    rewrite List.Forall_forall in Htot. apply Htot. tauto.
  - split; assumption.
  - split; simpl.
    + apply List.Forall_forall. intros g' Hg'. apply in_map_iff in Hg'.
      destruct Hg' as (g & <- & Hg).
      rewrite List.Forall_forall in Htot. specialize (Htot g Hg). cbv beta in Htot.
      unfold group_total in *. rewrite total_app. simpl.
      destruct (String.eqb_spec (Full.Group.id g)
                  (Full.ExpenseData.groupId expenseData)) as [E|NE]; simpl.
      * rewrite E, String.eqb_refl, add_eq. rewrite E in Htot. lra.
      * destruct (String.eqb_spec (Full.ExpenseData.groupId expenseData)
                    (Full.Group.id g)) as [E|_]; [congruence|]. lra.
    + rewrite map_app. simpl. apply NoDup_snoc; assumption.
  - unfold deleteExpense.
    destruct (List.find _ _) as [e|] eqn:Hfind; [|split; assumption].
    apply find_id_In in Hfind. destruct Hfind as [Hin <-].
    split; simpl; [|apply NoDup_map_filter; exact Hnd].
    apply List.Forall_forall. intros g' Hg'. apply in_map_iff in Hg'.
    destruct Hg' as (g & <- & Hg).
    rewrite List.Forall_forall in Htot. specialize (Htot g Hg). cbv beta in Htot.
    unfold group_total in *.
    destruct (String.eqb_spec (Full.Group.id g) (Full.Expense.groupId e)) as [E|NE];
      simpl; rewrite (total_filter_out _ e _ Hnd Hin).
    + rewrite E, String.eqb_refl, sub_eq. rewrite E in Htot. lra.
    + destruct (String.eqb_spec (Full.Expense.groupId e) (Full.Group.id g)) as [E|_];
        [congruence|]. lra.
  - split; simpl; [|constructor].
    apply List.Forall_forall. intros g' Hg'. apply in_map_iff in Hg'.
    destruct Hg' as (g & <- & Hg). simpl. reflexivity.
  - split; simpl.
    + eapply Forall_impl; [exact Htot|]. intros g Hg. cbv beta in *.
      rewrite Hg, group_total_mark. reflexivity.
    + rewrite (map_clocked_keeps _ Full.Expense.id); [exact Hnd|].
      intros e t. apply mark_expense_keeps.
  - split; assumption.
  - split; assumption.
Qed.

(** X15.  In every state that the store reaches from its initial state by
    calls of its actions other than [updateGroup] and [updateExpense],
    made when the clock gives ids that are not in use, with expenses
    whose amounts are whole numbers from 0 to 2^53 that keep the total
    of their group within 2^53 (so that no addition or subtraction of
    the store rounds), each group's [totalExpenses] is the sum of the
    amounts of the group's expenses, and no two expenses share an id. *)
Theorem store_totals_follow_expenses (state : Full.AppState.t) :
  store_reachable state -> booked state.
Proof.
  induction 1 as [|state state' _ IH Hstep].
  - split; constructor.
  - exact (booked_step state state' IH Hstep).
Qed.

Lemma store_totals_follow_expenses_witness : booked trip_store.
Proof.
  apply store_totals_follow_expenses. unfold trip_store.
  eapply store_next; [eapply store_next; [apply store_start|]|].
  - apply step_createGroup. apply List.Forall_nil.
  - apply step_addExpense.
    + simpl. tauto.
    + split; [exists 300%Z; reflexivity|]. split; vm_compute; discriminate.
    + apply List.Forall_cons; [|apply List.Forall_nil].
      intros _. split; [exists 300%Z; reflexivity|]. split; vm_compute; discriminate.
Defined.

(* ================================================================== *)
(** ** The store: adding and deleting an expense *)
(* ================================================================== *)

Lemma find_snoc {A : Type} (p : A -> bool) (l : list A) (x : A) :
  Forall (fun a => p a = false) l -> p x = true -> List.find p (l ++ [x]) = Some x.
Proof.
  induction 1 as [|a l Ha _ IH]; simpl; intros Hx.
  - rewrite Hx. reflexivity.
  - rewrite Ha. apply IH. exact Hx.
Qed.

Lemma filter_all {A : Type} (p : A -> bool) (l : list A) :
  Forall (fun a => p a = true) l -> List.filter p l = l.
Proof.
  induction 1 as [|a l Ha _ IH]; simpl; [reflexivity|].
  rewrite Ha, IH. reflexivity.
Qed.

Lemma fresh_id (expenseId : string) (expenses : list Full.Expense.t) :
  ~ In expenseId (map Full.Expense.id expenses) ->
  Forall (fun e => String.eqb (Full.Expense.id e) expenseId = false) expenses.
Proof.
  intros Hfresh. apply List.Forall_forall. intros e He.
  apply String.eqb_neq. intros E. apply Hfresh. rewrite <- E.
  apply in_map. exact He.
Qed.

Lemma Forall2_map_same {A : Type} (R : A -> A -> Prop) (f : A -> A) (l : list A) :
  (forall a, R a (f a)) -> Forall2 R l (map f l).
Proof.
  intros H. induction l as [|a l IH]; simpl; constructor; [apply H | exact IH].
Qed.

(** X16.  Deleting an expense right after it was added, under an id that was
    not in use, gives back the expenses, the users, the settlements and
    the active group as they were, and every group with its
    [totalExpenses] as before: when the amount of the expense, the total
    of its group and their sum are whole numbers from 0 to 2^53, which
    the store adds and subtracts without rounding. *)
Theorem deleteExpense_undoes_addExpense (now : nat -> Z)
    (expenseData : Full.ExpenseData.t) (state : Full.AppState.t) :
  ~ In (pretty (now 0%nat)) (map Full.Expense.id (Full.AppState.expenses state)) ->
  whole_amount (Full.ExpenseData.totalAmount expenseData) ->
  Forall (fun g => Full.Group.id g = Full.ExpenseData.groupId expenseData ->
                   whole_amount (Full.Group.totalExpenses g)
                   /\ whole_amount (Full.Group.totalExpenses g
                                    + Full.ExpenseData.totalAmount expenseData))
         (Full.AppState.groups state) ->
  let state' := deleteExpense (pretty (now 0%nat)) (addExpense now expenseData state) in
  Full.AppState.expenses state' = Full.AppState.expenses state
  /\ Forall2 same_group (Full.AppState.groups state) (Full.AppState.groups state')
  /\ Full.AppState.users state' = Full.AppState.users state
  /\ Full.AppState.settlements state' = Full.AppState.settlements state
  /\ Full.AppState.activeGroupId state' = Full.AppState.activeGroupId state.
Proof.
  intros Hfresh _ _. apply fresh_id in Hfresh.
  unfold deleteExpense, addExpense. cbn [Full.AppState.expenses].
  rewrite find_snoc; [|exact Hfresh | apply String.eqb_refl].
  cbn -[pretty]. repeat split.
  - rewrite List.filter_app. simpl. rewrite String.eqb_refl. simpl.
    rewrite app_nil_r. apply filter_all.
    eapply Forall_impl; [exact Hfresh|]. intros e ->. reflexivity.
  - rewrite map_map. apply Forall2_map_same. intros g.
    destruct (String.eqb (Full.Group.id g) (Full.ExpenseData.groupId expenseData))
      eqn:E; cbn.
    + rewrite E. split; [destruct g; reflexivity|]. cbn.
      rewrite sub_eq, add_eq. ring.
    + rewrite E. split; [destruct g; reflexivity | reflexivity].
Qed.

Lemma deleteExpense_undoes_addExpense_witness :
  let state' :=
    deleteExpense "3000" (addExpense (at_time 3000) (taxi_data "1000") trip_store) in
  Full.AppState.expenses state' = Full.AppState.expenses trip_store
  /\ Forall2 same_group (Full.AppState.groups trip_store) (Full.AppState.groups state')
  /\ Full.AppState.users state' = Full.AppState.users trip_store
  /\ Full.AppState.settlements state' = Full.AppState.settlements trip_store
  /\ Full.AppState.activeGroupId state' = Full.AppState.activeGroupId trip_store.
Proof.
  apply (deleteExpense_undoes_addExpense (at_time 3000) (taxi_data "1000") trip_store).
  - vm_compute. intuition discriminate.
  - split; [exists 80%Z; reflexivity|]. split; vm_compute; discriminate.
  - apply List.Forall_cons; [|apply List.Forall_nil]. intros _.
    split; (split; [|split; vm_compute; discriminate]).
    + exists 300%Z. reflexivity.
    + exists 380%Z. reflexivity.
Defined.

(** X17.  Two expenses added within the same millisecond get the same id.
    Deleting that id removes both of them from the list, but takes only
    the first one's amount off its group's total: the second amount
    stays in [totalExpenses] of its group although the expense is
    gone. *)
Theorem deleteExpense_same_millisecond (now1 now2 : nat -> Z)
    (first second : Full.ExpenseData.t) (state : Full.AppState.t) :
  now1 0%nat = now2 0%nat ->
  ~ In (pretty (now1 0%nat)) (map Full.Expense.id (Full.AppState.expenses state)) ->
  let state' :=
    deleteExpense (pretty (now1 0%nat))
      (addExpense now2 second (addExpense now1 first state)) in
  Full.AppState.expenses state' = Full.AppState.expenses state
  /\ Forall2
       (fun g g' =>
          Full.Group.id g' = Full.Group.id g
          /\ Full.Group.totalExpenses g'
             == Full.Group.totalExpenses g
                + (if String.eqb (Full.Group.id g) (Full.ExpenseData.groupId second)
                   then Full.ExpenseData.totalAmount second else 0))
       (Full.AppState.groups state) (Full.AppState.groups state').
Proof.
  intros Hsame Hfresh. apply fresh_id in Hfresh.
  unfold deleteExpense, addExpense. cbn [Full.AppState.expenses]. rewrite <- Hsame.
  rewrite <- app_assoc. cbn [app].
  assert (Hfind : forall x y : Full.Expense.t,
             Full.Expense.id x = pretty (now1 0%nat) ->
             List.find (fun e => String.eqb (Full.Expense.id e) (pretty (now1 0%nat)))
                       (Full.AppState.expenses state ++ [x; y]) = Some x).
  { intros x y Hx. clear Hsame.
    induction Hfresh as [|a l Ha _ IH]; simpl.
    - rewrite Hx, String.eqb_refl. reflexivity.
    - rewrite Ha. exact IH. }
  rewrite Hfind; [|reflexivity].
  cbn -[pretty]. split.
  - rewrite List.filter_app. simpl. rewrite String.eqb_refl. simpl.
    rewrite app_nil_r. apply filter_all.
    eapply Forall_impl; [exact Hfresh|]. intros e ->. reflexivity.
  - rewrite !map_map. apply Forall2_map_same. intros g.
    destruct (String.eqb (Full.Group.id g) (Full.ExpenseData.groupId first)) eqn:E1;
      destruct (String.eqb (Full.Group.id g) (Full.ExpenseData.groupId second)) eqn:E2;
      cbn; rewrite ?E1, ?E2; cbn; rewrite ?E1, ?E2; cbn;
      (split; [reflexivity|]); rewrite ?sub_eq, ?add_eq; lra.
Qed.

Lemma deleteExpense_same_millisecond_witness :
  let state' :=
    deleteExpense "3000"
      (addExpense (at_time 3000) (taxi_data "1000")
         (addExpense (at_time 3000) (dinner_data "1000") trip_store)) in
  Full.AppState.expenses state' = Full.AppState.expenses trip_store
  /\ Forall2
       (fun g g' =>
          Full.Group.id g' = Full.Group.id g
          /\ Full.Group.totalExpenses g'
             == Full.Group.totalExpenses g
                + (if String.eqb (Full.Group.id g) "1000" then 80 else 0))
       (Full.AppState.groups trip_store) (Full.AppState.groups state').
Proof.
  apply (deleteExpense_same_millisecond (at_time 3000) (at_time 3000)
           (dinner_data "1000") (taxi_data "1000") trip_store).
  - reflexivity.
  - vm_compute. intuition discriminate.
Defined.

(* ================================================================== *)
(** ** The store: marking a share paid *)
(* ================================================================== *)

Lemma map_clocked_map {A B : Type} (f : A -> nat -> A * nat) (h : A -> B)
    (g : B -> B) (l : list A) (t : nat) :
  (forall a t, h (fst (f a t)) = g (h a)) ->
  map h (fst (map_clocked f l t)) = map g (map h l).
Proof.
  intros Hf. revert t. induction l as [|a l IH]; intros t; simpl; [reflexivity|].
  pose proof (Hf a t) as Ha.
  destruct (f a t) as [b t1]. specialize (IH t1).
  destruct (map_clocked f l t1) as [bs t2]. simpl in *.
  rewrite Ha, IH. reflexivity.
Qed.

Lemma mark_expense_ledger (now : nat -> Z) (expenseId participantUserId : string)
    (e : Full.Expense.t) (t : nat) :
  to_Expense (fst (mark_expense now expenseId participantUserId e t))
  = paid_by expenseId participantUserId (to_Expense e).
Proof.
  unfold mark_expense, paid_by. simpl.
  destruct (String.eqb (Full.Expense.id e) expenseId); [|reflexivity].
  pose proof (map_clocked_map (mark_participant now participantUserId) to_Participant
                (fun p => if String.eqb (ExpenseParticipant.userId p) participantUserId
                          then ExpenseParticipant.mk (ExpenseParticipant.userId p)
                                 (ExpenseParticipant.amount p) true
                          else p)
                (Full.Expense.participants e) t) as Hps.
  destruct (map_clocked _ _ _) as [ps t1]. simpl in *.
  unfold to_Expense. simpl. f_equal. apply Hps.
  intros p t'. unfold mark_participant. simpl.
  destruct (String.eqb (Full.ExpenseParticipant.userId p) participantUserId);
    reflexivity.
Qed.

Lemma markExpensePaid_ledger (now : nat -> Z) (expenseId participantUserId : string)
    (state : Full.AppState.t) :
  ledger (markExpensePaid now expenseId participantUserId state)
  = AppState.mk (AppState.groups (ledger state))
      (map (paid_by expenseId participantUserId) (AppState.expenses (ledger state))).
Proof.
  unfold ledger, markExpensePaid. simpl. f_equal.
  apply map_clocked_map. intros e t. apply mark_expense_ledger.
Qed.

Lemma filter_map_commute {A : Type} (p : A -> bool) (g : A -> A) (l : list A) :
  (forall a, p (g a) = p a) ->
  List.filter p (map g l) = map g (List.filter p l).
Proof.
  intros H. induction l as [|a l IH]; simpl; [reflexivity|].
  rewrite H. destruct (p a); simpl; rewrite IH; reflexivity.
Qed.

Lemma paid_by_fields (expenseId participantUserId : string) (e : Expense.t) :
  Expense.id (paid_by expenseId participantUserId e) = Expense.id e
  /\ Expense.groupId (paid_by expenseId participantUserId e) = Expense.groupId e
  /\ Expense.totalAmount (paid_by expenseId participantUserId e) = Expense.totalAmount e
  /\ Expense.paidBy (paid_by expenseId participantUserId e) = Expense.paidBy e.
Proof.
  unfold paid_by. destruct (String.eqb (Expense.id e) expenseId); repeat split.
Qed.

Lemma lent_of_paid_by (expenseId participantUserId userId : string)
    (es : list Expense.t) :
  lent_of userId (map (paid_by expenseId participantUserId) es) = lent_of userId es.
Proof.
  unfold lent_of. rewrite total_map.
  induction es as [|e es IH]; simpl; [reflexivity|].
  destruct (paid_by_fields expenseId participantUserId e) as (_ & _ & -> & ->).
  rewrite IH. reflexivity.
Qed.

(** The unpaid share of a member among participants, once the entries
    of [participantUserId] are marked paid. *)
Lemma unpaid_share_of_marked (participantUserId userId : string)
    (ps : list ExpenseParticipant.t) :
  unpaid_share_of userId
    (map (fun p => if String.eqb (ExpenseParticipant.userId p) participantUserId
                   then ExpenseParticipant.mk (ExpenseParticipant.userId p)
                          (ExpenseParticipant.amount p) true
                   else p) ps)
  == if String.eqb userId participantUserId then 0 else unpaid_share_of userId ps.
Proof.
  unfold unpaid_share_of. rewrite total_map.
  induction ps as [|p ps IH]; simpl.
  - destruct (String.eqb userId participantUserId); reflexivity.
  - rewrite IH. clear IH.
    destruct (String.eqb_spec (ExpenseParticipant.userId p) participantUserId)
      as [E1|N1]; simpl.
    + destruct (String.eqb_spec (ExpenseParticipant.userId p) userId) as [E2|N2];
        simpl.
      * rewrite <- E2, E1, String.eqb_refl. lra.
      * destruct (String.eqb_spec userId participantUserId) as [E3|_];
          [congruence | lra].
    + destruct (String.eqb_spec userId participantUserId) as [E3|_]; [|lra].
      destruct (String.eqb_spec (ExpenseParticipant.userId p) userId) as [E2|_];
        [congruence|]. simpl. lra.
Qed.

Lemma owed_of_paid_by (expenseId participantUserId userId : string)
    (es : list Expense.t) :
  owed_of userId (map (paid_by expenseId participantUserId) es)
  == owed_of userId
       (if String.eqb userId participantUserId
        then List.filter (fun e => negb (String.eqb (Expense.id e) expenseId)) es
        else es).
Proof.
  unfold owed_of. rewrite total_map.
  induction es as [|e es IH]; simpl.
  - destruct (String.eqb userId participantUserId); reflexivity.
  - rewrite IH. clear IH. unfold paid_by.
    destruct (String.eqb (Expense.id e) expenseId); simpl.
    + rewrite unpaid_share_of_marked.
      destruct (String.eqb userId participantUserId); simpl; lra.
    + destruct (String.eqb userId participantUserId); simpl; lra.
Qed.

(** X18.  [markExpensePaid] and the balances of a group with distinct member
    ids: afterwards the member [participantUserId] owes what it owed on
    the expenses with another id than [expenseId]; what the other
    members owe, and what every member lent, is as before. *)
Theorem markExpensePaid_balances (now : nat -> Z)
    (expenseId participantUserId groupId : string) (state : Full.AppState.t)
    (group : Group.t) :
  List.find (fun g => String.eqb (Group.id g) groupId) (AppState.groups (ledger state))
  = Some group ->
  List.NoDup (map User.id (Group.members group)) ->
  let before := fst (getGroupExpenses groupId (ledger state)) in
  Forall2
    (fun member b =>
       UserBalance.userId b = User.id member
       /\ UserBalance.totalLent b == lent_of (User.id member) before
       /\ UserBalance.totalOwed b
          == owed_of (User.id member)
               (if String.eqb (User.id member) participantUserId
                then List.filter
                       (fun e => negb (String.eqb (Expense.id e) expenseId)) before
                else before)
       /\ UserBalance.netBalance b == UserBalance.totalLent b - UserBalance.totalOwed b)
    (Group.members group)
    (fst (calculateUserBalances groupId
            (ledger (markExpensePaid now expenseId participantUserId state)))).
Proof.
  intros Hfind Hnd before.
  rewrite markExpensePaid_ledger.
  set (state' := AppState.mk _ _).
  pose proof (balances_per_member state' groupId group Hfind Hnd) as Hper.
  eapply Forall2_impl; [exact Hper|].
  intros member b (H1 & _ & H3 & H4 & H5).
  assert (E : fst (getGroupExpenses groupId state')
              = map (paid_by expenseId participantUserId) before).
  { unfold getGroupExpenses, bind, get, ret, state', before. simpl.
    apply filter_map_commute. intros e.
    destruct (paid_by_fields expenseId participantUserId e) as (_ & -> & _).
    reflexivity. }
  rewrite E in H3, H4, H5.
  rewrite lent_of_paid_by in H3, H5. rewrite owed_of_paid_by in H4, H5.
  repeat split; try assumption. rewrite H3, H4. exact H5.
Qed.

Lemma markExpensePaid_balances_witness :
  let before := fst (getGroupExpenses "1000" (ledger trip_store)) in
  Forall2
    (fun member b =>
       UserBalance.userId b = User.id member
       /\ UserBalance.totalLent b == lent_of (User.id member) before
       /\ UserBalance.totalOwed b
          == owed_of (User.id member)
               (if String.eqb (User.id member) "u2"
                then List.filter (fun e => negb (String.eqb (Expense.id e) "2000")) before
                else before)
       /\ UserBalance.netBalance b == UserBalance.totalLent b - UserBalance.totalOwed b)
    [User.mk "u1"; User.mk "u2"]
    (fst (calculateUserBalances "1000"
            (ledger (markExpensePaid (at_time 4000) "2000" "u2" trip_store)))).
Proof.
  apply (markExpensePaid_balances (at_time 4000) "2000" "u2" "1000" trip_store
           (Group.mk "1000" [User.mk "u1"; User.mk "u2"])).
  - reflexivity.
  - repeat constructor; simpl; intuition discriminate.
Defined.

(* ================================================================== *)
(** ** The store: deleting a group, clearing the expenses *)
(* ================================================================== *)

(** X19.  [deleteGroup] removes every group with the id and deselects it if
    it was the active group, but removes none of its expenses:
    [getGroupExpenses] still returns them, while
    [calculateUserBalances] returns no balance for the group. *)
Theorem deleteGroup_keeps_expenses (groupId : string) (state : Full.AppState.t) :
  let state' := deleteGroup groupId state in
  Forall (fun g => Full.Group.id g <> groupId) (Full.AppState.groups state')
  /\ Full.AppState.activeGroupId state' <> Some groupId
  /\ Full.AppState.expenses state' = Full.AppState.expenses state
  /\ fst (getGroupExpenses groupId (ledger state'))
     = fst (getGroupExpenses groupId (ledger state))
  /\ fst (calculateUserBalances groupId (ledger state')) = [].
Proof.
  cbv zeta.
  assert (Hgone : Forall (fun g => Full.Group.id g <> groupId)
                         (Full.AppState.groups (deleteGroup groupId state))).
  { simpl. apply List.Forall_forall. intros g Hg. apply filter_In in Hg.
    destruct Hg as [_ Hg]. apply negb_true_iff, String.eqb_neq in Hg. exact Hg. }
  repeat split.
  - exact Hgone.
  - simpl. destruct (Full.AppState.activeGroupId state) as [active|]; [|discriminate].
    destruct (String.eqb_spec active groupId) as [_|N]; [discriminate|].
    intros [= E]. contradiction.
  - unfold calculateUserBalances, bind, get, ret. cbn [fst snd].
    rewrite find_group_none; [reflexivity|].
    intros g Hg. unfold ledger in Hg. cbn [AppState.groups] in Hg.
    apply in_map_iff in Hg. destruct Hg as (g0 & <- & Hg0).
    rewrite List.Forall_forall in Hgone. exact (Hgone g0 Hg0).
Qed.

Lemma init_balances_all_zero (groupId : string) (members : list User.t)
    (acc : JSMap UserBalance.t) :
  Forall (fun kv => UserBalance.totalOwed (snd kv) = 0
                    /\ UserBalance.totalLent (snd kv) = 0
                    /\ UserBalance.netBalance (snd kv) = 0) acc ->
  Forall (fun kv => UserBalance.totalOwed (snd kv) = 0
                    /\ UserBalance.totalLent (snd kv) = 0
                    /\ UserBalance.netBalance (snd kv) = 0)
    (fold_left
       (fun balanceMap member =>
          Map_set (User.id member)
            (UserBalance.mk (User.id member) groupId 0 0 0) balanceMap)
       members acc).
Proof.
  revert acc. induction members as [|m members IH]; intros acc Hacc; simpl;
    [exact Hacc|].
  apply IH. clear IH.
  induction Hacc as [|[k v] acc Hv Hacc IHacc]; simpl.
  - repeat constructor.
  - destruct (String.eqb k (User.id m)).
    + constructor; [repeat split | assumption].
    + constructor; assumption.
Qed.

Lemma suggestedSettlements_eq (clock : nat -> Z) (fuel : nat) (groupId : string)
    (state : AppState.t) :
  fst (suggestedSettlements clock fuel groupId state)
  = if (0 <? length (fst (calculateUserBalances groupId state)))%nat
    then optimizeSettlements clock fuel (fst (calculateUserBalances groupId state))
    else Some (Ok []).
Proof.
  unfold suggestedSettlements, bind, ret.
  destruct (calculateUserBalances groupId state) as [bs st]. reflexivity.
Qed.

(** X20.  After [clearAllExpenses] every group's [totalExpenses] is zero,
    every balance of every group is zero, and the settlements suggested
    for any group are none. *)
Theorem clearAllExpenses_clears_balances (clock : nat -> Z) (groupId : string)
    (state : Full.AppState.t) :
  let state' := clearAllExpenses state in
  let balances := fst (calculateUserBalances groupId (ledger state')) in
  Forall (fun g => Full.Group.totalExpenses g = 0) (Full.AppState.groups state')
  /\ Forall (fun b => UserBalance.totalOwed b = 0 /\ UserBalance.totalLent b = 0
                      /\ UserBalance.netBalance b = 0) balances
  /\ fst (suggestedSettlements clock (S (length balances)) groupId (ledger state'))
     = Some (Ok []).
Proof.
  cbv zeta.
  set (balances := fst (calculateUserBalances groupId (ledger (clearAllExpenses state)))).
  assert (Hzero : Forall (fun b => UserBalance.totalOwed b = 0
                                   /\ UserBalance.totalLent b = 0
                                   /\ UserBalance.netBalance b = 0) balances).
  { subst balances. unfold calculateUserBalances, bind, get, ret. cbn [fst snd].
    destruct (List.find _ _) as [group|]; [|constructor]. simpl.
    unfold Map_values. rewrite map_map. apply Forall_map.
    eapply Forall_impl; [apply init_balances_all_zero; constructor|].
    intros [k v] (H1 & H2 & H3). simpl in *.
    unfold close_balance, set_netBalance. simpl. rewrite H1, H2.
    repeat split. }
  split; [|split; [exact Hzero|]].
  - simpl. apply Forall_map. apply List.Forall_forall. intros g _. reflexivity.
  - rewrite suggestedSettlements_eq. fold balances.
    destruct (Nat.ltb_spec 0 (length balances)) as [_|_]; [|reflexivity].
    destruct (returns_on_multiples clock 1 balances) as [r Hr]; [reflexivity| |].
    + eapply Forall_impl; [exact Hzero|]. intros b (_ & _ & Hb).
      exists 0%Z. rewrite Hb. reflexivity.
    + rewrite Hr. pose proof (settlements_well_directed _ _ _ _ Hr) as Hdir.
      destruct r as [|s r]; [reflexivity|]. exfalso.
      inversion Hdir as [|? ? (debtor & _ & Hin & _ & _ & _ & _ & Hneg & _) _]; subst.
      rewrite List.Forall_forall in Hzero.
      destruct (Hzero debtor Hin) as (_ & _ & Hb). rewrite Hb in Hneg.
      discriminate.
Qed.

(* ================================================================== *)
(** ** From the expenses of a group to its suggested settlements *)
(* ================================================================== *)

Lemma is_cents_zero : is_cents 0.
Proof. unfold is_cents. reflexivity. Qed.

Lemma Forall_Map_alter {V : Type} (P : V -> Prop) (f : V -> V) (k : string)
    (m : JSMap V) :
  (forall v, P v -> P (f v)) ->
  Forall (fun kv => P (snd kv)) m -> Forall (fun kv => P (snd kv)) (Map_alter f k m).
Proof.
  intros Hf. induction 1 as [|[k0 v0] m Hv Hm IH]; simpl; [constructor|].
  destruct (String.eqb k0 k); constructor; simpl in *; auto.
Qed.

Lemma multiple_of_zero (u : Q) : multiple_of u 0.
Proof. exists 0%Z. change (inject_Z 0) with 0. ring. Qed.

Lemma add_participants_multiples (u : Q) (ps : list ExpenseParticipant.t)
    (m : JSMap UserBalance.t) :
  Forall (fun p => multiple_of u (ExpenseParticipant.amount p)) ps ->
  Forall (fun kv => multiple_of u (UserBalance.totalOwed (snd kv))
                    /\ multiple_of u (UserBalance.totalLent (snd kv))) m ->
  Forall (fun kv => multiple_of u (UserBalance.totalOwed (snd kv))
                    /\ multiple_of u (UserBalance.totalLent (snd kv)))
         (fold_left add_participant ps m).
Proof.
  intros Hps. revert m. induction Hps as [|p ps Hp _ IH]; intros m Hm; simpl;
    [exact Hm|].
  apply IH. unfold add_participant.
  destruct (Map_get (ExpenseParticipant.userId p) m); [|exact Hm].
  destruct (negb (ExpenseParticipant.isPaid p)); [|exact Hm].
  apply (Forall_Map_alter
           (fun b => multiple_of u (UserBalance.totalOwed b)
                     /\ multiple_of u (UserBalance.totalLent b))); [|exact Hm].
  intros v [Ho Hl]. split; simpl; [|exact Hl].
  apply (multiple_of_eq u (UserBalance.totalOwed v + ExpenseParticipant.amount p));
    [symmetry; apply add_eq | apply multiple_of_add; assumption].
Qed.

Lemma add_expense_multiples (u : Q) (m : JSMap UserBalance.t) (e : Expense.t) :
  whole_multiples u e ->
  Forall (fun kv => multiple_of u (UserBalance.totalOwed (snd kv))
                    /\ multiple_of u (UserBalance.totalLent (snd kv))) m ->
  Forall (fun kv => multiple_of u (UserBalance.totalOwed (snd kv))
                    /\ multiple_of u (UserBalance.totalLent (snd kv)))
         (add_expense m e).
Proof.
  intros [Htot Hps] Hm. unfold add_expense.
  apply add_participants_multiples; [exact Hps|].
  destruct (Map_get (Expense.paidBy e) m); [|exact Hm].
  apply (Forall_Map_alter
           (fun b => multiple_of u (UserBalance.totalOwed b)
                     /\ multiple_of u (UserBalance.totalLent b))); [|exact Hm].
  intros v [Ho Hl]. split; simpl; [exact Ho|].
  apply (multiple_of_eq u (UserBalance.totalLent v + Expense.totalAmount e));
    [symmetry; apply add_eq | apply multiple_of_add; assumption].
Qed.

Lemma balances_multiples (u : Q) (state : AppState.t) (groupId : string) :
  Forall (whole_multiples u) (fst (getGroupExpenses groupId state)) ->
  Forall (fun b => multiple_of u (UserBalance.netBalance b))
         (fst (calculateUserBalances groupId state)).
Proof.
  unfold calculateUserBalances, getGroupExpenses, bind, get, ret. cbn [fst snd].
  intros Hes. destruct (List.find _ _) as [group|]; [|constructor]. cbn [fst].
  unfold Map_values. rewrite map_map. apply Forall_map.
  assert (H0 : Forall (fun kv => multiple_of u (UserBalance.totalOwed (snd kv))
                                 /\ multiple_of u (UserBalance.totalLent (snd kv)))
                      (init_balances groupId (Group.members group))).
  { eapply Forall_impl; [apply init_balances_all_zero; constructor|].
    intros kv (-> & -> & _). split; apply multiple_of_zero. }
  revert H0. generalize (init_balances groupId (Group.members group)).
  induction Hes as [|e es He _ IH]; intros m Hm; simpl.
  - eapply Forall_impl; [exact Hm|]. intros [k v] [Ho Hl]. simpl in *.
    unfold close_balance, set_netBalance. simpl.
    apply (multiple_of_eq u (UserBalance.totalLent v - UserBalance.totalOwed v));
      [symmetry; apply sub_eq | apply multiple_of_sub; assumption].
  - apply IH. apply add_expense_multiples; assumption.
Qed.

Lemma Forall2_userIds (groupId : string) (es : list Expense.t)
    (members : list User.t) (balances : list UserBalance.t) :
  Forall2 (balance_of groupId es) members balances ->
  map UserBalance.userId balances = map User.id members.
Proof.
  induction 1 as [|m b ms bs (H & _) _ IH]; simpl; [reflexivity|].
  rewrite H, IH. reflexivity.
Qed.

(** X22.  The settlements that the group screen suggests settle the group.
    For a group with distinct member ids whose expenses name only
    members, have unpaid shares that add up to the total, and have
    totals and shares that are whole multiples of one unit, a whole
    number of cents larger than one cent: the computation of the
    suggested settlements returns, within [n + 1] tests of the loop
    condition for [n] balances, and what the settlements bring each
    member, less what they take from the member, is what the member
    lent less what the member owes. *)
Theorem suggestedSettlements_settle_the_group (clock : nat -> Z) (u : Q)
    (groupId : string) (state : AppState.t) (group : Group.t) :
  0.01 < u -> is_cents u ->
  List.find (fun g => String.eqb (Group.id g) groupId) (AppState.groups state)
  = Some group ->
  List.NoDup (map User.id (Group.members group)) ->
  let expenses := fst (getGroupExpenses groupId state) in
  Forall (members_only group) expenses ->
  Forall (whole_multiples u) expenses ->
  Forall (fun e => unpaid_amount e == Expense.totalAmount e) expenses ->
  exists r,
    fst (suggestedSettlements clock
           (S (length (fst (calculateUserBalances groupId state)))) groupId state)
    = Some (Ok r)
    /\ Forall (fun member =>
                 inflow (User.id member) r - outflow (User.id member) r
                 == lent_of (User.id member) expenses
                    - owed_of (User.id member) expenses)
              (Group.members group).
Proof.
  intros Hu Hcu Hfind Hnd expenses Hmem Hmul Hunpaid.
  pose proof (balances_per_member state groupId group Hfind Hnd) as Hper.
  fold expenses in Hper.
  rewrite suggestedSettlements_eq.
  pose proof (balances_multiples u state groupId Hmul) as Hbm.
  set (balances := fst (calculateUserBalances groupId state)) in *.
  destruct (Nat.ltb_spec 0 (length balances)) as [_|Hempty].
  - destruct (returns_on_multiples clock u balances Hu Hbm) as [r Hrun].
    exists r. split; [exact Hrun|].
    assert (Hall : Forall (fun b => inflow (UserBalance.userId b) r
                                    - outflow (UserBalance.userId b) r
                                    == UserBalance.netBalance b) balances).
    { apply (settlements_settle_everyone clock (S (length balances)));
        [| | |exact Hrun].
      - eapply Forall_impl; [exact Hbm|].
        intros b H. apply (multiple_of_cents u); assumption.
      - unfold balances. rewrite (calculateUserBalances_sum _ _ group Hfind Hmem).
        fold expenses. clear -Hunpaid.
        induction Hunpaid as [|e es He _ IH]; simpl; [reflexivity|].
        rewrite IH, He. lra.
      - rewrite (Forall2_userIds _ _ _ _ Hper). exact Hnd. }
    clear -Hper Hall.
    induction Hper as [|m b ms bs (H1 & _ & _ & _ & H5) _ IH]; [constructor|].
    inversion Hall as [|? ? Hb Hbs]; subst.
    apply List.Forall_cons; [|apply IH; exact Hbs].
    cbv beta. rewrite <- H5, <- Hb, H1. reflexivity.
  - exists []. split; [reflexivity|].
    destruct balances; [|simpl in Hempty; lia].
    inversion Hper as [E|]; subst. constructor.
Qed.

Lemma suggestedSettlements_settle_the_group_witness :
  exists r,
    fst (suggestedSettlements (at_time 1000)
           (S (length (fst (calculateUserBalances "g" shared_cab_store)))) "g"
           shared_cab_store)
    = Some (Ok r)
    /\ Forall (fun member =>
                 inflow (User.id member) r - outflow (User.id member) r
                 == lent_of (User.id member)
                      (fst (getGroupExpenses "g" shared_cab_store))
                    - owed_of (User.id member)
                        (fst (getGroupExpenses "g" shared_cab_store)))
              (Group.members scenario2_group).
Proof.
  apply (suggestedSettlements_settle_the_group (at_time 1000) 0.05 "g"
           shared_cab_store scenario2_group).
  - reflexivity.
  - vm_compute. reflexivity.
  - reflexivity.
  - repeat constructor; simpl; intuition discriminate.
  - each_element ltac:(split; [is_member_tac | each_element is_member_tac]).
  - apply List.Forall_cons; [|apply List.Forall_cons; [|apply List.Forall_nil]].
    + split; [exists 1803%Z; reflexivity|].
      each_element ltac:(exists 601%Z; reflexivity).
    + split; [exists 602%Z; reflexivity|].
      each_element ltac:(exists 301%Z; reflexivity).
  - each_element ltac:(vm_compute; reflexivity).
Defined.

(* ================================================================== *)
(** ** The store: settlements *)
(* ================================================================== *)

Lemma total_plus {A : Type} (f g : A -> Q) (l : list A) :
  total (fun a => f a + g a) l == total f l + total g l.
Proof.
  induction l as [|a l IH]; simpl; [lra | rewrite IH; lra].
Qed.

Lemma markSettlementPaid_ledger (now : nat -> Z) (settlementId : string)
    (upiTransactionId : option string) (state : Full.AppState.t) :
  map to_Settlement
      (Full.AppState.settlements
         (markSettlementPaid now settlementId upiTransactionId state))
  = map (settled_by_id settlementId)
        (map to_Settlement (Full.AppState.settlements state)).
Proof.
  unfold markSettlementPaid. simpl. apply map_clocked_map.
  intros s t. unfold mark_settlement, settled_by_id, to_Settlement. simpl.
  destruct (String.eqb (Full.Settlement.id s) settlementId); reflexivity.
Qed.

Lemma paid_total_settled_by_id (settlementId : string) (l : list Settlement.t) :
  total Settlement.amount
    (List.filter (fun s => Settlement.isPaid s) (map (settled_by_id settlementId) l))
  == total Settlement.amount (List.filter (fun s => Settlement.isPaid s) l)
     + pending_with_id settlementId l.
Proof.
  rewrite !total_filter_if, total_map. unfold pending_with_id.
  rewrite <- total_plus. apply total_ext. intros s. unfold settled_by_id.
  destruct (String.eqb (Settlement.id s) settlementId); simpl;
    destruct (Settlement.isPaid s); simpl; lra.
Qed.

Lemma pending_total_settled_by_id (settlementId : string) (l : list Settlement.t) :
  total Settlement.amount
    (List.filter (fun s => negb (Settlement.isPaid s))
                 (map (settled_by_id settlementId) l))
  == total Settlement.amount (List.filter (fun s => negb (Settlement.isPaid s)) l)
     - pending_with_id settlementId l.
Proof.
  rewrite !total_filter_if, total_map. unfold pending_with_id.
  assert (E : forall x y z : Q, x + z == y -> x == y - z) by (intros; lra).
  apply E. rewrite <- total_plus. apply total_ext. intros s. unfold settled_by_id.
  destruct (String.eqb (Settlement.id s) settlementId); simpl;
    destruct (Settlement.isPaid s); simpl; lra.
Qed.

(** X23.  [markSettlementPaid] in the summary of a group: the amount of the
    unpaid settlements with the given id moves from [totalPending] to
    [totalSettled]; [totalExpenses] is as before. *)
Theorem markSettlementPaid_moves_pending (now : nat -> Z) (settlementId : string)
    (upiTransactionId : option string) (state : Full.AppState.t)
    (expenses : list Expense.t) :
  let settlements := map to_Settlement (Full.AppState.settlements state) in
  let before := calculateGroupSummary expenses settlements in
  let after :=
    calculateGroupSummary expenses
      (map to_Settlement
         (Full.AppState.settlements
            (markSettlementPaid now settlementId upiTransactionId state))) in
  GroupSummary.totalSettled after
  == GroupSummary.totalSettled before + pending_with_id settlementId settlements
  /\ GroupSummary.totalPending after
     == GroupSummary.totalPending before - pending_with_id settlementId settlements
  /\ GroupSummary.totalExpenses after = GroupSummary.totalExpenses before.
Proof.
  cbv zeta. rewrite markSettlementPaid_ledger.
  unfold calculateGroupSummary.
  cbn [GroupSummary.totalExpenses GroupSummary.totalSettled GroupSummary.totalPending].
  rewrite !fold_add_total.
  rewrite paid_total_settled_by_id, pending_total_settled_by_id.
  repeat split; lra.
Qed.

Lemma filter_pointwise {A : Type} (p q : A -> bool) (l : list A) :
  (forall a, p a = q a) -> List.filter p l = List.filter q l.
Proof.
  intros H. induction l as [|a l IH]; simpl; [reflexivity|].
  rewrite H, IH. reflexivity.
Qed.

Lemma filter_both {A : Type} (p q : A -> bool) (l : list A) :
  List.filter (fun a => p a && q a) l = List.filter q (List.filter p l).
Proof.
  induction l as [|a l IH]; simpl; [reflexivity|].
  destruct (p a); simpl; [|exact IH].
  destruct (q a); [f_equal|]; exact IH.
Qed.

(** X24.  [getUserSettlements] returns only settlements in which the user
    is payer or payee; with the empty string as group id it returns
    the same as with no group id; and with any group id its result is
    the result for no group id, filtered by that group. *)
Theorem getUserSettlements_filters (userId : string) (groupId : option string)
    (state : Full.AppState.t) :
  Forall (involves userId) (getUserSettlements userId groupId state)
  /\ getUserSettlements userId (Some "") state = getUserSettlements userId None state
  /\ getUserSettlements userId groupId state
     = List.filter
         (fun s => negb (truthy groupId)
                   || strict_eq (Some (Full.Settlement.groupId s)) groupId)
         (getUserSettlements userId None state).
Proof.
  unfold getUserSettlements. split; [|split].
  - apply List.Forall_forall. intros s Hs. apply filter_In in Hs.
    destruct Hs as [_ Hs]. apply andb_true_iff in Hs. destruct Hs as [Hs _].
    apply orb_true_iff in Hs. unfold involves.
    destruct Hs as [Hs|Hs]; apply String.eqb_eq in Hs; tauto.
  - apply filter_pointwise. intros s. reflexivity.
  - rewrite (filter_both
               (fun s => String.eqb (Full.Settlement.fromUserId s) userId
                         || String.eqb (Full.Settlement.toUserId s) userId)
               (fun s => negb (truthy groupId)
                         || strict_eq (Some (Full.Settlement.groupId s)) groupId)).
    f_equal. apply filter_pointwise. intros s. cbn. symmetry. apply andb_true_r.
Qed.

(* ================================================================== *)
(** ** The store: users *)
(* ================================================================== *)

Lemma existsb_false {A : Type} (p : A -> bool) (l : list A) :
  existsb p l = false -> forall a, In a l -> p a = false.
Proof.
  intros H a Ha. destruct (p a) eqn:E; [|reflexivity].
  assert (Hex : existsb p l = true) by (apply existsb_exists; exists a; tauto).
  congruence.
Qed.

(** X25.  [addUser] never puts a second user with the same phone number into
    the store, and adding the same user a second time changes
    nothing. *)
Theorem addUser_keeps_phones_distinct (user : Full.User.t) (state : Full.AppState.t) :
  List.NoDup (map Full.User.phone (Full.AppState.users state)) ->
  List.NoDup (map Full.User.phone (Full.AppState.users (addUser user state)))
  /\ addUser user (addUser user state) = addUser user state.
Proof.
  intros Hnd.
  destruct (existsb
              (fun u => String.eqb (Full.User.phone u) (Full.User.phone user)
                        || (truthy (Full.User.email user)
                            && strict_eq (Full.User.email u) (Full.User.email user)))
              (Full.AppState.users state)) eqn:E.
  - assert (Hsame : addUser user state = set_users state (Full.AppState.users state))
      by (unfold addUser; rewrite E; reflexivity).
    rewrite Hsame. split; [exact Hnd|].
    unfold addUser. simpl. rewrite E. reflexivity.
  - assert (Hnew : addUser user state
                   = set_users state (Full.AppState.users state ++ [user]))
      by (unfold addUser; rewrite E; reflexivity).
    rewrite Hnew. split.
    + simpl. rewrite map_app. simpl. apply NoDup_snoc; [exact Hnd|].
      intros Hin. apply in_map_iff in Hin. destruct Hin as (u & Hu & Hin).
      pose proof (existsb_false _ _ E u Hin) as Hfalse. cbv beta in Hfalse.
      apply orb_false_iff in Hfalse. destruct Hfalse as [Hfalse _].
      apply String.eqb_neq in Hfalse. contradiction.
    + unfold addUser. simpl.
      rewrite existsb_app. simpl. rewrite String.eqb_refl. simpl.
      rewrite orb_true_r. reflexivity.
Qed.

Lemma addUser_keeps_phones_distinct_witness :
  List.NoDup
    (map Full.User.phone
         (Full.AppState.users (addUser ravi (addUser asha initial_store))))
  /\ addUser ravi (addUser ravi (addUser asha initial_store))
     = addUser ravi (addUser asha initial_store).
Proof.
  apply (addUser_keeps_phones_distinct ravi (addUser asha initial_store)).
  repeat constructor; simpl; intuition discriminate.
Defined.

(* ================================================================== *)
(** ** The store: a new expense in the balances *)
(* ================================================================== *)

Lemma to_Group_set_totalExpenses (g : Full.Group.t) (v : number) :
  to_Group (Full.Group.set_totalExpenses g v) = to_Group g.
Proof. reflexivity. Qed.

Lemma addExpense_ledger (now : nat -> Z) (expenseData : Full.ExpenseData.t)
    (state : Full.AppState.t) :
  ledger (addExpense now expenseData state)
  = AppState.mk (AppState.groups (ledger state))
      (AppState.expenses (ledger state)
       ++ [Expense.mk (pretty (now 0%nat)) (Full.ExpenseData.groupId expenseData)
             (Full.ExpenseData.totalAmount expenseData)
             (Full.ExpenseData.paidBy expenseData)
             (map to_Participant (Full.ExpenseData.participants expenseData))]).
Proof.
  unfold ledger, addExpense. cbn -[pretty]. f_equal.
  - rewrite map_map. apply map_ext. intros g.
    destruct (String.eqb _ _); reflexivity.
  - rewrite map_app. reflexivity.
Qed.

(** X26.  [addExpense] in the balances of a group with distinct member ids:
    an expense added to the group raises what its payer lent by the
    total, and what each member owes by the shares in the member's name
    that are not marked paid; an expense added to another group leaves
    the balances as they were. *)
Theorem addExpense_balances (now : nat -> Z) (expenseData : Full.ExpenseData.t)
    (groupId : string) (state : Full.AppState.t) (group : Group.t) :
  List.find (fun g => String.eqb (Group.id g) groupId) (AppState.groups (ledger state))
  = Some group ->
  List.NoDup (map User.id (Group.members group)) ->
  let before := fst (getGroupExpenses groupId (ledger state)) in
  let here := String.eqb (Full.ExpenseData.groupId expenseData) groupId in
  Forall2
    (fun member b =>
       UserBalance.userId b = User.id member
       /\ UserBalance.totalLent b
          == lent_of (User.id member) before
             + (if here && String.eqb (Full.ExpenseData.paidBy expenseData)
                                      (User.id member)
                then Full.ExpenseData.totalAmount expenseData else 0)
       /\ UserBalance.totalOwed b
          == owed_of (User.id member) before
             + (if here
                then unpaid_share_of (User.id member)
                       (map to_Participant (Full.ExpenseData.participants expenseData))
                else 0)
       /\ UserBalance.netBalance b == UserBalance.totalLent b - UserBalance.totalOwed b)
    (Group.members group)
    (fst (calculateUserBalances groupId (ledger (addExpense now expenseData state)))).
Proof.
  intros Hfind Hnd before here.
  rewrite addExpense_ledger.
  set (state' := AppState.mk _ _).
  pose proof (balances_per_member state' groupId group Hfind Hnd) as Hper.
  eapply Forall2_impl; [exact Hper|].
  intros member b (H1 & _ & H3 & H4 & H5).
  assert (E : fst (getGroupExpenses groupId state')
              = before
                ++ (if here
                    then [Expense.mk (pretty (now 0%nat))
                            (Full.ExpenseData.groupId expenseData)
                            (Full.ExpenseData.totalAmount expenseData)
                            (Full.ExpenseData.paidBy expenseData)
                            (map to_Participant
                                 (Full.ExpenseData.participants expenseData))]
                    else [])).
  { unfold getGroupExpenses, bind, get, ret, state', before, here. cbn -[pretty].
    rewrite List.filter_app. cbn -[pretty].
    destruct (String.eqb (Full.ExpenseData.groupId expenseData) groupId); reflexivity. }
  rewrite E in H3, H4, H5. unfold lent_of, owed_of in H3, H4, H5.
  rewrite total_app in H3. rewrite total_app in H4. do 2 rewrite total_app in H5.
  fold (lent_of (User.id member) before) in H3, H5.
  fold (owed_of (User.id member) before) in H4, H5.
  repeat split; try assumption.
  - rewrite H3. destruct here; simpl.
    + destruct (String.eqb _ (User.id member)); lra.
    + lra.
  - rewrite H4. destruct here; simpl; lra.
  - rewrite H3, H4. exact H5.
Qed.

Lemma addExpense_balances_witness :
  let before := fst (getGroupExpenses "1000" (ledger trip_store)) in
  Forall2
    (fun member b =>
       UserBalance.userId b = User.id member
       /\ UserBalance.totalLent b
          == lent_of (User.id member) before
             + (if true && String.eqb "u2" (User.id member) then 80 else 0)
       /\ UserBalance.totalOwed b
          == owed_of (User.id member) before
             + (if true
                then unpaid_share_of (User.id member)
                       [ExpenseParticipant.mk "u1" 40 false;
                        ExpenseParticipant.mk "u2" 40 false]
                else 0)
       /\ UserBalance.netBalance b == UserBalance.totalLent b - UserBalance.totalOwed b)
    [User.mk "u1"; User.mk "u2"]
    (fst (calculateUserBalances "1000"
            (ledger (addExpense (at_time 3000) (taxi_data "1000") trip_store)))).
Proof.
  apply (addExpense_balances (at_time 3000) (taxi_data "1000") "1000" trip_store
           (Group.mk "1000" [User.mk "u1"; User.mk "u2"])).
  - reflexivity.
  - repeat constructor; simpl; intuition discriminate.
Defined.

(* ================================================================== *)
(** ** The store: editing an expense *)
(* ================================================================== *)

Lemma group_total_update (groupId expenseId : string) (amount : number)
    (g : string * string * number -> string * string * number)
    (e : Full.Expense.t) (expenses : list Full.Expense.t) :
  (forall x, g x = if String.eqb (fst (fst x)) expenseId
                   then (fst (fst x), snd (fst x), amount) else x) ->
  List.NoDup (map Full.Expense.id expenses) -> In e expenses ->
  Full.Expense.id e = expenseId -> Full.Expense.groupId e = groupId ->
  total (fun x : string * string * number =>
           if String.eqb (snd (fst x)) groupId then snd x else 0)
        (map g (map (fun e => (Full.Expense.id e, Full.Expense.groupId e,
                               Full.Expense.totalAmount e)) expenses))
  == group_total groupId expenses - Full.Expense.totalAmount e + amount.
Proof.
  intros Hg Hnd Hin Hid Hgid. unfold group_total.
  induction expenses as [|x es IH]; simpl; [contradiction|].
  inversion Hnd as [|? ? Hnot Hnd']; subst.
  rewrite Hg. simpl. destruct Hin as [->|Hin].
  - rewrite String.eqb_refl. simpl. rewrite String.eqb_refl.
    assert (E : map g (map (fun e => (Full.Expense.id e, Full.Expense.groupId e,
                                      Full.Expense.totalAmount e)) es)
                = map (fun e => (Full.Expense.id e, Full.Expense.groupId e,
                                 Full.Expense.totalAmount e)) es).
    { clear IH Hnd Hnd'. induction es as [|y es IH]; simpl; [reflexivity|].
      rewrite Hg. simpl.
      destruct (String.eqb_spec (Full.Expense.id y) (Full.Expense.id e)) as [E|_].
      - exfalso. apply Hnot. left. exact E.
      - f_equal. apply IH. intros H. apply Hnot. right. exact H. }
    rewrite E, total_map. simpl. lra.
  - destruct (String.eqb_spec (Full.Expense.id x) (Full.Expense.id e)) as [E|_].
    + exfalso. apply Hnot. rewrite E. apply in_map. exact Hin.
    + simpl. rewrite (IH Hnd' Hin). lra.
Qed.

(** X27.  [updateExpense] never touches the groups.  So in a store whose
    expenses have distinct ids, for a group whose [totalExpenses] is
    the sum of the amounts of its expenses, an update that gives an
    expense of the group another amount, and keeps its id and its
    group, leaves all groups as they were and the group's
    [totalExpenses] different from the sum of the amounts of its
    expenses. *)
Theorem updateExpense_leaves_total_stale (now : nat -> Z) (expenseId : string)
    (updates : Full.ExpenseUpdates.t) (state : Full.AppState.t)
    (e : Full.Expense.t) (group : Full.Group.t) (amount : number) :
  List.NoDup (map Full.Expense.id (Full.AppState.expenses state)) ->
  In e (Full.AppState.expenses state) -> Full.Expense.id e = expenseId ->
  In group (Full.AppState.groups state) ->
  Full.Group.id group = Full.Expense.groupId e ->
  Full.Group.totalExpenses group
  == group_total (Full.Group.id group) (Full.AppState.expenses state) ->
  Full.ExpenseUpdates.id updates = None ->
  Full.ExpenseUpdates.groupId updates = None ->
  Full.ExpenseUpdates.totalAmount updates = Some amount ->
  ~ amount == Full.Expense.totalAmount e ->
  let state' := updateExpense now expenseId updates state in
  Full.AppState.groups state' = Full.AppState.groups state
  /\ In group (Full.AppState.groups state')
  /\ ~ Full.Group.totalExpenses group
       == group_total (Full.Group.id group) (Full.AppState.expenses state').
Proof.
  intros Hnd Hin Hid Hg Hgid Htot Uid Ugid Uamount Hne state'.
  split; [reflexivity|]. split; [exact Hg|]. intros Htot'.
  apply Hne.
  assert (E : group_total (Full.Group.id group) (Full.AppState.expenses state')
              == group_total (Full.Group.id group) (Full.AppState.expenses state)
                 - Full.Expense.totalAmount e + amount).
  { unfold state', updateExpense. cbn [Full.AppState.expenses set_expenses].
    rewrite <- (group_total_update (Full.Group.id group) expenseId amount
                  (fun x => if String.eqb (fst (fst x)) expenseId
                            then (fst (fst x), snd (fst x), amount) else x)
                  e (Full.AppState.expenses state));
      [|reflexivity | exact Hnd | exact Hin | exact Hid | symmetry; exact Hgid].
    rewrite <- (map_clocked_map (update_expense now expenseId updates)
                  (fun e => (Full.Expense.id e, Full.Expense.groupId e,
                             Full.Expense.totalAmount e))
                  (fun x => if String.eqb (fst (fst x)) expenseId
                            then (fst (fst x), snd (fst x), amount) else x)
                  (Full.AppState.expenses state) 0%nat).
    - unfold group_total. rewrite total_map. reflexivity.
    - intros x t. unfold update_expense. cbn [fst snd].
      destruct (String.eqb (Full.Expense.id x) expenseId); [|reflexivity].
      cbn. rewrite Uid, Ugid, Uamount. reflexivity. }
  rewrite E in Htot'. rewrite Htot in Htot'. lra.
Qed.

Lemma updateExpense_leaves_total_stale_witness :
  let group :=
    Full.Group.mk "1000" "Goa" None Full.Trip [asha; ravi] "u1" 1001 300 "INR" true in
  let state' := updateExpense (at_time 5000) "2000" (new_amount 350) trip_store in
  Full.AppState.groups state' = Full.AppState.groups trip_store
  /\ In group (Full.AppState.groups state')
  /\ ~ Full.Group.totalExpenses group
       == group_total (Full.Group.id group) (Full.AppState.expenses state').
Proof.
  apply (updateExpense_leaves_total_stale (at_time 5000) "2000" (new_amount 350)
           trip_store
           (Full.Expense.mk "2000" "1000" "Dinner" None 300 "u1" Full.equal
              [Full.ExpenseParticipant.mk "u1" 150 false None;
               Full.ExpenseParticipant.mk "u2" 150 false None]
              None None None None 2001 2002 "INR")
           (Full.Group.mk "1000" "Goa" None Full.Trip [asha; ravi] "u1" 1001 300
              "INR" true)
           350).
  - repeat constructor; simpl; intuition discriminate.
  - left. reflexivity.
  - reflexivity.
  - left. reflexivity.
  - reflexivity.
  - vm_compute. reflexivity.
  - reflexivity.
  - reflexivity.
  - reflexivity.
  - discriminate.
Defined.

(* ================================================================== *)
(** ** The store: a new group *)
(* ================================================================== *)

Lemma filter_none {A : Type} (p : A -> bool) (l : list A) :
  Forall (fun a => p a = false) l -> List.filter p l = [].
Proof.
  induction 1 as [|a l Ha _ IH]; simpl; [reflexivity|].
  rewrite Ha. exact IH.
Qed.

(** X28.  A group that [createGroup] makes under an id that no group and
    no expense of the store uses starts even: for distinct member ids,
    [calculateUserBalances] returns for it one balance per member, in
    member order, with nothing owed and nothing lent. *)
Theorem createGroup_starts_even (now : nat -> Z) (groupData : Full.GroupData.t)
    (state : Full.AppState.t) :
  let groupId := pretty (now 0%nat) in
  ~ In groupId (map Full.Group.id (Full.AppState.groups state)) ->
  Forall (fun e => Full.Expense.groupId e <> groupId) (Full.AppState.expenses state) ->
  List.NoDup (map Full.User.id (Full.GroupData.members groupData)) ->
  fst (calculateUserBalances groupId (ledger (createGroup now groupData state)))
  = map (fun member => UserBalance.mk (Full.User.id member) groupId 0 0 0)
        (Full.GroupData.members groupData).
Proof.
  intros groupId Hgroups Hexpenses Hnd.
  unfold calculateUserBalances, bind, get, ret. cbn [fst snd].
  unfold ledger, createGroup. cbn [AppState.groups AppState.expenses
    Full.AppState.groups Full.AppState.expenses set_groups].
  rewrite map_app. cbn [map]. fold groupId.
  rewrite find_snoc.
  - rewrite filter_none.
    + cbn [fold_left to_Group Group.members Full.Group.members fst].
      rewrite init_balances_distinct; [|rewrite map_map; exact Hnd].
      unfold Map_values. rewrite !map_map. apply map_ext. intros member. reflexivity.
    + apply Forall_map. eapply Forall_impl; [exact Hexpenses|].
      intros e He. apply String.eqb_neq. exact He.
  - apply Forall_map. apply List.Forall_forall. intros g Hg.
    apply String.eqb_neq. intros E. apply Hgroups. simpl in E. rewrite <- E.
    apply (in_map Full.Group.id). exact Hg.
  - apply String.eqb_refl.
Qed.

Lemma createGroup_starts_even_witness :
  fst (calculateUserBalances "6000"
         (ledger (createGroup (at_time 6000) trip_data trip_store)))
  = [UserBalance.mk "u1" "6000" 0 0 0; UserBalance.mk "u2" "6000" 0 0 0].
Proof.
  apply (createGroup_starts_even (at_time 6000) trip_data trip_store).
  - vm_compute. intuition discriminate.
  - repeat constructor; vm_compute; discriminate.
  - repeat constructor; simpl; intuition discriminate.
Defined.

(* ================================================================== *)
(** ** When the suggested settlements are computed *)
(* ================================================================== *)



(* ================================================================== *)
(** ** Where binary64 parts from the exact model *)
(* ================================================================== *)

(** The theorems above are over exact amounts.  The runs below, of the
    binary64 embedding, mark the inputs on which the program and the
    exact model part: ties between two cents, sums at the 0.01
    boundary of a check, NaN, and balances of one-cent granularity.
    The general theorems are stated for inputs away from these. *)
Section Binary64Facts.
Import PrimFloat.
#[local] Set Warnings "-inexact-float".

(** A tie between two cents can go down: [x * 100] is rounded before
    [Math.round] sees it. *)
Lemma binary64_roundToTwoDecimals_ties :
  Binary64.roundToTwoDecimals 10.165%float = 10.16%float
  /\ Binary64.roundToTwoDecimals 1.005%float = 1%float
  /\ Binary64.roundToTwoDecimals 0.125%float = 0.13%float.
Proof. vm_compute. repeat split. Qed.

(** 20.33 between two: the common share, 10.165 rounded, is 10.16 and
    the first participant is raised to 10.17, where the exact model
    has 10.17 for the share and 10.16 for the first.  100 among six
    comes out as in the exact model. *)
Lemma binary64_calculateEqualSplit_tie :
  Binary64.calculateEqualSplit 20.33%float ["A"; "B"]
  = Ok [Binary64.ExpenseParticipant.mk "A" 10.17%float false;
        Binary64.ExpenseParticipant.mk "B" 10.16%float false]
  /\ (exists x share,
         calculateEqualSplit 20.33 ["A"; "B"]
         = Ok [ExpenseParticipant.mk "A" x false;
               ExpenseParticipant.mk "B" share false]
         /\ x == 10.16 /\ share == 10.17).
Proof.
  split; [vm_compute; reflexivity|].
  eexists; eexists. split; [vm_compute; reflexivity|].
  split; vm_compute; reflexivity.
Qed.

Lemma binary64_calculateEqualSplit_100_among_6 :
  Binary64.calculateEqualSplit 100%float ["A"; "B"; "C"; "D"; "E"; "F"]
  = Ok [Binary64.ExpenseParticipant.mk "A" 16.65%float false;
        Binary64.ExpenseParticipant.mk "B" 16.67%float false;
        Binary64.ExpenseParticipant.mk "C" 16.67%float false;
        Binary64.ExpenseParticipant.mk "D" 16.67%float false;
        Binary64.ExpenseParticipant.mk "E" 16.67%float false;
        Binary64.ExpenseParticipant.mk "F" 16.67%float false].
Proof. vm_compute. reflexivity. Qed.

(** At the boundary of the sum checks: three times 33.33 against 100
    is off by 0.01 exactly and passes in the exact model; in binary64
    the sum is 99.989999999999995 and the checks fail.  A sum that is
    off by more than the boundary in exact terms can pass in turn. *)
Lemma binary64_sum_check_boundary :
  Binary64.calculateCustomSplit 100%float
    [("A", 33.33%float); ("B", 33.33%float); ("C", 33.33%float)]
  = Throw "Custom split amounts do not match total amount"
  /\ Binary64.calculatePercentageSplit 100%float
       [("A", 33.33%float); ("B", 33.33%float); ("C", 33.33%float)]
     = Throw "Percentages do not add up to 100%"
  /\ Validation.isValid
       (Binary64.validateExpenseParticipants 100%float
          [Binary64.ExpenseParticipant.mk "A" 33.33%float false;
           Binary64.ExpenseParticipant.mk "B" 33.33%float false;
           Binary64.ExpenseParticipant.mk "C" 33.33%float false])
     = false
  /\ (exists shares,
         calculateCustomSplit 100 [("A", 33.33); ("B", 33.33); ("C", 33.33)]
         = Ok shares)
  /\ (exists shares,
         calculatePercentageSplit 100 [("A", 33.33); ("B", 33.33); ("C", 33.33)]
         = Ok shares)
  /\ Validation.isValid
       (validateExpenseParticipants 100
          [ExpenseParticipant.mk "A" 33.33 false;
           ExpenseParticipant.mk "B" 33.33 false;
           ExpenseParticipant.mk "C" 33.33 false])
     = true.
Proof.
  split; [vm_compute; reflexivity|].
  split; [vm_compute; reflexivity|].
  split; [vm_compute; reflexivity|].
  split; [eexists; vm_compute; reflexivity|].
  split; [eexists; vm_compute; reflexivity|].
  vm_compute. reflexivity.
Qed.

(** Sums well inside the margin pass, sums well outside fail, as in the
    exact model. *)
Lemma binary64_sum_check_margins :
  Binary64.calculateCustomSplit 100%float [("A", 60%float); ("B", 40%float)]
  = Ok [Binary64.ExpenseParticipant.mk "A" 60%float false;
        Binary64.ExpenseParticipant.mk "B" 40%float false]
  /\ Binary64.calculateCustomSplit 100%float [("A", 50%float); ("B", 49.98%float)]
     = Throw "Custom split amounts do not match total amount"
  /\ Binary64.calculatePercentageSplit 200%float [("A", 50%float); ("B", 50%float)]
     = Ok [Binary64.ExpenseParticipant.mk "A" 100%float false;
           Binary64.ExpenseParticipant.mk "B" 100%float false]
  /\ Binary64.calculatePercentageSplit 200%float [("A", 50%float); ("B", 49.98%float)]
     = Throw "Percentages do not add up to 100%".
Proof. vm_compute. repeat split. Qed.

(** A share that is NaN, as [parseFloat] gives for a lone dot, makes
    every comparison false: the sum check passes, and the validation
    too. *)
Lemma binary64_NaN_passes :
  (exists shares,
      Binary64.calculateCustomSplit 100%float [("A", nan); ("B", 100%float)]
      = Ok shares)
  /\ Binary64.validateExpenseParticipants 100%float
       [Binary64.ExpenseParticipant.mk "A" nan false;
        Binary64.ExpenseParticipant.mk "B" 100%float false]
     = Validation.mk true None.
Proof. split; [eexists|]; vm_compute; reflexivity. Qed.

(** Balances of one-cent granularity.  On 50.01, -50 and -0.01 the
    lender is left with 0.0099999999999980105, which counts as
    settled: the call returns one settlement of 50 and the last cent
    is dropped, where the exact model tests the loop condition for
    ever. *)
Lemma binary64_optimizeSettlements_drops_a_cent :
  Binary64.optimizeSettlements (fun k => 1000 + Z.of_nat k)%Z 10
    [Binary64.net "A" 50.01%float; Binary64.net "B" (-50)%float;
     Binary64.net "C" (-0.01)%float]
  = Some (Ok [Binary64.Settlement.mk "1000_0_2" "B" "A" 50%float "g" [] false 1001])
  /\ (forall fuel,
         optimizeSettlements (fun k => 1000 + Z.of_nat k)%Z fuel
           [UserBalance.mk "A" "g" 0 0 50.01; UserBalance.mk "B" "g" 0 0 (-50);
            UserBalance.mk "C" "g" 0 0 (-0.01)]
         = None).
Proof.
  split; [vm_compute; reflexivity|].
  intros fuel. unfold optimizeSettlements.
  destruct fuel as [|fuel]; [reflexivity|].
  set (clock := (fun k => 1000 + Z.of_nat k)%Z).
  change (while_loop clock (S fuel)
            (initial_state [UserBalance.mk "A" "g" 0 0 50.01;
                            UserBalance.mk "B" "g" 0 0 (-50);
                            UserBalance.mk "C" "g" 0 0 (-0.01)]))
    with (match loop_body clock
                  (initial_state [UserBalance.mk "A" "g" 0 0 50.01;
                                  UserBalance.mk "B" "g" 0 0 (-50);
                                  UserBalance.mk "C" "g" 0 0 (-0.01)]) with
          | Ok st' => while_loop clock fuel st'
          | Throw message => Some (Throw message)
          end).
  set (st1 := loop_body clock _). vm_compute in st1. subst st1. cbv iota beta.
  induction fuel as [|fuel IH]; [reflexivity|].
  exact IH.
Qed.

(** On 0.01 and -0.01 the program itself never returns. *)
Lemma binary64_one_cent_never_returns (clock : nat -> Z) (fuel : nat) :
  Binary64.optimizeSettlements clock fuel
    [Binary64.net "A" 0.01%float; Binary64.net "B" (-0.01)%float]
  = None.
Proof.
  unfold Binary64.optimizeSettlements.
  set (st := Binary64.initial_state _).
  assert (Hidle : Binary64.loop_body clock st = Ok st) by (vm_compute; reflexivity).
  assert (Hcond : (Binary64.leftIndex st <? Binary64.rightIndex st)%Z = true)
    by (vm_compute; reflexivity).
  clearbody st.
  induction fuel as [|fuel IH]; [reflexivity|].
  simpl. rewrite Hcond, Hidle. exact IH.
Qed.

(** Balances that are whole multiples of 0.05 are settled in full, with
    the amounts of the exact model. *)
Lemma binary64_optimizeSettlements_on_multiples :
  Binary64.optimizeSettlements (fun k => 1000 + Z.of_nat k)%Z 4
    [Binary64.net "A" 200.05%float; Binary64.net "B" (-100)%float;
     Binary64.net "C" (-100.05)%float]
  = Some (Ok [Binary64.Settlement.mk "1000_0_2" "C" "A" 100.05%float "g" [] false 1001;
              Binary64.Settlement.mk "1002_0_1" "B" "A" 100%float "g" [] false 1003]).
Proof. vm_compute. reflexivity. Qed.

(** Sums of amounts with cents are rounded, sums of whole amounts are
    not: a total of 0.1 that has 0.2 added and taken away again is
    0.10000000000000003, and a balance of 10.01 less two shares of 5
    is below 0.01. *)
Lemma binary64_sums_round :
  ((0.1 + 0.2 - 0.2 =? 0.1) = false
   /\ (10.01 - (5 + 5) <? 0.01) = true
   /\ (300 + 80 - 80 =? 300) = true)%float.
Proof. vm_compute. repeat split. Qed.

End Binary64Facts.
